(** * Indeed job scraper: crawl core and aggregation helpers

    A shallow embedding of the crawl engine of [src/indeed_scraper.js]
    (task generation, the Cloudflare challenge poll loop, card extraction and
    the crawler's request handler) and of the aggregation helpers of
    [src/indeed_scraper_api.js] (e-mail harvesting, duplicate suppression).

    Conventions.
    - A JavaScript string is a [string]: a sequence of code units below 256.
      [toLowerCase] and [trim] are the restrictions of the JavaScript
      operations to that range.
    - A promise that rejects and a call that throws are both a [Err msg],
      where [msg] is the [message] of the error.
    - A live page is an oracle indexed by the time, in milliseconds, elapsed
      since the function under study was entered; every [setTimeout] wait
      advances that clock. *)

From Stdlib Require Import String Ascii NArith ZArith List Bool Arith Lia.
From stdpp Require Import base gmap strings list fin_maps pretty.
Import ListNotations.

Local Open Scope N_scope.
Local Open Scope nat_scope.

(** ** Strings *)

Module Str.

(** Code unit of a character. *)
Definition code (c : ascii) : nat := nat_of_ascii c.

Definition isUpper (c : ascii) : bool :=
  let n := code c in
  ((65 <=? n) && (n <=? 90)) || ((192 <=? n) && (n <=? 222) && negb (n =? 215)).

Definition lowerChar (c : ascii) : ascii :=
  if isUpper c then ascii_of_nat (code c + 32) else c.

(** [String.prototype.toLowerCase]. *)
Fixpoint toLowerCase (s : string) : string :=
  match s with
  | EmptyString => EmptyString
  | String c r => String (lowerChar c) (toLowerCase r)
  end.

(** White space and line terminators removed by [String.prototype.trim]. *)
Definition isSpace (c : ascii) : bool :=
  let n := code c in
  ((9 <=? n) && (n <=? 13)) || (n =? 32) || (n =? 160).

Fixpoint trimStart (s : string) : string :=
  match s with
  | EmptyString => EmptyString
  | String c r => if isSpace c then trimStart r else s
  end.

Fixpoint trimEnd (s : string) : string :=
  match s with
  | EmptyString => EmptyString
  | String c r =>
      match trimEnd r with
      | EmptyString => if isSpace c then EmptyString else String c EmptyString
      | r' => String c r'
      end
  end.

(** [String.prototype.trim]. *)
Definition trim (s : string) : string := trimEnd (trimStart s).

Fixpoint startsWith (p s : string) : bool :=
  match p, s with
  | EmptyString, _ => true
  | String a p', String b s' => if Ascii.eqb a b then startsWith p' s' else false
  | String _ _, EmptyString => false
  end.

(** [hay.includes(needle)]. *)
Fixpoint includes (hay needle : string) : bool :=
  startsWith needle hay ||
  match hay with
  | EmptyString => false
  | String _ r => includes r needle
  end.

(** Truthiness of a string: only the empty string is falsy. *)
Definition truthy (s : string) : bool :=
  match s with EmptyString => false | _ => true end.

(** [a || b] on strings. *)
Definition orElse (a b : string) : string := if truthy a then a else b.

End Str.

(** ** Task model: [createIndeedSearchTasks] *)

Record SearchTask := mkTask {
  jobType : string;
  location : string;
  salaryMin : N;
  pageNumber : nat;
  isFirstPage : bool
}.

(** The [params] object; an absent property is [None] and takes the default
    of the destructuring pattern. *)
Record TaskParams := mkParams {
  p_location : option string;
  p_salaryMin : option N;
  p_maxPages : option nat;
  p_jobTypes : option (list string)
}.

Definition defaultJobTypes : list string :=
  [ "restaurant manager"; "executive chef"; "sous chef"; "kitchen manager";
    "culinary director"; "food service manager"; "private chef";
    "restaurant chef" ]%string.

(** [for (let page = 0; page < maxPages; page++) tasks.push({...})], with
    [remaining = maxPages - page]. *)
Fixpoint pushPages (jt loc : string) (sal : N) (remaining page : nat)
    (tasks : list SearchTask) : list SearchTask :=
  match remaining with
  | 0 => tasks
  | S r =>
      pushPages jt loc sal r (S page)
        (tasks ++ [mkTask jt loc sal page (page =? 0)])
  end.

Definition createIndeedSearchTasks (params : TaskParams) : list SearchTask :=
  let location := default "United States"%string (p_location params) in
  let salaryMin := default 55000%N (p_salaryMin params) in
  let maxPages := default 5 (p_maxPages params) in
  let jobTypes := default defaultJobTypes (p_jobTypes params) in
  fold_left (fun tasks jt => pushPages jt location salaryMin maxPages 0 tasks)
    jobTypes [].

(** The generator as the specification words it: outer loop over the search
    terms, inner loop over the page indices [0 .. n-1]. *)
Definition generateTasks (loc : string) (sal : N) (terms : list string) (n : nat)
    : list SearchTask :=
  flat_map (fun jt => map (fun p => mkTask jt loc sal p (p =? 0)) (seq 0 n)) terms.

(** ** Errors *)

(** Outcome of a call that may throw, or of a promise that may reject. *)
Inductive Result (A : Type) : Type :=
  | Ok (a : A)
  | Err (msg : string).
Arguments Ok {A} a.
Arguments Err {A} msg.

(** [promise.catch(h)], and a [try] whose handler cannot throw. *)
Definition catch {A : Type} (r : Result A) (h : string -> A) : A :=
  match r with
  | Ok a => a
  | Err msg => h msg
  end.

(** [try { body } catch (e) { handler e }] where the handler may itself
    return or throw. *)
Definition tryCatch {A : Type} (body : Result A) (handler : string -> Result A)
    : Result A :=
  match body with
  | Ok a => Ok a
  | Err msg => handler msg
  end.

(** Sequencing of calls that may throw: [x ← r; k] stops at the first
    error. *)
#[export] Instance result_bind : MBind Result :=
  fun A B k r =>
    match r with
    | Ok a => k a
    | Err msg => Err msg
    end.

(** ** Challenge resolver: [handleCloudflareChallenge] *)

Module Challenge.

(** What the function can observe of the page, [t] milliseconds after it
    was entered. A selector list [a, b, c] is held as the list of its
    members; [page.$] finds an element when one of them matches. *)
Record Page := mkPage {
  title : N -> Result string;
  url : N -> Result string;
  bodyText : N -> Result string;
  matches : N -> string -> bool;
  queryError : N -> option string
}.

(** [page.$(selectors)]: whether the handle is non-null. *)
Definition query (p : Page) (t : N) (selectors : list string) : Result bool :=
  match queryError p t with
  | Some msg => Err msg
  | None => Ok (existsb (matches p t) selectors)
  end.

(** [page.$(selectors).catch(() => null)]. *)
Definition queryOrNull (p : Page) (t : N) (selectors : list string) : bool :=
  catch (query p t selectors) (fun _ => false).

Definition cloudflareIndicators : list string :=
  [ "just a moment"; "checking your browser"; "please wait";
    "ddos protection"; "cloudflare"; "ray id"; "attention required";
    "verify you are human"; "security check"; "browser check";
    "challenge" ]%string.

(** [cloudflareIndicators.some(i => s.toLowerCase().includes(i))]. *)
Definition hasIndicator (s : string) : bool :=
  existsb (fun indicator => Str.includes (Str.toLowerCase s) indicator)
    cloudflareIndicators.

(** Attribute values are written with single quotes, which a selector
    treats as it does double quotes. *)
Definition resultsSelectors : list string :=
  [ "[data-jk]"; ".job_seen_beacon"; ".jobsearch-SerpJobCard" ]%string.
Definition pollSelectors : list string :=
  [ "[data-jk]"; ".job_seen_beacon"; ".jobsearch-SerpJobCard";
    "#searchform" ]%string.
Definition recheckSelectors : list string :=
  [ "[data-jk]"; ".job_seen_beacon"; "#searchform" ]%string.
Definition captchaSelectors : list string :=
  [ "iframe[src*='captcha']"; "iframe[src*='challenge']" ]%string.

Definition maxAttempts : nat := 12.

(** The [return] statement through which the function leaves. *)
Inductive Exit :=
  | AlreadyOnResults   (* return true: results page, no indicator *)
  | NoChallenge        (* return true: no Cloudflare challenge detected *)
  | UrlChanged         (* return true: strategy 1 *)
  | ResultsDetected    (* return true: strategy 2 *)
  | TitleChanged       (* return true: strategy 3 *)
  | Stabilized         (* return true: after a frame detachment *)
  | TimedOut           (* return false: not resolved within timeout *)
  | HandlerError.      (* return false: outer catch *)

Definition returned (e : Exit) : bool :=
  match e with
  | TimedOut | HandlerError => false
  | _ => true
  end.

(** An exit together with the number of poll rounds started ([attempts])
    and the time at which the function returns. *)
Record Verdict := mkVerdict {
  exit : Exit;
  rounds : nat;
  finishedAt : N
}.

(** What the [try] block of one poll round decides. *)
Inductive Round :=
  | RoundResolved (e : Exit)
  | RoundCaptcha
  | RoundStillActive (currentUrl : string).

Definition roundChecks (p : Page) (now : N) (lastUrl : string) : Result Round :=
  currentUrl ← url p now;
  currentTitle ← title p now;
  if negb (String.eqb currentUrl lastUrl)
     && negb (Str.includes currentUrl "challenge")
  then Ok (RoundResolved UrlChanged)
  else if queryOrNull p now pollSelectors
  then Ok (RoundResolved ResultsDetected)
  else if negb (hasIndicator currentTitle)
          && (Str.includes currentTitle "Indeed"
              || Str.includes currentTitle "jobs")
  then Ok (RoundResolved TitleChanged)
  else if queryOrNull p now captchaSelectors
  then Ok RoundCaptcha
  else Ok (RoundStillActive currentUrl).

(** [while (attempts < maxAttempts) { ... }], with
    [remaining = maxAttempts - attempts]. *)
Fixpoint pollLoop (p : Page) (remaining attempts : nat) (now : N)
    (lastUrl : string) : Verdict :=
  match remaining with
  | 0 => mkVerdict TimedOut attempts now
  | S remaining' =>
      let now := (now + 5000)%N in
      let attempts := S attempts in
      match roundChecks p now lastUrl with
      | Ok (RoundResolved e) => mkVerdict e attempts (now + 2000)%N
      | Ok RoundCaptcha =>
          pollLoop p remaining' attempts (now + 10000)%N lastUrl
      | Ok (RoundStillActive currentUrl) =>
          pollLoop p remaining' attempts now currentUrl
      | Err msg =>
          if Str.includes msg "detached" || Str.includes msg "destroyed"
          then
            let now := (now + 3000)%N in
            match title p now with
            | Ok newTitle =>
                if queryOrNull p now recheckSelectors
                   || negb (hasIndicator newTitle)
                then mkVerdict Stabilized attempts now
                else pollLoop p remaining' attempts now lastUrl
            | Err _ => pollLoop p remaining' attempts now lastUrl
            end
          else pollLoop p remaining' attempts now lastUrl
      end
  end.

Arguments pollLoop : simpl never.
Arguments hasIndicator : simpl never.

(** The body of the outer [try]. *)
Definition detectAndPoll (p : Page) : Result Verdict :=
  let initialTitle := catch (title p 0%N) (fun _ => EmptyString) in
  initialUrl ← url p 0%N;
  let isCloudflareChallenge := hasIndicator initialTitle in
  let bodyText := catch (bodyText p 0%N) (fun _ => EmptyString) in
  let hasCloudflareContent := hasIndicator bodyText in
  if negb isCloudflareChallenge && negb hasCloudflareContent
     && queryOrNull p 0%N resultsSelectors
  then Ok (mkVerdict AlreadyOnResults 0 0%N)
  else if isCloudflareChallenge || hasCloudflareContent
  then Ok (pollLoop p maxAttempts 0 0%N initialUrl)
  else Ok (mkVerdict NoChallenge 0 0%N).

(** The trace of a call: the outer [catch] turns any error into
    [return false]. *)
Definition trace (p : Page) : Verdict :=
  catch (detectAndPoll p) (fun _ => mkVerdict HandlerError 0 0%N).

(** The function as its caller sees it: [Ok b] when the promise resolves
    to [b], [Err msg] when it rejects. *)
Definition handleCloudflareChallenge (p : Page) : Result bool :=
  tryCatch (v ← detectAndPoll p; Ok (returned (exit v)))
           (fun _ => Ok false).


(** *** Sample views *)

Definition searchUrl : string := "https://www.indeed.com/jobs?q=chef".

(** An interstitial that never clears. *)
Definition stuckPage : Page :=
  mkPage (fun _ => Ok "Checking your browser before accessing indeed.com"%string)
         (fun _ => Ok searchUrl)
         (fun _ => Ok "Please stand by"%string)
         (fun _ _ => false)
         (fun _ => None).

(** A results page with job cards and nothing that looks like a
    challenge. *)
Definition resultsPage : Page :=
  mkPage (fun _ => Ok "Chef Jobs, Employment | Indeed"%string)
         (fun _ => Ok searchUrl)
         (fun _ => Ok "Executive Chef - Bistro 21 - Boston, MA"%string)
         (fun _ sel => String.eqb sel "[data-jk]")
         (fun _ => None).

(** A results page with job cards whose title still carries a stale
    challenge banner. *)
Definition stalePage : Page :=
  mkPage (fun _ => Ok "Just a moment..."%string)
         (fun _ => Ok searchUrl)
         (fun _ => Ok "Executive Chef - Bistro 21 - Boston, MA"%string)
         (fun _ sel => String.eqb sel "[data-jk]")
         (fun _ => None).



Definition detachedError : string :=
  "Execution context was destroyed, most likely because of a navigation.".

(** A challenge that navigates away during the first round: the title
    cannot be read while the frame is replaced, and the results are there
    three seconds later. *)
Definition detachingPage : Page :=
  mkPage (fun t => if (t =? 0)%N then Ok "Just a moment..."%string
                   else if (t =? 5000)%N then Err detachedError
                   else Ok "Chef Jobs, Employment | Indeed"%string)
         (fun _ => Ok searchUrl)
         (fun _ => Ok EmptyString)
         (fun t sel => (8000 <=? t)%N && String.eqb sel "[data-jk]")
         (fun _ => None).

End Challenge.

(** ** Extraction engine: [extractIndeedJobData] *)

Module Extraction.

(** An element found by [querySelector]. *)
Record Node := mkNode {
  textContent : string;
  getAttribute : string -> option string
}.

(** A job card as the function evaluated in the page sees it.
    [querySelector] answers for the card element; in a browser it throws a
    [SyntaxError] on a selector that does not parse, the empty selector
    among them. [disposed] is the error of [page.evaluate] itself when the
    element handle is no longer usable, [today] is what
    [new Date().toISOString()] gives. *)
Record Card := mkCard {
  querySelector : string -> Result (option Node);
  outerHTML : string;
  disposed : option string;
  today : string
}.

Record JobData := mkJobData {
  title : string;
  company : string;
  location : string;
  salary : string;
  description : string;
  jobId : string;
  jobLink : string;
  postedDate : string;
  jobType : string;
  source : string;
  scrapedAt : string;
  elementHTML : string
}.

Definition getText (card : Card) (selector : string) : Result string :=
  el ← querySelector card selector;
  Ok (match el with
      | Some n => Str.trim (textContent n)
      | None => EmptyString
      end).

(** [null] is [None]. *)
Definition getAttr (card : Card) (selector attr : string)
    : Result (option string) :=
  el ← querySelector card selector;
  Ok (match el with
      | Some n => getAttribute n attr
      | None => Some EmptyString
      end).

Definition truthyAttr (v : option string) : bool :=
  match v with
  | Some s => Str.truthy s
  | None => false
  end.

(** [a || b]: [b] is evaluated only when [a] is falsy. *)
Definition orText (a b : Result string) : Result string :=
  x ← a; if Str.truthy x then Ok x else b.

Definition orAttr (a b : Result (option string)) : Result (option string) :=
  x ← a; if truthyAttr x then Ok x else b.

Definition titleSelectors : list string :=
  [ "h2 a span[title]"; "[data-testid='job-title'] a span";
    ".jobTitle a span"; "h2 span[title]"; ".jobTitle span";
    "a[data-jk] span[title]"; ".jobTitle-color-purple span" ]%string.

Definition companySelectors : list string :=
  [ "[data-testid='company-name']"; ".companyName";
    "span[data-testid='company-name']"; ".company";
    "a[data-testid='company-name']"; ".companyName a" ]%string.

Definition locationSelectors : list string :=
  [ "[data-testid='job-location']"; ".companyLocation";
    "div[data-testid='job-location']"; ".location";
    ".locationsContainer" ]%string.

Definition salarySelectors : list string :=
  [ ".salary-snippet"; "[data-testid='attribute_snippet_testid']";
    ".estimated-salary"; ".salaryText"; ".salary" ]%string.

Definition descriptionSelectors : list string :=
  [ ".job-snippet"; "[data-testid='job-snippet']"; ".summary";
    ".jobCardShelfContainer .summary" ]%string.

(** [for (const selector of selectors) { x = getText(selector); if (x) break; }]
    started with [x = current]. *)
Fixpoint firstText (card : Card) (selectors : list string) (current : string)
    : Result string :=
  match selectors with
  | [] => Ok current
  | selector :: rest =>
      x ← getText card selector;
      if Str.truthy x then Ok x else firstText card rest x
  end.

(** The function run in the page. *)
Definition inPage (card : Card) : Result JobData :=
  title ← firstText card titleSelectors EmptyString;
  company ← firstText card companySelectors EmptyString;
  location ← firstText card locationSelectors EmptyString;
  salary ← firstText card salarySelectors EmptyString;
  description ← firstText card descriptionSelectors EmptyString;
  jobId ← orAttr (getAttr card EmptyString "data-jk")
                 (getAttr card "[data-jk]" "data-jk");
  jobLink ← orAttr (getAttr card "h2 a" "href")
             (orAttr (getAttr card "[data-testid='job-title'] a" "href")
               (orAttr (getAttr card ".jobTitle a" "href")
                       (getAttr card "a[data-jk]" "href")));
  postedDate ← orText (getText card ".date")
                      (getText card "[data-testid='myJobsStateDate']");
  jobType ← orText (getText card ".jobMetadata")
                   (getText card ".jobsearch-JobMetadataHeader");
  Ok {| title := Str.orElse title "No title found";
        company := Str.orElse company "No company found";
        location := Str.orElse location "No location found";
        salary := Str.orElse salary EmptyString;
        description := Str.orElse description EmptyString;
        jobId := if truthyAttr jobId then default EmptyString jobId
                 else EmptyString;
        jobLink := if truthyAttr jobLink
                   then String.append "https://www.indeed.com"
                          (default EmptyString jobLink)
                   else EmptyString;
        postedDate := Str.orElse postedDate EmptyString;
        jobType := Str.orElse jobType EmptyString;
        source := "Indeed Direct";
        scrapedAt := today card;
        elementHTML := String.substring 0 200 (outerHTML card) |}.

(** [page.evaluate(fn, jobElement)]. *)
Definition evaluate (card : Card) : Result JobData :=
  match disposed card with
  | Some msg => Err msg
  | None => inPage card
  end.

(** [null] is [None]. *)
Definition extractIndeedJobData (card : Card) : option JobData :=
  catch (jobData ← evaluate card; Ok (Some jobData)) (fun _ => None).

(** *** Sample cards *)

Fixpoint textFor (entries : list (string * string)) (selector : string)
    : option string :=
  match entries with
  | [] => None
  | (sel, text) :: rest =>
      if String.eqb sel selector then Some text else textFor rest selector
  end.

(** A card given by the text of the elements its selectors find; no
    element carries an attribute, and [querySelector] never throws. *)
Definition cardOf (entries : list (string * string)) : Card :=
  mkCard (fun selector =>
            Ok (option_map (fun text => mkNode text (fun _ => None))
                  (textFor entries selector)))
         "<div class='job_seen_beacon'></div>" None
         "2025-01-01T00:00:00.000Z".

Definition emptySelectorError : string :=
  "SyntaxError: Failed to execute 'querySelector' on 'Element': The provided selector is empty.".

(** The same card in a browser, where the empty selector is rejected. *)
Definition browserCardOf (entries : list (string * string)) : Card :=
  mkCard (fun selector =>
            match selector with
            | EmptyString => Err emptySelectorError
            | _ => querySelector (cardOf entries) selector
            end)
         "<div class='job_seen_beacon'></div>" None
         "2025-01-01T00:00:00.000Z".

(** Title, company and location, no salary. *)
Definition chefEntries : list (string * string) :=
  [ ("h2 a span[title]", "Executive Chef");
    ("[data-testid='company-name']", "  Bistro 21 ");
    ("[data-testid='job-location']", "Boston, MA") ]%string.

(** Title only. *)
Definition anonymousEntries : list (string * string) :=
  [ (".jobTitle span", "Sous Chef") ]%string.

(** Title and company of a staffing agency, no salary. *)
Definition agencyEntries : list (string * string) :=
  [ ("h2 a span[title]", "Line Cook");
    (".companyName", "Acme Staffing") ]%string.

(** A card whose title element reads as the placeholder does. *)
Definition placeholderEntries : list (string * string) :=
  [ ("h2 a span[title]", "No title found");
    (".companyName", "Bistro 21") ]%string.

End Extraction.

(** ** Crawl orchestrator: [scrapeIndeedJobs] *)

Module Crawler.

(** *** [performIndeedSearch] *)

(** What the search interaction meets on the landing page. [fillWhat] and
    [fillWhere] are the click-and-type on each input, [submit] the click on
    the search button followed by [waitForNavigation]. *)
Record SearchForm := mkSearchForm {
  goto : Result unit;
  whatInput : Result bool;
  whereInput : Result bool;
  fillWhat : Result unit;
  fillWhere : Result unit;
  searchButton : Result bool;
  submit : Result unit;
  landingTitle : Result string
}.

Definition performIndeedSearch (form : SearchForm) : bool :=
  catch
    (_ ← goto form;
     what ← whatInput form;
     where_ ← whereInput form;
     if negb what || negb where_ then Ok false
     else
       _ ← fillWhat form;
       _ ← fillWhere form;
       button ← searchButton form;
       if negb button then Ok false
       else
         _ ← submit form;
         _ ← landingTitle form;
         Ok true)
    (fun _ => false).

(** *** The page handed to the request handler *)

(** [setup] stands for the stealth preparation ([evaluateOnNewDocument],
    [setUserAgent], [setExtraHTTPHeaders]); [countText] for the text of the
    results-count element ([None] when there is none); [nextControl] for
    [page.$] on one next-page selector; [followNext] for the click on the
    control and the navigation wait; [cardsFor] for [page.$$]. *)
Record Page := mkPage {
  setup : Result unit;
  searchForm : SearchForm;
  countText : Result (option string);
  nextControl : string -> Result bool;
  followNext : Result unit;
  challenge : Challenge.Page;
  close : Result unit;
  cardsFor : string -> Result (list Extraction.Card);
  debugTitle : Result string
}.

Inductive UserData :=
  | Warmup
  | Search (task : SearchTask).

Record Request := mkRequest {
  userData : UserData;
  retryCount : nat;
  url : string
}.

Inductive Action :=
  | ClickNext
  | ClosePage.

(** The variables the handler closes over, and the log of what it did to
    the page. *)
Record State := mkState {
  processedUrls : nat;
  failedUrls : nat;
  allJobs : list Extraction.JobData;
  actions : list Action
}.

Definition countProcessed (st : State) : State :=
  mkState (S (processedUrls st)) (failedUrls st) (allJobs st) (actions st).
Definition countFailed (st : State) : State :=
  mkState (processedUrls st) (S (failedUrls st)) (allJobs st) (actions st).
Definition pushJobs (jobs : list Extraction.JobData) (st : State) : State :=
  mkState (processedUrls st) (failedUrls st) (allJobs st ++ jobs) (actions st).
Definition record (a : Action) (st : State) : State :=
  mkState (processedUrls st) (failedUrls st) (allJobs st) (actions st ++ [a]).

(** The [return] through which the handler leaves ([ErrorCaught] for the
    handler's own [catch]). *)
Inductive HandlerExit :=
  | WarmedUp
  | SearchFailed
  | NotEnoughResults
  | NoMorePages
  | NavigationError
  | MaxRetriesExceeded
  | NoJobElements
  | Extracted
  | ErrorCaught (msg : string).

(** *** Results count *)

Definition isDigit (c : ascii) : bool :=
  (48 <=? Str.code c) && (Str.code c <=? 57).

(** Value of the digits at the head of [s], after the digits read so
    far. *)
Fixpoint leadingNumber (s : string) (acc : N) : N :=
  match s with
  | String c r =>
      if isDigit c
      then leadingNumber r (acc * 10 + N.of_nat (Str.code c - 48))%N
      else acc
  | EmptyString => acc
  end.

(** The double nearest to the integer [n]: [n] itself below 2^53, and
    beyond that [n] rounded to 53 significant bits, a tie going to the even
    significand. The infinity that stands for the integers from about
    2^1024 on is not represented: the value stays finite, which reads the
    same where it is compared with the finite [expectedMinResults]. *)
Definition toDouble (n : N) : N :=
  if (n <? 9007199254740992)%N then n
  else
    let e := (N.log2 n - 52)%N in
    let q := N.shiftr n e in
    let r := (n - N.shiftl q e)%N in
    let half := N.shiftl 1 (e - 1) in
    let q' := if (half <? r)%N || ((r =? half)%N && N.odd q)
              then (q + 1)%N else q in
    N.shiftl q' e.

(** [parseInt] on a text that starts with a digit: the number its leading
    digits write, as a double. (For more than 20 digits the language lets
    an engine approximate; the rounding here is the exact one, which is
    what V8 does.) *)
Definition parseInt (s : string) : N := toDouble (leadingNumber s 0%N).

(** [text.match(/(\d+)/)] followed by [parseInt(match[1])]: the match is
    the first run of digits, and [parseInt] stops where the run ends. *)
Fixpoint firstNumber (s : string) : option N :=
  match s with
  | String c r => if isDigit c then Some (parseInt s) else firstNumber r
  | EmptyString => None
  end.

Definition totalResults (count : option string) : N :=
  match count with
  | Some text => default 0%N (firstNumber text)
  | None => 0%N
  end.

Definition expectedMinResults (task : SearchTask) : N :=
  (N.of_nat (pageNumber task + 1) * 10)%N.

(** *** Pagination *)

Definition nextSelectors : list string :=
  [ "a[aria-label='Next Page']"; "a[aria-label='Next']";
    ".np:last-child a"; "nav[role='navigation'] a:last-child" ]%string.

(** [await page.$(a) || await page.$(b) || ...]. *)
Fixpoint findNext (page : Page) (selectors : list string) : Result bool :=
  match selectors with
  | [] => Ok false
  | selector :: rest =>
      found ← nextControl page selector;
      if (found : bool) then Ok true else findNext page rest
  end.

(** Outcome of the interaction step: [Some e] when the handler returns
    there, [None] when it goes on to the challenge check. *)
Definition interact (task : SearchTask) (page : Page) (st : State)
    : Result (option HandlerExit) * State :=
  if isFirstPage task then
    if performIndeedSearch (searchForm page) then (Ok None, st)
    else (Ok (Some SearchFailed), countFailed st)
  else
    match countText page with
    | Err msg => (Err msg, st)
    | Ok count =>
        if (totalResults count <? expectedMinResults task)%N
        then (Ok (Some NotEnoughResults), st)
        else
          match findNext page nextSelectors with
          | Ok true =>
              match followNext page with
              | Ok _ => (Ok None, record ClickNext st)
              | Err _ =>
                  (Ok (Some NavigationError), countFailed (record ClickNext st))
              end
          | Ok false => (Ok (Some NoMorePages), st)
          | Err _ => (Ok (Some NavigationError), countFailed st)
          end
    end.

(** *** Extraction of a results page *)

Definition jobSelectors : list string :=
  [ "[data-jk]"; ".job_seen_beacon"; ".slider_container .slider_item";
    ".jobsearch-SerpJobCard"; ".result" ]%string.

(** The first selector with at least one element; a failing [page.$$] is
    skipped. *)
Fixpoint findJobElements (page : Page) (selectors : list string)
    : list Extraction.Card :=
  match selectors with
  | [] => []
  | selector :: rest =>
      match cardsFor page selector with
      | Ok (card :: cards) => card :: cards
      | _ => findJobElements page rest
      end
  end.

Section Filters.

(** The two company filters are imported from [bing_search_api.js],
    which is not among the sources; they are parameters here.
    [shouldExcludeCompany] stands for the [isExcluded] field of the
    object the function returns. *)
Variable shouldExcludeCompany : string -> bool.
Variable isSalaryCompanyName : string -> bool.

(** One turn of the loop over the job elements: the record pushed on
    [pageJobs], if any. *)
Definition acceptCard (card : Extraction.Card) : option Extraction.JobData :=
  match Extraction.extractIndeedJobData card with
  | Some jobData =>
      if negb (String.eqb (Extraction.title jobData) "No title found")
         && negb (String.eqb (Extraction.company jobData) "No company found")
      then
        if shouldExcludeCompany (Extraction.company jobData) then None
        else if isSalaryCompanyName (Extraction.company jobData) then None
        else Some jobData
      else None
  | None => None
  end.

(** [for (let i = 0; i < jobElements.length; i++) { ... }] *)
Fixpoint extractCards (cards : list Extraction.Card)
    (pageJobs : list Extraction.JobData) : list Extraction.JobData :=
  match cards with
  | [] => pageJobs
  | card :: rest =>
      match acceptCard card with
      | Some jobData => extractCards rest (pageJobs ++ [jobData])
      | None => extractCards rest pageJobs
      end
  end.

Definition retryMessage : string :=
  "Cloudflare challenge failed - retrying with new session".

(** The body of the handler's [try], for a search task. *)
Definition handlerBody (request : Request) (task : SearchTask) (page : Page)
    (st : State) : Result HandlerExit * State :=
  match setup page with
  | Err msg => (Err msg, st)
  | Ok _ =>
      match interact task page st with
      | (Err msg, st) => (Err msg, st)
      | (Ok (Some e), st) => (Ok e, st)
      | (Ok None, st) =>
          match Challenge.handleCloudflareChallenge (challenge page) with
          | Err msg => (Err msg, st)
          | Ok false =>
              if retryCount request <? 2
              then
                (* page.close() in its own try, then throw *)
                (Err retryMessage, record ClosePage st)
              else (Ok MaxRetriesExceeded, countFailed st)
          | Ok true =>
              match findJobElements page jobSelectors with
              | [] =>
                  match debugTitle page with
                  | Err msg => (Err msg, st)
                  | Ok _ => (Ok NoJobElements, countFailed st)
                  end
              | jobElements =>
                  (Ok Extracted, pushJobs (extractCards jobElements []) st)
              end
          end
      end
  end.

(** [requestHandler({ page, request })]: [Ok e] when the promise
    resolves, [Err msg] when it rejects. *)
Definition requestHandler (request : Request) (page : Page) (st : State)
    : Result HandlerExit * State :=
  let st := countProcessed st in
  match userData request with
  | Warmup => (Ok WarmedUp, st)
  | Search task =>
      match handlerBody request task page st with
      | (Ok e, st) => (Ok e, st)
      | (Err msg, st) => (Ok (ErrorCaught msg), countFailed st)
      end
  end.

(** *** The crawler around the handler *)

Definition maxRequestRetries : nat := 2.

(** What became of one request. [handlerRuns] counts the calls of the
    handler; every call after the first is a retry on a new page and
    session. [failedRequest] tells whether [failedRequestHandler] ran. *)
Record Summary := mkSummary {
  lastExit : option HandlerExit;
  handlerRuns : nat;
  failedRequest : bool;
  final : State
}.

(** The crawler's treatment of one request, as the crawling library
    documents it for [maxRequestRetries] and [failedRequestHandler]: the
    handler runs on a fresh page; a request whose handler resolves is
    done; a request whose handler rejects is run again with [retryCount]
    one higher, until [maxRequestRetries] retries are spent, after which
    [failedRequestHandler] runs. [pages k] is the page of the run with
    [retryCount = k]. *)
Fixpoint runRequest (budget : nat) (pages : nat -> Page) (request : Request)
    (runs : nat) (st : State) : Summary :=
  match requestHandler request (pages (retryCount request)) st with
  | (Ok e, st) => mkSummary (Some e) (S runs) false st
  | (Err msg, st) =>
      match budget with
      | S budget' =>
          runRequest budget' pages
            (mkRequest (userData request) (S (retryCount request))
               (url request))
            (S runs) st
      | 0 => mkSummary None (S runs) true (countFailed st)
      end
  end.

Definition crawlRequest (pages : nat -> Page) (task : SearchTask)
    (st : State) : Summary :=
  runRequest maxRequestRetries pages
    (mkRequest (Search task) 0 "https://www.indeed.com/search-task-0")
    0 st.

End Filters.

(** *** Sample pages and filters *)

Definition excludeAgencies (company : string) : bool :=
  Str.includes (Str.toLowerCase company) "staffing".
Definition neverSalary (company : string) : bool := false.
Definition keepAll (company : string) : bool := false.

Definition formOk : SearchForm :=
  mkSearchForm (Ok tt) (Ok true) (Ok true) (Ok tt) (Ok tt) (Ok true) (Ok tt)
    (Ok "Chef Jobs, Employment | Indeed"%string).

(** A page whose search works and whose challenge never clears. *)
Definition blockedPage : Page :=
  mkPage (Ok tt) formOk (Ok None) (fun _ => Ok false) (Ok tt)
    Challenge.stuckPage (Ok tt) (fun _ => Ok [])
    (Ok "Checking your browser before accessing indeed.com"%string).

(** A page whose search works, that meets no challenge and shows one job
    card. *)
Definition clearPage : Page :=
  mkPage (Ok tt) formOk (Ok None) (fun _ => Ok false) (Ok tt)
    Challenge.resultsPage (Ok tt)
    (fun selector =>
       if String.eqb selector "[data-jk]"
       then Ok [Extraction.cardOf Extraction.chefEntries] else Ok [])
    (Ok "Chef Jobs, Employment | Indeed"%string).

(** The challenge blocks the first two pages a task is given and not the
    third. *)
Definition twoTimeouts (attempt : nat) : Page :=
  if attempt <? 2 then blockedPage else clearPage.

Definition chefTask : SearchTask :=
  mkTask "executive chef" "United States" 55000%N 0 true.

(** A results page that declares [count] as its results count and has a
    next-page control. *)
Definition listingPage (count : string) : Page :=
  mkPage (Ok tt) formOk (Ok (Some count)) (fun _ => Ok true) (Ok tt)
    Challenge.resultsPage (Ok tt)
    (fun selector =>
       if String.eqb selector "[data-jk]"
       then Ok [Extraction.cardOf Extraction.chefEntries] else Ok [])
    (Ok "Chef Jobs, Employment | Indeed"%string).

Definition thirdPageTask : SearchTask :=
  mkTask "executive chef" "United States" 55000%N 2 false.

Definition start : State := mkState 0 0 [] [].

End Crawler.

(** ** Session pool

    The pool itself belongs to the crawling library; the sources configure
    it and nothing more. Its sessions and operations are modelled from
    section 4.2 of the specification. *)

Module SessionPool.

(** [sessionPoolOptions] of the crawler: [maxPoolSize],
    [sessionOptions.maxUsageCount], [sessionOptions.maxErrorScore]. *)
Definition maxPoolSize : nat := 10.
Definition maxUsageCount : nat := 5.
Definition maxErrorScore : nat := 3.

(** Modelled from the spec: the session, not among the sources. "Session:
    identity/proxy reference, usageCount, errorScore"; [inUse] tells whether
    the session is handed out. *)
Record Session := mkSession {
  usageCount : nat;
  errorScore : nat;
  inUse : bool
}.

(** Modelled from the spec: the pool, not among the sources. The active
    set is keyed by session id; [nextId] is the id the next new session gets
    and [retired] the ids of the sessions retired so far. *)
Record Pool := mkPool {
  active : gmap nat Session;
  nextId : nat;
  retired : gset nat
}.

Inductive Outcome :=
  | success
  | error.

Definition empty : Pool := mkPool ∅ 0 ∅.

Definition idle (p : Pool) : list nat :=
  (filter (fun entry => inUse entry.2 = false) (map_to_list (active p))).*1.

(** Hands out the active session [id]. *)
Definition checkout (id : nat) (s : Session) (p : Pool) : Pool :=
  mkPool (<[id := mkSession (usageCount s) (errorScore s) true]> (active p))
         (nextId p) (retired p).

(** Adds a new session, handed out at once. *)
Definition create (p : Pool) : Pool :=
  mkPool (<[nextId p := mkSession 0 0 true]> (active p))
         (S (nextId p)) (retired p).

(** Modelled from the spec: the session pool, which belongs to the
    crawling library and is not among the sources; the sources only
    configure it. "[acquire() -> Session]: returns an active session,
    creating one if the pool has free capacity and none is idle; fails
    with [PoolExhausted] if at capacity and all sessions are mid-use."
    [None] is [PoolExhausted]. *)
Definition acquire (p : Pool) : option (nat * Pool) :=
  match idle p with
  | id :: _ =>
      match active p !! id with
      | Some s => Some (id, checkout id s p)
      | None => None
      end
  | [] =>
      if decide (size (active p) < maxPoolSize)
      then Some (nextId p, create p)
      else None
  end.

Definition used (o : Outcome) (s : Session) : Session :=
  mkSession (S (usageCount s))
            (match o with
             | error => S (errorScore s)
             | success => errorScore s
             end)
            false.

Definition spent (s : Session) : bool :=
  (maxUsageCount <=? usageCount s) || (maxErrorScore <=? errorScore s).

(** Modelled from the spec: the session pool's release, not among the
    sources. "[release(session, outcome)]: increments usageCount always;
    increments errorScore only on [error]. After incrementing, if
    usageCount >= usageCap or errorScore >= errorCap, retire the session
    (remove from active set)." *)
Definition release (id : nat) (o : Outcome) (p : Pool) : Pool :=
  match active p !! id with
  | Some s =>
      if spent (used o s)
      then mkPool (delete id (active p)) (nextId p) ({[id]} ∪ retired p)
      else mkPool (<[id := used o s]> (active p)) (nextId p) (retired p)
  | None => p
  end.

(** Modelled from the spec: one operation on the pool. An acquire hands
    out an idle session, any of them, or a new one when none is idle and
    the pool has room; a release applies to a session that is handed
    out. *)
Inductive step : Pool -> Pool -> Prop :=
  | step_acquire_idle p id s :
      active p !! id = Some s -> inUse s = false ->
      step p (checkout id s p)
  | step_acquire_new p :
      idle p = [] -> size (active p) < maxPoolSize ->
      step p (create p)
  | step_release p id s o :
      active p !! id = Some s -> inUse s = true ->
      step p (release id o p).

Inductive reachable : Pool -> Prop :=
  | reachable_empty : reachable empty
  | reachable_step p p' : reachable p -> step p p' -> reachable p'.

Inductive steps : Pool -> Pool -> Prop :=
  | steps_refl p : steps p p
  | steps_step p p' p'' : steps p p' -> step p' p'' -> steps p p''.

(** What holds of every pool the operations can produce. *)
Definition wellFormed (p : Pool) : Prop :=
  size (active p) <= maxPoolSize /\
  (forall id s, active p !! id = Some s ->
     usageCount s < maxUsageCount /\ errorScore s < maxErrorScore) /\
  (forall id s, active p !! id = Some s -> id < nextId p) /\
  (forall id, id ∈ retired p -> id < nextId p /\ active p !! id = None).

(** [n] rounds of acquiring a session and releasing it with [o]. *)
Fixpoint cycle (n : nat) (o : Outcome) (p : Pool) : Pool :=
  match n with
  | 0 => p
  | S n' =>
      match acquire p with
      | Some (id, p') => cycle n' o (release id o p')
      | None => p
      end
  end.

End SessionPool.

(** ** Aggregation helpers of [indeed_scraper_api.js] *)

Module Aggregation.

(** *** A matcher for patterns made of word boundaries, literal characters
    and greedy repetitions of a character class *)

Inductive Item :=
  | WordBoundary                                (* \b *)
  | Lit (c : ascii)                             (* a literal character *)
  | Rep (least : nat) (class : ascii -> bool).  (* [class]{least,} *)

Definition between (lo hi : nat) (c : ascii) : bool :=
  (lo <=? Str.code c) && (Str.code c <=? hi).
Definition isLetter (c : ascii) : bool := between 65 90 c || between 97 122 c.
Definition isAlnum (c : ascii) : bool := isLetter c || between 48 57 c.
Definition oneOf (set : string) (c : ascii) : bool :=
  existsb (Ascii.eqb c) (list_ascii_of_string set).

(** [\w]. *)
Definition isWord (c : ascii) : bool := isAlnum c || oneOf "_" c.

Definition wordBefore (prev : option ascii) : bool :=
  match prev with Some c => isWord c | None => false end.
Definition wordAfter (s : list ascii) : bool :=
  match s with c :: _ => isWord c | [] => false end.

(** [matchItems items prev s]: the text matched by [items] at the head of
    [s], [prev] being the character before it. A repetition takes as many
    characters as it can and gives them back one at a time when the rest
    of the pattern does not match. *)
Fixpoint matchItems (items : list Item) (prev : option ascii) (s : list ascii)
    {struct items} : option (list ascii) :=
  match items with
  | [] => Some []
  | WordBoundary :: rest =>
      if xorb (wordBefore prev) (wordAfter s) then matchItems rest prev s
      else None
  | Lit c :: rest =>
      match s with
      | c' :: s' =>
          if Ascii.eqb c c'
          then option_map (cons c') (matchItems rest (Some c') s')
          else None
      | [] => None
      end
  | Rep least class :: rest =>
      (fix rep (least : nat) (prev : option ascii) (s : list ascii)
           {struct s} : option (list ascii) :=
         let stop :=
           match least with
           | 0 => matchItems rest prev s
           | S _ => None
           end in
         match s with
         | c :: s' =>
             if class c
             then match rep (pred least) (Some c) s' with
                  | Some m => Some (c :: m)
                  | None => stop
                  end
             else stop
         | [] => stop
         end) least prev s
  end.

(** [text.match(regex)] for a global [regex]: the matches from left to
    right, each search starting where the previous match ended. [skip]
    characters are still part of the previous match. *)
Fixpoint scan (items : list Item) (skip : nat) (prev : option ascii)
    (s : list ascii) : list string :=
  match s with
  | [] => []
  | c :: s' =>
      match skip with
      | S skip' => scan items skip' (Some c) s'
      | 0 =>
          match matchItems items prev s with
          | Some (_ :: m) =>
              string_of_list_ascii (c :: m)
                :: scan items (length m) (Some c) s'
          | _ => scan items 0 (Some c) s'
          end
      end
  end.

Definition matchAll (items : list Item) (text : string) : list string :=
  scan items 0 None (list_ascii_of_string text).

(** *** [extractEmailsFromText] *)

(** [/\b[A-Za-z0-9._%+-]+@[A-Za-z0-9.-]+\.[A-Z|a-z]{2,}\b/g] *)
Definition emailRegex : list Item :=
  [ WordBoundary;
    Rep 1 (fun c => isAlnum c || oneOf "._%+-" c);
    Lit "@";
    Rep 1 (fun c => isAlnum c || oneOf ".-" c);
    Lit ".";
    Rep 2 (fun c => isLetter c || oneOf "|" c);
    WordBoundary ].

Inductive JsText :=
  | JsNull
  | JsUndefined
  | JsString (s : string).

Definition nonContactWords : list string :=
  [ "noreply"; "no-reply"; "donotreply"; "support"; "help" ]%string.

(** The predicate of the [filter]. *)
Definition isContact (email : string) : bool :=
  let lowerEmail := Str.toLowerCase email in
  negb (Str.includes lowerEmail "noreply")
  && negb (Str.includes lowerEmail "no-reply")
  && negb (Str.includes lowerEmail "donotreply")
  && negb (Str.includes lowerEmail "support")
  && negb (Str.includes lowerEmail "help").

(** A [Set] of strings, as the list of its members in insertion order. *)
Definition setAdd (set : list string) (x : string) : list string :=
  if decide (x ∈ set) then set else set ++ [x].

(** [[...new Set(values)]] *)
Definition newSet (values : list string) : list string :=
  fold_left setAdd values [].

Definition extractEmailsFromText (text : JsText) : list string :=
  match text with
  | JsString s =>
      if Str.truthy s
      then
        let emails := matchAll emailRegex s in
        let filteredEmails := List.filter isContact emails in
        newSet filteredEmails
      else []
  | _ => []
  end.

(** *** Duplicate suppression in [scrapeJobsWithIndeedScraper] *)

(** A normalized job; [None] is a missing ([null] or [undefined])
    property. *)
Record Job := mkJob {
  title : option string;
  company : option string;
  job_id : string;
  search_city : string
}.

(** [(v || 'unknown')] *)
Definition orUnknown (v : option string) : string :=
  match v with
  | Some s => Str.orElse s "unknown"
  | None => "unknown"%string
  end.

Definition jobKey (job : Job) : string :=
  let company := Str.trim (Str.toLowerCase (orUnknown (company job))) in
  let title := Str.trim (Str.toLowerCase (orUnknown (title job))) in
  String.append company (String.append "|" title).

Record Dedup := mkDedup {
  uniqueJobs : list Job;
  seenJobs : gset string;
  duplicateCount : nat
}.

(** One turn of [for (const job of allJobs)]. *)
Definition dedupStep (st : Dedup) (job : Job) : Dedup :=
  if decide (jobKey job ∈ seenJobs st)
  then mkDedup (uniqueJobs st) (seenJobs st) (S (duplicateCount st))
  else mkDedup (uniqueJobs st ++ [job]) ({[jobKey job]} ∪ seenJobs st)
               (duplicateCount st).

Definition removeDuplicates (allJobs : list Job) : Dedup :=
  fold_left dedupStep allJobs (mkDedup [] ∅ 0).

(** What [scrapeJobsWithIndeedScraper] returns once its collection loop
    has accumulated [allJobs]. *)
Definition scrapeJobsWithIndeedScraper (allJobs : list Job) : list Job :=
  uniqueJobs (removeDuplicates allJobs).

Definition keysOf (jobs : list Job) : list string := jobKey <$> jobs.

(** What a field gives to the key, written without [orUnknown]: the field
    trimmed and in lower case, and [unknown] for a field that is missing or
    empty. *)
Definition keyPart (v : option string) : string :=
  match v with
  | None => "unknown"
  | Some EmptyString => "unknown"
  | Some (String c r) => Str.toLowerCase (Str.trim (String c r))
  end.

(** The key as a reader would write it: trimmed first, then lower-cased. *)
Definition keyOf (v : option string) : string :=
  Str.toLowerCase (Str.trim (orUnknown v)).

(** Keeping the first job of each key, written without a set of seen
    keys. *)
Fixpoint firstOfEachKey (jobs : list Job) : list Job :=
  match jobs with
  | [] => []
  | job :: rest =>
      job :: filter (fun other => jobKey other ≠ jobKey job)
               (firstOfEachKey rest)
  end.

End Aggregation.

(** ** The whole run of [scrapeIndeedJobs] *)

Module Run.
Import Crawler.

Section Filters.

Variable shouldExcludeCompany : string -> bool.
Variable isSalaryCompanyName : string -> bool.

(** The requests the function adds to the crawler: the warm-up, then one per
    search task. *)
Definition requests (searchTasks : list SearchTask) : list Request :=
  mkRequest Warmup 0 "https://www.indeed.com"
  :: imap (fun index task =>
             mkRequest (Search task) 0
               (String.append "https://www.indeed.com/search-task-"
                  (pretty index)))
       searchTasks.

(** [crawler.run()] with [maxConcurrency] 1, the default: the requests are
    taken in the order they were added. Every request is taken to reach the
    handler, and no run of the handler to be cut short by the crawler's
    handler timeout. [pages i k] is the page of the request at position [i]
    of the queue for [retryCount = k]. *)
Fixpoint crawl (pages : nat -> nat -> Page) (index : nat) (queue : list Request)
    (st : State) : State :=
  match queue with
  | [] => st
  | request :: rest =>
      crawl pages (S index) rest
        (final (runRequest shouldExcludeCompany isSalaryCompanyName
                  maxRequestRetries (pages index) request 0 st))
  end.

(** The state the closure variables are in when the run ends. *)
Definition finish (pages : nat -> nat -> Page) (searchTasks : list SearchTask)
    : State :=
  crawl pages 0 (requests searchTasks) start.

Definition scrapeIndeedJobs (pages : nat -> nat -> Page)
    (searchTasks : list SearchTask) : list Extraction.JobData :=
  allJobs (finish pages searchTasks).

(** The number of search requests in a queue. *)
Definition isSearch (request : Request) : bool :=
  match userData request with
  | Warmup => false
  | Search _ => true
  end.

Definition searches (queue : list Request) : nat :=
  length (List.filter isSearch queue).

(** The gates a record passes before it is pushed on [pageJobs]. *)
Definition accepted (jobData : Extraction.JobData) : Prop :=
  Extraction.title jobData <> "No title found"%string /\
  Extraction.company jobData <> "No company found"%string /\
  shouldExcludeCompany (Extraction.company jobData) = false /\
  isSalaryCompanyName (Extraction.company jobData) = false.

End Filters.

End Run.

(** ** [handleIndeedPageLoad] *)

Module PageLoad.

(** What the function meets: [resultsVisible] is the wait for a job card,
    [popup] is [page.$] on a close button, [clickPopup] the click on it,
    [scroll] the scroll to mid-page. *)
Record Page := mkPage {
  resultsVisible : Result unit;
  popup : string -> Result bool;
  clickPopup : string -> Result unit;
  scroll : Result unit
}.

(** What the function does to the page: a click or a scroll it starts, a
    timed pause it reaches. *)
Inductive Action :=
  | Click (selector : string)
  | Scroll
  | Pause (ms : N).

Definition popupSelectors : list string :=
  [ "[data-testid='modal-close-button']"; ".pn-CloseButton";
    ".popover-x-button"; "[aria-label='close']"; ".icl-CloseButton" ]%string.

(** One turn of the loop over the close buttons, in its own [try]. *)
Definition dismiss (page : Page) (selector : string) : list Action :=
  match popup page selector with
  | Ok true =>
      match clickPopup page selector with
      | Ok _ => [Click selector; Pause 1000%N]
      | Err _ => [Click selector]
      end
  | _ => []
  end.

(** The function returns nothing and catches whatever is thrown; this is
    what it did on the way. *)
Definition handleIndeedPageLoad (page : Page) : list Action :=
  match resultsVisible page with
  | Err _ => []
  | Ok _ =>
      flat_map (dismiss page) popupSelectors
      ++ match scroll page with
         | Ok _ => [Scroll; Pause 2000%N]
         | Err _ => [Scroll]
         end
  end.

End PageLoad.

(** ** The collection loop of [scrapeJobsWithIndeedScraper] *)

Module Collection.
Import Aggregation.

Definition MAJOR_CITIES : list string :=
  [ "New York, NY"; "Boston, MA"; "Chicago, IL"; "Los Angeles, CA";
    "Dallas, TX"; "Atlanta, GA"; "Seattle, WA"; "Miami, FL"; "Denver, CO";
    "Phoenix, AZ"; "Philadelphia, PA"; "Houston, TX"; "Detroit, MI";
    "Minneapolis, MN"; "San Francisco, CA"; "Las Vegas, NV";
    "Portland, OR"; "Charlotte, NC"; "Nashville, TN"; "New Orleans, LA";
    "Kansas City, MO"; "Omaha, NE"; "Fargo, ND"; "Sioux Falls, SD";
    "Des Moines, IA"; "Indianapolis, IN"; "Columbus, OH"; "Milwaukee, WI";
    "Providence, RI"; "Hartford, CT"; "Manchester, NH"; "Portland, ME";
    "Wilmington, DE"; "Pittsburgh, PA"; "Buffalo, NY"; "Newark, NJ";
    "Louisville, KY"; "Birmingham, AL"; "Jackson, MS"; "Little Rock, AR";
    "Charleston, WV"; "Lexington, KY"; "Salt Lake City, UT";
    "Albuquerque, NM"; "Boise, ID"; "Billings, MT"; "Cheyenne, WY";
    "Anchorage, AK"; "Honolulu, HI"; "San Jose, CA"; "Sacramento, CA";
    "Spokane, WA"; "Eugene, OR"; "Tampa, FL"; "Orlando, FL"; "Raleigh, NC";
    "Columbia, SC"; "Richmond, VA"; "Virginia Beach, VA"; "Huntsville, AL";
    "Knoxville, TN"; "Chattanooga, TN"; "Austin, TX"; "San Antonio, TX";
    "El Paso, TX" ]%string.

Definition JOB_SEARCH_TERMS : list string := [ "restaurant"; "hotel" ]%string.

(** A job of an answer of the expected shape, as far as title, company and
    key go: each of the four properties is a string, or is missing ([None]
    for absent or [null]), and reading the rest of the job does not throw.
    Answers of any other shape, where one of these properties is a number
    or an object or where normalization throws, are those of [Wire] below,
    which embeds the answers modelled here by [Wire.typedApi]. *)
Record RawJob := mkRawJob {
  r_title : option string;
  r_companyName : option string;
  r_company : option string;
  r_jobKey : option string
}.

(** [v || fallback] *)
Definition orString (v : option string) (fallback : string) : string :=
  match v with
  | Some s => Str.orElse s fallback
  | None => fallback
  end.

(** [normalizeIndeedScraperJob], for the properties of the result that
    [Job] holds. *)
Definition normalizeIndeedScraperJob (job : RawJob) (searchTerm city : string)
    : Job :=
  mkJob (Some (orString (r_title job) "No title"))
        (Some (orString (r_companyName job)
                 (orString (r_company job) "Company not specified")))
        (orString (r_jobKey job) EmptyString)
        city.

(** The answer to one request: the status code and
    [data.returnvalue?.data], [None] when it is missing. *)
Record Response := mkResponse {
  status : nat;
  returned : option (list RawJob)
}.

(** [makeIndeedScraperRequest] for a request body with the given location,
    query and [fromDays]. *)
Definition Api : Type := string -> string -> Z -> Result Response.

(** The options of a call: [None] for a property that is left out, for
    which the default applies. [minSalary] is only printed. *)
Record Options := mkOptions {
  testMode : option bool;
  maxCities : option Z;
  searchTerms : option (list string);
  jobAgeDays : option Z
}.

Definition validJobAgeDays : list Z := [1; 3; 7; 14]%Z.

Definition validatedJobAgeDays (jobAgeDays : Z) : Z :=
  if existsb (Z.eqb jobAgeDays) validJobAgeDays then jobAgeDays else 7%Z.

(** [array.slice(0, end)] for an integer [end]. *)
Definition slice0 {A : Type} (end_ : Z) (array : list A) : list A :=
  let len := Z.of_nat (length array) in
  let k := if (end_ <? 0)%Z then Z.max (len + end_) 0 else Z.min end_ len in
  take (Z.to_nat k) array.

Inductive Event :=
  | Requested (city term : string) (fromDays : Z)
  | Waited (ms : N).

Record Progress := mkProgress {
  collected : list Job;
  events : list Event
}.

(** The body of the inner loop up to the rate-limiting wait: the request
    and what it adds to [allJobs]. *)
Definition search (api : Api) (fromDays : Z) (city term : string)
    (st : Progress) : Progress :=
  let st := mkProgress (collected st)
              (events st ++ [Requested city term fromDays]) in
  match api city term fromDays with
  | Ok result =>
      match returned result with
      | Some jobs =>
          if status result =? 201
          then mkProgress
                 (collected st
                  ++ map (fun job => normalizeIndeedScraperJob job term city) jobs)
                 (events st)
          else st
      | None => st
      end
  | Err _ => st
  end.

Definition wait (st : Progress) : Progress :=
  mkProgress (collected st) (events st ++ [Waited 3000%N]).

(** The loop over the search terms for one city; [lastCity] tells whether
    [cityIndex = citiesToSearch.length - 1]. *)
Fixpoint forTerms (api : Api) (fromDays : Z) (city : string) (lastCity : bool)
    (terms : list string) (st : Progress) : Progress :=
  match terms with
  | [] => st
  | term :: rest =>
      let st := search api fromDays city term st in
      let lastTerm := match rest with [] => true | _ => false end in
      forTerms api fromDays city lastCity rest
        (if negb lastTerm || negb lastCity then wait st else st)
  end.

Fixpoint forCities (api : Api) (fromDays : Z) (terms : list string)
    (cities : list string) (st : Progress) : Progress :=
  match cities with
  | [] => st
  | city :: rest =>
      let lastCity := match rest with [] => true | _ => false end in
      forCities api fromDays terms rest
        (forTerms api fromDays city lastCity terms st)
  end.

Definition citiesToSearch (options : Options) : list string :=
  let testMode := default false (testMode options) in
  let maxCities :=
    default (if testMode then 2%Z else Z.of_nat (length MAJOR_CITIES))
      (maxCities options) in
  slice0 maxCities MAJOR_CITIES.

Definition collect (api : Api) (options : Options) : Progress :=
  forCities api (validatedJobAgeDays (default 1%Z (jobAgeDays options)))
    (default JOB_SEARCH_TERMS (searchTerms options))
    (citiesToSearch options) (mkProgress [] []).

(** The whole function: what it returns and what it did on the way. *)
Definition scrapeJobsWithIndeedScraper (api : Api) (options : Options)
    : list Job * list Event :=
  let st := collect api options in
  (Aggregation.scrapeJobsWithIndeedScraper (collected st), events st).

(** The requests of a run, as a reader would list them: city by city, term
    by term, a wait between two requests. *)
Definition plan (fromDays : Z) (cities terms : list string) : list Event :=
  match flat_map (fun city => map (fun term => Requested city term fromDays) terms)
          cities with
  | [] => []
  | first :: others => first :: flat_map (fun e => [Waited 3000%N; e]) others
  end.

(** *** What a pattern matches, read as a grammar *)

Inductive Matches : list Item -> list ascii -> Prop :=
  | Matches_nil : Matches [] []
  | Matches_boundary items m :
      Matches items m -> Matches (WordBoundary :: items) m
  | Matches_lit c items m :
      Matches items m -> Matches (Lit c :: items) (c :: m)
  | Matches_rep least class run items m :
      least <= length run ->
      Forall (fun c => class c = true) run ->
      Matches items m ->
      Matches (Rep least class :: items) (run ++ m).

End Collection.

(** ** The collection run on answers of any shape *)

Module Wire.

(** A property of a job of the answer, as far as [||] and the string
    methods tell values apart. *)
Inductive Value :=
  | Absent                       (* undefined or null *)
  | Text (s : string)            (* a string *)
  | NotText (truthy : bool).     (* a number, a boolean, an object, an array *)

Definition truthy (v : Value) : bool :=
  match v with
  | Absent => false
  | Text s => Str.truthy s
  | NotText b => b
  end.

(** [v || fallback] *)
Definition or (v fallback : Value) : Value :=
  if truthy v then v else fallback.

(** A job of the answer. [throws] is the error that reading the job in
    [normalizeIndeedScraperJob] raises, if it raises one: a job that is
    [null], a description that is a number, on which [text.match] is no
    function, a short address that is one, on which [split] is none. *)
Record ApiJob := mkApiJob {
  a_title : Value;
  a_companyName : Value;
  a_company : Value;
  a_jobKey : Value;
  throws : option string
}.

(** A normalized job, for the properties the duplicate key is built
    from, with the key and the city of the search. *)
Record Job := mkJob {
  title : Value;
  company : Value;
  job_id : Value;
  search_city : string
}.

Definition normalizeIndeedScraperJob (job : ApiJob) (searchTerm city : string)
    : Result Job :=
  match throws job with
  | Some msg => Err msg
  | None =>
      Ok (mkJob (or (a_title job) (Text "No title"))
                (or (a_companyName job)
                    (or (a_company job) (Text "Company not specified")))
                (or (a_jobKey job) (Text EmptyString))
                city)
  end.

(** [jobs.map(job => normalizeIndeedScraperJob(job, searchTerm, city))]: an
    error in one job ends the whole [map]. *)
Fixpoint mapJobs (jobs : list ApiJob) (searchTerm city : string)
    : Result (list Job) :=
  match jobs with
  | [] => Ok []
  | job :: rest =>
      normalized ← normalizeIndeedScraperJob job searchTerm city;
      others ← mapJobs rest searchTerm city;
      Ok (normalized :: others)
  end.

(** [result.data.returnvalue?.data] where the status is 201: missing or
    falsy, an array of jobs, or something on which the handling throws (a
    body that parses to [null], a value that is no array). *)
Inductive Data :=
  | NoData
  | Jobs (jobs : list ApiJob)
  | NotJobs (msg : string).

Record Response := mkResponse {
  status : nat;
  data : Data
}.

Definition Api : Type := string -> string -> Z -> Result Response.

Record Progress := mkProgress {
  collected : list Job;
  events : list Collection.Event
}.

(** The body of the inner loop up to the rate-limiting wait. Everything is
    inside the [try]: a request that rejects, an answer that cannot be
    handled and a job that cannot be normalized add nothing. *)
Definition search (api : Api) (fromDays : Z) (city term : string)
    (st : Progress) : Progress :=
  let st := mkProgress (collected st)
              (events st ++ [Collection.Requested city term fromDays]) in
  let body : Result Progress :=
    result ← api city term fromDays;
    if status result =? 201
    then
      match data result with
      | Jobs jobs =>
          normalizedJobs ← mapJobs jobs term city;
          Ok (mkProgress (collected st ++ normalizedJobs) (events st))
      | NoData => Ok st
      | NotJobs msg => Err msg
      end
    else Ok st in
  catch body (fun _ => st).

Definition wait (st : Progress) : Progress :=
  mkProgress (collected st) (events st ++ [Collection.Waited 3000%N]).

Fixpoint forTerms (api : Api) (fromDays : Z) (city : string) (lastCity : bool)
    (terms : list string) (st : Progress) : Progress :=
  match terms with
  | [] => st
  | term :: rest =>
      let st := search api fromDays city term st in
      let lastTerm := match rest with [] => true | _ => false end in
      forTerms api fromDays city lastCity rest
        (if negb lastTerm || negb lastCity then wait st else st)
  end.

Fixpoint forCities (api : Api) (fromDays : Z) (terms : list string)
    (cities : list string) (st : Progress) : Progress :=
  match cities with
  | [] => st
  | city :: rest =>
      let lastCity := match rest with [] => true | _ => false end in
      forCities api fromDays terms rest
        (forTerms api fromDays city lastCity terms st)
  end.

Definition collect (api : Api) (options : Collection.Options) : Progress :=
  forCities api
    (Collection.validatedJobAgeDays
       (default 1%Z (Collection.jobAgeDays options)))
    (default Collection.JOB_SEARCH_TERMS (Collection.searchTerms options))
    (Collection.citiesToSearch options) (mkProgress [] []).

Definition notAFunction : string :=
  "TypeError: (intermediate value).toLowerCase is not a function".

(** [(v || 'unknown').toLowerCase().trim()]: only a string has the
    method. *)
Definition keyPart (v : Value) : Result string :=
  match or v (Text "unknown") with
  | Text s => Ok (Str.trim (Str.toLowerCase s))
  | _ => Err notAFunction
  end.

Definition jobKey (job : Job) : Result string :=
  company ← keyPart (company job);
  title ← keyPart (title job);
  Ok (String.append company (String.append "|" title)).

Record Dedup := mkDedup {
  uniqueJobs : list Job;
  seenJobs : gset string;
  duplicateCount : nat
}.

(** One turn of [for (const job of allJobs)]. *)
Definition dedupStep (st : Dedup) (job : Job) : Result Dedup :=
  key ← jobKey job;
  Ok (if decide (key ∈ seenJobs st)
      then mkDedup (uniqueJobs st) (seenJobs st) (S (duplicateCount st))
      else mkDedup (uniqueJobs st ++ [job]) ({[key]} ∪ seenJobs st)
                   (duplicateCount st)).

(** The loop is outside every [try]: an error in one turn ends the
    function. *)
Fixpoint dedupLoop (allJobs : list Job) (st : Dedup) : Result Dedup :=
  match allJobs with
  | [] => Ok st
  | job :: rest => st' ← dedupStep st job; dedupLoop rest st'
  end.

Definition removeDuplicates (allJobs : list Job) : Result (list Job) :=
  st ← dedupLoop allJobs (mkDedup [] ∅ 0); Ok (uniqueJobs st).

(** The whole function: [Ok] with the jobs its promise resolves to or [Err]
    when it rejects, and the requests and waits on the way. *)
Definition scrapeJobsWithIndeedScraper (api : Api)
    (options : Collection.Options) : Result (list Job) * list Collection.Event :=
  let st := collect api options in
  (removeDuplicates (collected st), events st).

(** *** Reading aids *)

(** A value that is kept by [||] and has no string method. *)
Definition truthyNonString (v : Value) : bool :=
  match v with
  | NotText true => true
  | _ => false
  end.

(** A job whose key can be built. *)
Definition keyable (job : Job) : bool :=
  negb (truthyNonString (company job)) && negb (truthyNonString (title job)).

(** The key of a keyable job. *)
Definition keyText (job : Job) : string :=
  catch (jobKey job) (fun _ => EmptyString).

(** What one request adds to the accumulated jobs: the normalized jobs of
    an answer with status 201 whose data is an array of jobs that can all
    be normalized, nothing otherwise. *)
Definition harvest (api : Api) (fromDays : Z) (city term : string)
    : list Job :=
  match api city term fromDays with
  | Ok result =>
      if status result =? 201
      then match data result with
           | Jobs jobs => catch (mapJobs jobs term city) (fun _ => [])
           | _ => []
           end
      else []
  | Err _ => []
  end.

(** *** Answers of the expected shape *)

Definition ofOption (v : option string) : Value :=
  match v with
  | Some s => Text s
  | None => Absent
  end.

Definition typedJob (job : Collection.RawJob) : ApiJob :=
  mkApiJob (ofOption (Collection.r_title job))
           (ofOption (Collection.r_companyName job))
           (ofOption (Collection.r_company job))
           (ofOption (Collection.r_jobKey job))
           None.

Definition typedApi (api : Collection.Api) : Api :=
  fun city term fromDays =>
    match api city term fromDays with
    | Ok result =>
        Ok (mkResponse (Collection.status result)
              (match Collection.returned result with
               | Some jobs => Jobs (typedJob <$> jobs)
               | None => NoData
               end))
    | Err msg => Err msg
    end.

(** A job of the typed run, as a job of this one. *)
Definition ofTyped (job : Aggregation.Job) : Job :=
  mkJob (ofOption (Aggregation.title job))
        (ofOption (Aggregation.company job))
        (Text (Aggregation.job_id job))
        (Aggregation.search_city job).

Definition ofProgress (st : Collection.Progress) : Progress :=
  mkProgress (ofTyped <$> Collection.collected st) (Collection.events st).

Definition ofDedup (st : Aggregation.Dedup) : Dedup :=
  mkDedup (ofTyped <$> Aggregation.uniqueJobs st) (Aggregation.seenJobs st)
          (Aggregation.duplicateCount st).

(** *** Sample answers *)

(** An answer with one good job and one whose title is a number. *)
Definition numberTitleApi : Api :=
  fun city term _ =>
    Ok (mkResponse 201
          (Jobs [ mkApiJob (Text "Line Cook") (Text "Bistro 21") Absent Absent
                    None;
                  mkApiJob (NotText true) (Text "Bistro 21") Absent Absent
                    None ])).

(** An answer with one good job and one whose description is a number. *)
Definition numberDescriptionApi : Api :=
  fun city term _ =>
    Ok (mkResponse 201
          (Jobs [ mkApiJob (Text "Line Cook") (Text "Bistro 21") Absent Absent
                    None;
                  mkApiJob (Text "Sous Chef") (Text "Bistro 21") Absent Absent
                    (Some "TypeError: text.match is not a function") ])).

End Wire.

(** ** More sample views *)

(** An interstitial with a CAPTCHA frame that nobody solves. *)
Definition captchaPage : Challenge.Page :=
  Challenge.mkPage (fun _ => Ok "Just a moment..."%string)
    (fun _ => Ok Challenge.searchUrl)
    (fun _ => Ok "Verify you are human"%string)
    (fun _ sel => String.eqb sel "iframe[src*='captcha']")
    (fun _ => None).

(** An interstitial that redirects to the results within five seconds,
    before any job card is rendered. *)
Definition redirectPage : Challenge.Page :=
  Challenge.mkPage
    (fun t => if (t <? 5000)%N then Ok "Just a moment..."%string
              else Ok "Loading"%string)
    (fun t => if (t <? 5000)%N
              then Ok "https://www.indeed.com/cdn-cgi/l/chk_jschl"%string
              else Ok Challenge.searchUrl)
    (fun _ => Ok EmptyString)
    (fun _ _ => false)
    (fun _ => None).

(** A page of the site that is neither a challenge nor a results page. *)
Definition errorPage : Challenge.Page :=
  Challenge.mkPage (fun _ => Ok "Page not found"%string)
    (fun _ => Ok "https://www.indeed.com/oops"%string)
    (fun _ => Ok "We can't find this page"%string)
    (fun _ _ => false)
    (fun _ => None).

(** ** Reading a results count *)

(** The decimal digit [d]. *)
Definition digitChar (d : nat) : ascii := ascii_of_nat (48 + d).
Arguments digitChar : simpl never.

Fixpoint digitString (digits : list nat) : string :=
  match digits with
  | [] => EmptyString
  | d :: rest => String (digitChar d) (digitString rest)
  end.

(** The number a list of decimal digits writes. *)
Definition digitsValue (digits : list nat) : N :=
  fold_left (fun acc d => (acc * 10 + N.of_nat d)%N) digits 0%N.

Fixpoint noDigit (s : string) : bool :=
  match s with
  | EmptyString => true
  | String c r => negb (Crawler.isDigit c) && noDigit r
  end.

Definition startsWithDigit (s : string) : bool :=
  match s with
  | String c _ => Crawler.isDigit c
  | EmptyString => false
  end.

(** ** More sample pages *)

(** A landing page without the "what" input. *)
Definition formWithoutWhat : Crawler.SearchForm :=
  Crawler.mkSearchForm (Ok tt) (Ok false) (Ok true) (Ok tt) (Ok tt) (Ok true)
    (Ok tt) (Ok "Job Search | Indeed"%string).

Definition landingWithoutWhat : Crawler.Page :=
  Crawler.mkPage (Ok tt) formWithoutWhat (Ok None) (fun _ => Ok false) (Ok tt)
    Challenge.resultsPage (Ok tt) (fun _ => Ok [])
    (Ok "Job Search | Indeed"%string).

(** A results page that declares [count] results and has no next-page
    control. *)
Definition lastListingPage (count : string) : Crawler.Page :=
  Crawler.mkPage (Ok tt) Crawler.formOk (Ok (Some count)) (fun _ => Ok false)
    (Ok tt) Challenge.resultsPage (Ok tt) (fun _ => Ok [])
    (Ok "Chef Jobs, Employment | Indeed"%string).

(** ** Reading the log of [handleIndeedPageLoad] *)

(** The close buttons clicked, in order. *)
Definition clicked (log : list PageLoad.Action) : list string :=
  omap (fun a => match a with PageLoad.Click sel => Some sel | _ => None end) log.

(** Whether [page.$] finds the close button. *)
Definition popupFound (page : PageLoad.Page) (selector : string) : bool :=
  match PageLoad.popup page selector with
  | Ok true => true
  | _ => false
  end.

(** A results page with two popups; the click on the first one fails. *)
Definition popupPage : PageLoad.Page :=
  PageLoad.mkPage (Ok tt)
    (fun sel => Ok (String.eqb sel ".pn-CloseButton"
                    || String.eqb sel ".icl-CloseButton"))
    (fun sel => if String.eqb sel ".pn-CloseButton"
                then Err "Node is either not clickable or not an Element"%string
                else Ok tt)
    (Ok tt).

(** ** Reading the collection loop *)

(** What one request adds to the accumulated jobs: the normalized jobs of
    an answer with status 201 and data, nothing otherwise. *)
Definition harvest (api : Collection.Api) (fromDays : Z) (city term : string)
    : list Aggregation.Job :=
  match api city term fromDays with
  | Ok result =>
      match Collection.returned result with
      | Some jobs =>
          if Collection.status result =? 201
          then map (fun job =>
                      Collection.normalizeIndeedScraperJob job term city) jobs
          else []
      | None => []
      end
  | Err _ => []
  end.

(** A list of requests with a wait between two of them. *)
Definition spaced (requests : list Collection.Event) : list Collection.Event :=
  match requests with
  | [] => []
  | first :: others =>
      first :: flat_map (fun e => [Collection.Waited 3000%N; e]) others
  end.

(** A list of requests with a wait after each. *)
Definition paced (requests : list Collection.Event) : list Collection.Event :=
  flat_map (fun e => [e; Collection.Waited 3000%N]) requests.

(** An API that fails on every request for Boston and answers the others
    with one job. *)
Definition patchyApi : Collection.Api :=
  fun city term _ =>
    if String.eqb city "Boston, MA"
    then Err "socket hang up"%string
    else Ok (Collection.mkResponse 201
               (Some [Collection.mkRawJob (Some term) (Some city) None None])).

(** A job the API returns with neither a title nor a company name. *)
Definition nameless (job : Collection.RawJob) : Prop :=
  Collection.orString (Collection.r_title job) EmptyString = EmptyString /\
  Collection.orString (Collection.r_companyName job) EmptyString = EmptyString /\
  Collection.orString (Collection.r_company job) EmptyString = EmptyString.

(** An API that answers every request with one nameless job. *)
Definition namelessApi : Collection.Api :=
  fun _ _ _ =>
    Ok (Collection.mkResponse 201
          (Some [Collection.mkRawJob None (Some EmptyString) None None])).

(** ** Cards in a browser *)

(** A card whose [querySelector] rejects the empty selector, as that of a
    browser does. *)
Definition rejectsEmptySelector (card : Extraction.Card) : Prop :=
  exists msg, Extraction.querySelector card EmptyString = Err msg.

(** [Crawler.clearPage] with its card as a browser gives it. *)
Definition browserPage : Crawler.Page :=
  Crawler.mkPage (Ok tt) Crawler.formOk (Ok None) (fun _ => Ok false) (Ok tt)
    Challenge.resultsPage (Ok tt)
    (fun selector =>
       if String.eqb selector "[data-jk]"
       then Ok [Extraction.browserCardOf Extraction.chefEntries] else Ok [])
    (Ok "Chef Jobs, Employment | Indeed"%string).
(** ** Sequencing *)

Lemma result_bind_ok {A B : Type} (a : A) (k : A -> Result B) :
  (x ← Ok a; k x) = k a.
Proof. reflexivity. Qed.

Lemma result_bind_err {A B : Type} (msg : string) (k : A -> Result B) :
  (x ← Err msg; k x) = Err msg.
Proof. reflexivity. Qed.

(** Splits on the first call of a sequence in the hypothesis [H]. *)
Ltac step_bind H :=
  match type of H with
  | mbind _ ?r = Ok _ =>
      let E := fresh "E" in
      destruct r eqn:E;
      [rewrite result_bind_ok in H | rewrite result_bind_err in H; discriminate H]
  end.

(** ** Task generation *)

Lemma pushPages_spec jt loc sal n page tasks :
  pushPages jt loc sal n page tasks =
  tasks ++ map (fun p => mkTask jt loc sal p (p =? 0)) (seq page n).
Proof.
  revert page tasks. induction n as [|n IH]; intros page tasks; simpl.
  - by rewrite app_nil_r.
  - rewrite IH. by rewrite <- app_assoc.
Qed.

Lemma fold_pushPages loc sal n terms acc :
  fold_left (fun tasks jt => pushPages jt loc sal n 0 tasks) terms acc =
  acc ++ generateTasks loc sal terms n.
Proof.
  revert acc. induction terms as [|jt terms IH]; intros acc; simpl.
  - by rewrite app_nil_r.
  - rewrite IH, pushPages_spec. unfold generateTasks. simpl.
    by rewrite <- app_assoc.
Qed.

Lemma generateTasks_length loc sal terms n :
  length (generateTasks loc sal terms n) = length terms * n.
Proof.
  unfold generateTasks. induction terms as [|jt terms IH]; simpl; [done|].
  rewrite length_app, length_map, length_seq, IH. done.
Qed.

Lemma generateTasks_firstPage loc sal terms n :
  Forall (fun t => isFirstPage t = true <-> pageNumber t = 0)
    (generateTasks loc sal terms n).
Proof.
  unfold generateTasks. apply Forall_forall. intros t Ht.
  apply list_elem_of_In, in_flat_map in Ht. destruct Ht as (jt & _ & Ht).
  apply in_map_iff in Ht. destruct Ht as (p & <- & _). simpl.
  apply Nat.eqb_eq.
Qed.

Lemma generateTasks_lookup loc sal terms n i p jt :
  terms !! i = Some jt -> p < n ->
  generateTasks loc sal terms n !! (i * n + p) =
  Some (mkTask jt loc sal p (p =? 0)).
Proof.
  unfold generateTasks. revert i.
  induction terms as [|jt' terms IH]; intros i Hi Hp; [done|].
  simpl. destruct i as [|i]; simpl in *.
  - injection Hi as ->.
    rewrite lookup_app_l by (rewrite length_map, length_seq; lia).
    rewrite list_lookup_fmap, lookup_seq_lt by lia. done.
  - rewrite lookup_app_r by (rewrite length_map, length_seq; lia).
    rewrite length_map, length_seq.
    replace (n + i * n + p - n) with (i * n + p) by lia. by apply IH.
Qed.

(** C6. For every list of search terms and every page count [n],
    [createIndeedSearchTasks] returns exactly [length terms * n] tasks, in
    term-major, page-minor order (the tasks of the first term for pages
    [0 .. n-1], then those of the second term, and so on), and a task has
    [isFirstPage] set exactly when its [pageNumber] is 0. *)
Theorem createIndeedSearchTasks_order (loc : option string) (sal : option N)
    (terms : list string) (n : nat) :
  let tasks := createIndeedSearchTasks (mkParams loc sal (Some n) (Some terms)) in
  length tasks = length terms * n /\
  tasks = generateTasks (default "United States"%string loc)
            (default 55000%N sal) terms n /\
  (forall i p jt, terms !! i = Some jt -> p < n ->
     exists t, tasks !! (i * n + p) = Some t /\
               jobType t = jt /\ pageNumber t = p) /\
  Forall (fun t => isFirstPage t = true <-> pageNumber t = 0) tasks.
Proof.
  intros tasks.
  assert (Heq : tasks = generateTasks (default "United States"%string loc)
                          (default 55000%N sal) terms n).
  { subst tasks. unfold createIndeedSearchTasks. simpl.
    by rewrite fold_pushPages. }
  rewrite Heq. repeat split.
  - apply generateTasks_length.
  - intros i p jt Hi Hp. eexists. split.
    + by apply generateTasks_lookup.
    + done.
  - apply generateTasks_firstPage.
Qed.

Example createIndeedSearchTasks_two_terms :
  map (fun t => (jobType t, pageNumber t, isFirstPage t))
    (createIndeedSearchTasks
       (mkParams None None (Some 2) (Some ["chef"; "cook"]%string))) =
  [ ("chef", 0, true); ("chef", 1, false);
    ("cook", 0, true); ("cook", 1, false) ]%string.
Proof. reflexivity. Qed.

(** ** Challenge resolver *)

Section ChallengeFacts.
Import Challenge.

Lemma handleCloudflareChallenge_trace p :
  handleCloudflareChallenge p = Ok (returned (exit (trace p))).
Proof.
  unfold handleCloudflareChallenge, trace.
  destruct (detectAndPoll p) as [v|msg]; reflexivity.
Qed.

Lemma pollLoop_done p attempts now lastUrl :
  pollLoop p 0 attempts now lastUrl = mkVerdict TimedOut attempts now.
Proof. reflexivity. Qed.

Lemma pollLoop_round p remaining attempts now lastUrl :
  pollLoop p (S remaining) attempts now lastUrl =
  match roundChecks p (now + 5000)%N lastUrl with
  | Ok (RoundResolved e) =>
      mkVerdict e (S attempts) (now + 5000 + 2000)%N
  | Ok RoundCaptcha =>
      pollLoop p remaining (S attempts) (now + 5000 + 10000)%N lastUrl
  | Ok (RoundStillActive currentUrl) =>
      pollLoop p remaining (S attempts) (now + 5000)%N currentUrl
  | Err msg =>
      if Str.includes msg "detached" || Str.includes msg "destroyed"
      then
        match title p (now + 5000 + 3000)%N with
        | Ok newTitle =>
            if queryOrNull p (now + 5000 + 3000)%N recheckSelectors
               || negb (hasIndicator newTitle)
            then mkVerdict Stabilized (S attempts) (now + 5000 + 3000)%N
            else pollLoop p remaining (S attempts) (now + 5000 + 3000)%N
                   lastUrl
        | Err _ =>
            pollLoop p remaining (S attempts) (now + 5000 + 3000)%N lastUrl
        end
      else pollLoop p remaining (S attempts) (now + 5000)%N lastUrl
  end.
Proof. reflexivity. Qed.

Lemma queryOrNull_none p t selectors :
  (forall sel, In sel selectors -> matches p t sel = false) ->
  queryOrNull p t selectors = false.
Proof.
  intros Hno. unfold queryOrNull, query.
  destruct (queryError p t); simpl; [done|].
  apply not_true_is_false. intros Hex.
  apply existsb_exists in Hex. destruct Hex as (sel & Hin & Hm).
  rewrite Hno in Hm by done. discriminate.
Qed.

Lemma recheck_in_poll sel : In sel recheckSelectors -> In sel pollSelectors.
Proof. simpl. intuition. Qed.

(** A view that stays on the challenge keeps the loop running until the
    round ceiling. *)
Lemma pollLoop_stuck p u :
  (forall t, url p t = Ok u) ->
  (forall t sel, In sel pollSelectors -> matches p t sel = false) ->
  (forall t s, title p t = Ok s -> hasIndicator s = true) ->
  forall remaining attempts now,
    let v := pollLoop p remaining attempts now u in
    exit v = TimedOut /\ rounds v = attempts + remaining /\
    (now + 5000 * N.of_nat remaining <= finishedAt v)%N.
Proof.
  intros Hurl Hmark Htitle.
  induction remaining as [|remaining IH]; intros attempts now.
  - rewrite pollLoop_done. simpl. repeat split; lia.
  - rewrite pollLoop_round.
    assert (Hstep : forall now' : N, (now + 5000 <= now')%N ->
      let v := pollLoop p remaining (S attempts) now' u in
      exit v = TimedOut /\ rounds v = attempts + S remaining /\
      (now + 5000 * N.of_nat (S remaining) <= finishedAt v)%N).
    { intros now' Hle. destruct (IH (S attempts) now') as (He & Hr & Hf).
      repeat split; [done|lia|lia]. }
    unfold roundChecks. rewrite Hurl. rewrite result_bind_ok.
    destruct (title p (now + 5000)%N) as [s|msg] eqn:Ht.
    + rewrite result_bind_ok, String.eqb_refl.
      rewrite (queryOrNull_none p _ pollSelectors) by auto.
      rewrite (Htitle _ _ Ht). simpl.
      destruct (queryOrNull p (now + 5000)%N captchaSelectors);
        apply Hstep; lia.
    + rewrite result_bind_err.
      destruct (Str.includes msg "detached" || Str.includes msg "destroyed").
      * destruct (title p (now + 5000 + 3000)%N) as [s|msg'] eqn:Ht'.
        -- rewrite (queryOrNull_none p _ recheckSelectors)
             by (intros; apply Hmark, recheck_in_poll; done).
           rewrite (Htitle _ _ Ht'). simpl. apply Hstep; lia.
        -- apply Hstep; lia.
      * apply Hstep; lia.
Qed.

(** C3. A view whose title carries a challenge indicator phrase, that never
    shows a results marker, never changes its URL and never shows a title
    free of indicator phrases is not reported as challenge-free: the poll
    loop is entered and the call returns [false] through the timeout exit
    after exactly 12 poll rounds (so not before 60 seconds have passed). *)
Theorem challenge_times_out_after_12_rounds (p : Page) (u t0 : string) :
  title p 0%N = Ok t0 ->
  hasIndicator t0 = true ->
  (forall t, url p t = Ok u) ->
  (forall t sel, In sel pollSelectors -> matches p t sel = false) ->
  (forall t s, title p t = Ok s -> hasIndicator s = true) ->
  handleCloudflareChallenge p = Ok false /\
  exit (trace p) = TimedOut /\
  rounds (trace p) = 12 /\
  (60000 <= finishedAt (trace p))%N.
Proof.
  intros Ht0 Hind Hurl Hmark Htitle.
  rewrite handleCloudflareChallenge_trace.
  assert (Htr : trace p = pollLoop p maxAttempts 0 0%N u).
  { unfold trace, detectAndPoll. rewrite Ht0, Hurl. simpl.
    rewrite Hind. reflexivity. }
  rewrite Htr.
  destruct (pollLoop_stuck p u Hurl Hmark Htitle maxAttempts 0 0%N)
    as (He & Hr & Hf).
  rewrite He. repeat split.
  - rewrite Hr. reflexivity.
  - etrans; [|exact Hf]. unfold maxAttempts. lia.
Qed.

Lemma challenge_times_out_witness :
  handleCloudflareChallenge stuckPage = Ok false /\
  exit (trace stuckPage) = TimedOut /\
  rounds (trace stuckPage) = 12 /\
  (60000 <= finishedAt (trace stuckPage))%N.
Proof.
  apply (challenge_times_out_after_12_rounds stuckPage searchUrl
           "Checking your browser before accessing indeed.com").
  - reflexivity.
  - reflexivity.
  - intros t. reflexivity.
  - intros t sel _. reflexivity.
  - intros t s Hs. injection Hs as <-. reflexivity.
Defined.

Example trace_stuckPage : trace stuckPage = mkVerdict TimedOut 12 60000%N.
Proof. vm_compute. reflexivity. Qed.

Lemma pollLoop_monotone p :
  forall remaining attempts now lastUrl,
    let v := pollLoop p remaining attempts now lastUrl in
    attempts <= rounds v /\ (now <= finishedAt v)%N.
Proof.
  induction remaining as [|remaining IH]; intros attempts now lastUrl.
  - rewrite pollLoop_done. simpl. split; lia.
  - rewrite pollLoop_round.
    assert (Hstep : forall (now' : N) lastUrl', (now <= now')%N ->
      let v := pollLoop p remaining (S attempts) now' lastUrl' in
      attempts <= rounds v /\ (now <= finishedAt v)%N).
    { intros now' lastUrl' Hle.
      destruct (IH (S attempts) now' lastUrl') as (Hr & Hf). split; lia. }
    destruct (roundChecks p (now + 5000)%N lastUrl) as [[e| |currentUrl]|msg].
    + simpl. split; lia.
    + apply Hstep; lia.
    + apply Hstep; lia.
    + destruct (Str.includes msg "detached" || Str.includes msg "destroyed");
        [|apply Hstep; lia].
      destruct (title p (now + 5000 + 3000)%N) as [s|msg'];
        [|apply Hstep; lia].
      destruct (queryOrNull p (now + 5000 + 3000)%N recheckSelectors
                || negb (hasIndicator s)); [|apply Hstep; lia].
      simpl. split; lia.
Qed.

(** Entering the loop costs at least one round of five seconds. *)
Lemma pollLoop_first_round p remaining attempts now lastUrl :
  let v := pollLoop p (S remaining) attempts now lastUrl in
  S attempts <= rounds v /\ (now + 5000 <= finishedAt v)%N.
Proof.
  rewrite pollLoop_round.
  assert (Hstep : forall (now' : N) lastUrl', (now + 5000 <= now')%N ->
    let v := pollLoop p remaining (S attempts) now' lastUrl' in
    S attempts <= rounds v /\ (now + 5000 <= finishedAt v)%N).
  { intros now' lastUrl' Hle.
    destruct (pollLoop_monotone p remaining (S attempts) now' lastUrl')
      as (Hr & Hf). split; lia. }
  destruct (roundChecks p (now + 5000)%N lastUrl) as [[e| |currentUrl]|msg].
  - simpl. split; lia.
  - apply Hstep; lia.
  - apply Hstep; lia.
  - destruct (Str.includes msg "detached" || Str.includes msg "destroyed");
      [|apply Hstep; lia].
    destruct (title p (now + 5000 + 3000)%N) as [s|msg'];
      [|apply Hstep; lia].
    destruct (queryOrNull p (now + 5000 + 3000)%N recheckSelectors
              || negb (hasIndicator s)); [|apply Hstep; lia].
    simpl. split; lia.
Qed.

(** When the first round finds the URL and the title readable and a
    results marker present, the call returns [true] at the end of that
    round. *)
Lemma pollLoop_marker_first_round p remaining lastUrl u' t' :
  url p 5000%N = Ok u' ->
  title p 5000%N = Ok t' ->
  queryOrNull p 5000%N pollSelectors = true ->
  let v := pollLoop p (S remaining) 0 0%N lastUrl in
  returned (exit v) = true /\ rounds v = 1 /\ finishedAt v = 7000%N.
Proof.
  intros Hu Ht Hq. rewrite pollLoop_round. unfold roundChecks.
  change (0 + 5000)%N with 5000%N.
  rewrite Hu, result_bind_ok, Ht, result_bind_ok, Hq.
  destruct (negb (u' =? lastUrl)%string && negb (Str.includes u' "challenge"));
    simpl; done.
Qed.

(** C2 (as the code has it). On a view that shows a results marker when
    the function is entered: if neither the title nor the body text
    carries an indicator phrase, the call returns [true] at once, with no
    poll round; if one of them does, the marker is not looked at before
    the poll loop, at least one round of five seconds is spent, and the
    call returns [true] at the end of the first round when the marker is
    still there (and URL and title can be read). *)
Theorem results_marker_short_circuit (p : Page) (u : string) :
  queryOrNull p 0%N resultsSelectors = true ->
  url p 0%N = Ok u ->
  let initialTitle := catch (title p 0%N) (fun _ => EmptyString) in
  let body := catch (bodyText p 0%N) (fun _ => EmptyString) in
  (hasIndicator initialTitle || hasIndicator body = false ->
     handleCloudflareChallenge p = Ok true /\
     trace p = mkVerdict AlreadyOnResults 0 0%N) /\
  (hasIndicator initialTitle || hasIndicator body = true ->
     1 <= rounds (trace p) /\ (5000 <= finishedAt (trace p))%N /\
     forall u' t',
       url p 5000%N = Ok u' -> title p 5000%N = Ok t' ->
       queryOrNull p 5000%N pollSelectors = true ->
       handleCloudflareChallenge p = Ok true /\
       rounds (trace p) = 1 /\ finishedAt (trace p) = 7000%N).
Proof.
  intros Hq Hu initialTitle body. split; intros Hind.
  - apply orb_false_iff in Hind. destruct Hind as [Ht Hb].
    assert (Htr : trace p = mkVerdict AlreadyOnResults 0 0%N).
    { unfold trace, detectAndPoll. rewrite Hu. simpl.
      fold initialTitle. fold body. rewrite Ht, Hb, Hq. reflexivity. }
    rewrite handleCloudflareChallenge_trace, Htr. done.
  - assert (Htr : trace p = pollLoop p maxAttempts 0 0%N u).
    { unfold trace, detectAndPoll. rewrite Hu. simpl.
      fold initialTitle. fold body. rewrite Hind.
      apply orb_true_iff in Hind.
      destruct Hind as [-> | ->]; simpl; [done|].
      by rewrite andb_false_r. }
    rewrite handleCloudflareChallenge_trace, Htr. unfold maxAttempts.
    destruct (pollLoop_first_round p 11 0 0%N u) as (Hr & Hf).
    split; [lia|]. split; [lia|].
    intros u' t' Hu' Ht' Hq'.
    destruct (pollLoop_marker_first_round p 11 u u' t' Hu' Ht' Hq')
      as (Hret & Hr1 & Hf1).
    rewrite Hret. done.
Qed.

Lemma results_marker_short_circuit_witness :
  (handleCloudflareChallenge resultsPage = Ok true /\
   trace resultsPage = mkVerdict AlreadyOnResults 0 0%N) /\
  (handleCloudflareChallenge stalePage = Ok true /\
   rounds (trace stalePage) = 1 /\ finishedAt (trace stalePage) = 7000%N).
Proof.
  split.
  - apply (results_marker_short_circuit resultsPage searchUrl);
      reflexivity.
  - apply (proj2 (results_marker_short_circuit stalePage searchUrl
                    eq_refl eq_refl) eq_refl)
      with (u' := searchUrl) (t' := "Just a moment..."%string);
      reflexivity.
Defined.

(** C2, counterexample. A view that shows a results marker under a title
    with a stale challenge phrase is not answered at once: one full poll
    round is spent before [true] is returned. *)
Lemma stale_banner_costs_a_round :
  queryOrNull stalePage 0%N resultsSelectors = true /\
  trace stalePage = mkVerdict ResultsDetected 1 7000%N /\
  rounds (trace stalePage) <> 0.
Proof. vm_compute. repeat split; discriminate. Qed.











Example trace_detachingPage :
  trace detachingPage = mkVerdict Stabilized 1 8000%N.
Proof. vm_compute. reflexivity. Qed.


End ChallengeFacts.

(** ** Extraction engine *)

Section ExtractionFacts.
Import Extraction.


Lemma firstText_no_match card selectors text :
  (forall sel s, In sel selectors -> getText card sel = Ok s -> s = EmptyString) ->
  firstText card selectors EmptyString = Ok text ->
  text = EmptyString.
Proof.
  intros Hnone.
  assert (Hgen : forall current, current = EmptyString ->
            firstText card selectors current = Ok text -> text = EmptyString);
    [|by apply Hgen].
  induction selectors as [|sel selectors IH]; intros current Hcur H;
    simpl in H.
  - injection H as <-. done.
  - destruct (getText card sel) as [x|msg] eqn:Hx; simpl in H; [|done].
    assert (x = EmptyString) as -> by (eapply Hnone; [by left|done]).
    simpl in H. eapply IH; [| |exact H]; [|done].
    intros sel' s Hin. apply Hnone. by right.
Qed.

(** What a completed in-page evaluation says about the three fields. *)
Lemma inPage_fields card jobData :
  inPage card = Ok jobData ->
  exists t c s,
    firstText card titleSelectors EmptyString = Ok t /\
    firstText card companySelectors EmptyString = Ok c /\
    firstText card salarySelectors EmptyString = Ok s /\
    title jobData = Str.orElse t "No title found" /\
    company jobData = Str.orElse c "No company found" /\
    salary jobData = Str.orElse s EmptyString.
Proof.
  unfold inPage. intros H.
  destruct (firstText card titleSelectors EmptyString) as [t|] eqn:Ht;
    [rewrite result_bind_ok in H|done].
  destruct (firstText card companySelectors EmptyString) as [c|] eqn:Hc;
    [rewrite result_bind_ok in H|done].
  step_bind H.
  destruct (firstText card salarySelectors EmptyString) as [s|] eqn:Hs;
    [rewrite result_bind_ok in H|done].
  repeat step_bind H.
  injection H as <-. exists t, c, s. done.
Qed.

Lemma extract_inPage card jobData :
  extractIndeedJobData card = Some jobData -> inPage card = Ok jobData.
Proof.
  unfold extractIndeedJobData, evaluate.
  destruct (disposed card); [done|].
  destruct (inPage card); simpl; [|done]. intros H. by injection H as ->.
Qed.

(** In a browser the lookup of the job id, which starts with the empty
    selector, makes the in-page function throw: no card yields a
    record. *)
Lemma extract_empty_selector_rejected card msg :
  querySelector card EmptyString = Err msg ->
  extractIndeedJobData card = None.
Proof.
  intros Hq.
  destruct (extractIndeedJobData card) as [jobData|] eqn:He; [|done].
  apply extract_inPage in He. unfold inPage in He.
  do 5 step_bind He.
  assert (Hid : orAttr (getAttr card EmptyString "data-jk")
                       (getAttr card "[data-jk]" "data-jk") = Err msg).
  { unfold orAttr, getAttr. by rewrite Hq. }
  rewrite Hid, result_bind_err in He. discriminate He.
Qed.

End ExtractionFacts.

(** ** Crawl orchestrator *)

Section CrawlerFacts.
Import Crawler.

Variable shouldExcludeCompany : string -> bool.
Variable isSalaryCompanyName : string -> bool.

Abbreviation requestHandler :=
  (Crawler.requestHandler shouldExcludeCompany isSalaryCompanyName).
Abbreviation handlerBody :=
  (Crawler.handlerBody shouldExcludeCompany isSalaryCompanyName).
Abbreviation runRequest :=
  (Crawler.runRequest shouldExcludeCompany isSalaryCompanyName).

(** Everything thrown inside the handler is caught by the handler. *)
Lemma requestHandler_resolves request page st :
  exists e, fst (requestHandler request page st) = Ok e.
Proof.
  unfold Crawler.requestHandler. destruct (userData request) as [|task].
  - by eexists.
  - destruct (handlerBody request task page (countProcessed st))
      as [[e|msg] st']; by eexists.
Qed.

(** So the crawler never sees a reason to retry. *)
Lemma runRequest_single_run budget pages request runs st :
  handlerRuns (runRequest budget pages request runs st) = S runs /\
  failedRequest (runRequest budget pages request runs st) = false.
Proof.
  destruct budget; simpl;
    destruct (requestHandler_resolves request (pages (retryCount request)) st)
      as [e He];
    destruct (requestHandler request (pages (retryCount request)) st)
      as [[e'|msg] st']; simpl in He; try discriminate; done.
Qed.

(** A failed challenge below the retry limit: the page is closed, the
    error meant for the crawler is caught by the handler itself and the
    task is counted as failed. *)
Lemma requestHandler_challenge_failure request task page st st1 :
  userData request = Search task ->
  setup page = Ok tt ->
  interact task page (countProcessed st) = (Ok None, st1) ->
  Challenge.handleCloudflareChallenge (challenge page) = Ok false ->
  retryCount request < 2 ->
  requestHandler request page st =
  (Ok (ErrorCaught retryMessage), countFailed (record ClosePage st1)).
Proof.
  intros Hu Hs Hi Hc Hr. unfold Crawler.requestHandler, Crawler.handlerBody.
  rewrite Hu, Hs, Hi, Hc.
  destruct (Nat.ltb_spec (retryCount request) 2); [done|lia].
Qed.

(** C5. For a task that is not a first page, when the results count read
    from the page is below [(pageNumber + 1) * 10], the handler returns
    through the not-enough-results exit: nothing is clicked, nothing is
    counted as failed and no job is added. *)
Theorem pagination_guard request task page st count :
  userData request = Search task ->
  isFirstPage task = false ->
  setup page = Ok tt ->
  countText page = Ok count ->
  (totalResults count < N.of_nat (pageNumber task + 1) * 10)%N ->
  let out := requestHandler request page st in
  out = (Ok NotEnoughResults, countProcessed st) /\
  actions (snd out) = actions st /\
  failedUrls (snd out) = failedUrls st /\
  allJobs (snd out) = allJobs st.
Proof.
  intros Hu Hf Hs Hc Hlt.
  unfold Crawler.requestHandler, Crawler.handlerBody, interact.
  rewrite Hu, Hs, Hf, Hc.
  unfold expectedMinResults.
  destruct (N.ltb_spec (totalResults count)
              (N.of_nat (pageNumber task + 1) * 10)); [|lia].
  simpl. done.
Qed.

Abbreviation acceptCard :=
  (Crawler.acceptCard shouldExcludeCompany isSalaryCompanyName).
Abbreviation extractCards :=
  (Crawler.extractCards shouldExcludeCompany isSalaryCompanyName).

(** The loop over the cards keeps, in order, the records of the cards it
    accepts; a card without a record does not stop it. *)
Lemma extractCards_omap cards pageJobs :
  extractCards cards pageJobs = pageJobs ++ omap acceptCard cards.
Proof.
  revert pageJobs. induction cards as [|card cards IH]; intros pageJobs; simpl.
  - by rewrite app_nil_r.
  - destruct (acceptCard card) as [jobData|]; rewrite IH; [|done].
    by rewrite <- app_assoc.
Qed.

(** Emission of a card, given what its evaluation gives. A card for which
    no company selector yields a non-empty text gives no record, and the
    cards around it are processed as if it were not there. When the in-page
    evaluation completes, which takes a card that answers the empty
    selector, and title and company resolve to texts other than the
    placeholders while no salary selector yields text, the record has the
    empty string as salary and is emitted unless one of the two company
    filters rejects the company. *)
Lemma card_acceptance (card : Extraction.Card) :
  ((forall sel s, In sel Extraction.companySelectors ->
      Extraction.getText card sel = Ok s -> s = EmptyString) ->
   acceptCard card = None /\
   forall before after,
     extractCards (before ++ card :: after) [] =
     extractCards (before ++ after) []) /\
  (forall jobData t c,
     Extraction.extractIndeedJobData card = Some jobData ->
     Extraction.firstText card Extraction.titleSelectors EmptyString = Ok t ->
     Str.truthy t = true -> t <> "No title found"%string ->
     Extraction.firstText card Extraction.companySelectors EmptyString = Ok c ->
     Str.truthy c = true -> c <> "No company found"%string ->
     (forall sel, In sel Extraction.salarySelectors ->
        Extraction.getText card sel = Ok EmptyString) ->
     Extraction.title jobData = t /\
     Extraction.company jobData = c /\
     Extraction.salary jobData = EmptyString /\
     acceptCard card =
       (if shouldExcludeCompany c || isSalaryCompanyName c
        then None else Some jobData)).
Proof.
  split.
  - intros Hnone.
    assert (Hacc : acceptCard card = None).
    { unfold Crawler.acceptCard.
      destruct (Extraction.extractIndeedJobData card) as [jobData|] eqn:He;
        [|done].
      apply extract_inPage, inPage_fields in He.
      destruct He as (t & c & s & _ & Hc & _ & _ & Hcompany & _).
      apply firstText_no_match in Hc; [|done]. subst c.
      rewrite Hcompany. simpl. by rewrite andb_false_r. }
    split; [done|]. intros before after.
    rewrite !extractCards_omap, !omap_app. simpl. by rewrite Hacc.
  - intros jobData t c He Ht Htt Htn Hc Hct Hcn Hsal.
    pose proof (extract_inPage _ _ He) as Hin.
    apply inPage_fields in Hin.
    destruct Hin as (t' & c' & s & Ht' & Hc' & Hs & Htitle & Hcompany & Hsalary).
    rewrite Ht in Ht'. injection Ht' as <-.
    rewrite Hc in Hc'. injection Hc' as <-.
    apply firstText_no_match in Hs;
      [|by intros sel s' Hin; rewrite (Hsal sel Hin); intros [= <-]].
    subst s. unfold Str.orElse in *. rewrite Htt in Htitle.
    rewrite Hct in Hcompany. simpl in Hsalary.
    repeat split; [done..|].
    unfold Crawler.acceptCard. rewrite He, Htitle, Hcompany.
    apply String.eqb_neq in Htn, Hcn. rewrite Htn, Hcn. simpl.
    destruct (shouldExcludeCompany c); [done|].
    by destruct (isSalaryCompanyName c).
Qed.

End CrawlerFacts.

(** On cards that answer every selector, the empty one included. *)
Lemma card_acceptance_sample :
  Crawler.acceptCard Crawler.excludeAgencies Crawler.neverSalary
    (Extraction.cardOf Extraction.anonymousEntries) = None /\
  exists jobData,
    Crawler.acceptCard Crawler.excludeAgencies Crawler.neverSalary
      (Extraction.cardOf Extraction.chefEntries) = Some jobData /\
    Extraction.title jobData = "Executive Chef"%string /\
    Extraction.company jobData = "Bistro 21"%string /\
    Extraction.salary jobData = EmptyString.
Proof.
  split.
  - apply (card_acceptance Crawler.excludeAgencies Crawler.neverSalary
             (Extraction.cardOf Extraction.anonymousEntries)).
    intros sel s Hin.
    repeat (destruct Hin as [<-|Hin]; [vm_compute; congruence|]).
    destruct Hin.
  - destruct (Extraction.extractIndeedJobData
                (Extraction.cardOf Extraction.chefEntries))
      as [jobData|] eqn:He; [|vm_compute in He; discriminate].
    exists jobData.
    destruct (proj2 (card_acceptance Crawler.excludeAgencies Crawler.neverSalary
                       (Extraction.cardOf Extraction.chefEntries))
                jobData "Executive Chef"%string "Bistro 21"%string He)
      as (Ht & Hc & Hs & Hacc).
    + vm_compute. reflexivity.
    + reflexivity.
    + discriminate.
    + vm_compute. reflexivity.
    + reflexivity.
    + discriminate.
    + intros sel Hin.
      repeat (destruct Hin as [<-|Hin]; [vm_compute; reflexivity|]).
      destruct Hin.
    + rewrite Hacc. done.
Defined.

(** A company a filter rejects, and a title that reads as the placeholder
    does, give no record either. *)
Example filtered_cards_not_emitted :
  Extraction.firstText (Extraction.cardOf Extraction.agencyEntries)
    Extraction.titleSelectors EmptyString = Ok "Line Cook"%string /\
  Extraction.firstText (Extraction.cardOf Extraction.agencyEntries)
    Extraction.companySelectors EmptyString = Ok "Acme Staffing"%string /\
  Extraction.firstText (Extraction.cardOf Extraction.agencyEntries)
    Extraction.salarySelectors EmptyString = Ok EmptyString /\
  Crawler.extractCards Crawler.excludeAgencies Crawler.neverSalary
    [Extraction.cardOf Extraction.agencyEntries] [] = [] /\
  Extraction.firstText (Extraction.cardOf Extraction.placeholderEntries)
    Extraction.titleSelectors EmptyString = Ok "No title found"%string /\
  Extraction.firstText (Extraction.cardOf Extraction.placeholderEntries)
    Extraction.companySelectors EmptyString = Ok "Bistro 21"%string /\
  Crawler.extractCards Crawler.keepAll Crawler.neverSalary
    [Extraction.cardOf Extraction.placeholderEntries] [] = [].
Proof. vm_compute. repeat split. Qed.

Lemma firstText_answers card selectors current :
  (forall sel, sel <> EmptyString ->
     exists el, Extraction.querySelector card sel = Ok el) ->
  ~ In EmptyString selectors ->
  exists text, Extraction.firstText card selectors current = Ok text.
Proof.
  intros Hother. revert current.
  induction selectors as [|sel selectors IH]; intros current Hnot;
    cbn [Extraction.firstText].
  - by eexists.
  - destruct (Hother sel) as [el Hel]; [intros ->; apply Hnot; by left|].
    unfold Extraction.getText. rewrite Hel, !result_bind_ok.
    case_match; [by eexists|].
    apply IH. intros Hin. apply Hnot. by right.
Qed.

(** C4, on the code. A card as a browser gives it throws on the empty
    selector and answers every other one. For such a card whose title and
    company resolve and for which no salary selector yields text, the
    function run in the page still throws: after the five fields are
    resolved, the lookup of the job id starts with [getAttr('', 'data-jk')].
    [extractIndeedJobData] catches the error and returns [null], and the
    handler emits no record for the card, whatever the two company filters
    say; the other cards of the batch are processed as usual. *)
Theorem card_in_browser_yields_no_record (card : Extraction.Card)
    (msg t c : string) :
  Extraction.disposed card = None ->
  Extraction.querySelector card EmptyString = Err msg ->
  (forall sel, sel <> EmptyString ->
     exists el, Extraction.querySelector card sel = Ok el) ->
  Extraction.firstText card Extraction.titleSelectors EmptyString = Ok t ->
  Str.truthy t = true ->
  Extraction.firstText card Extraction.companySelectors EmptyString = Ok c ->
  Str.truthy c = true ->
  (forall sel, In sel Extraction.salarySelectors ->
     Extraction.getText card sel = Ok EmptyString) ->
  Extraction.evaluate card = Err msg /\
  Extraction.extractIndeedJobData card = None /\
  forall exclude isSalary,
    Crawler.acceptCard exclude isSalary card = None /\
    forall before after,
      Crawler.extractCards exclude isSalary (before ++ card :: after) [] =
      Crawler.extractCards exclude isSalary (before ++ after) [].
Proof.
  intros Hdisposed Hempty Hother Ht Htt Hc Hct Hsalary.
  assert (Heval : Extraction.evaluate card = Err msg).
  { unfold Extraction.evaluate, Extraction.inPage.
    rewrite Hdisposed, Ht, result_bind_ok, Hc, result_bind_ok.
    destruct (firstText_answers card Extraction.locationSelectors EmptyString
                Hother) as [l ->].
    { simpl. intuition discriminate. }
    rewrite result_bind_ok.
    destruct (firstText_answers card Extraction.salarySelectors EmptyString
                Hother) as [s ->].
    { simpl. intuition discriminate. }
    rewrite result_bind_ok.
    destruct (firstText_answers card Extraction.descriptionSelectors
                EmptyString Hother) as [d ->].
    { simpl. intuition discriminate. }
    rewrite result_bind_ok.
    assert (Hid : Extraction.orAttr
                    (Extraction.getAttr card EmptyString "data-jk")
                    (Extraction.getAttr card "[data-jk]" "data-jk")
                  = Err msg).
    { unfold Extraction.orAttr, Extraction.getAttr. by rewrite Hempty. }
    rewrite Hid. reflexivity. }
  assert (Hnone : Extraction.extractIndeedJobData card = None).
  { unfold Extraction.extractIndeedJobData. by rewrite Heval. }
  split; [done|]. split; [done|]. intros exclude isSalary.
  assert (Hacc : Crawler.acceptCard exclude isSalary card = None).
  { unfold Crawler.acceptCard. by rewrite Hnone. }
  split; [done|]. intros before after.
  rewrite !extractCards_omap, !omap_app. unfold omap at 2 4. simpl.
  by rewrite Hacc.
Qed.

Lemma card_in_browser_yields_no_record_witness :
  Extraction.evaluate (Extraction.browserCardOf Extraction.chefEntries)
    = Err Extraction.emptySelectorError /\
  Extraction.extractIndeedJobData
    (Extraction.browserCardOf Extraction.chefEntries) = None /\
  forall exclude isSalary,
    Crawler.acceptCard exclude isSalary
      (Extraction.browserCardOf Extraction.chefEntries) = None /\
    forall before after,
      Crawler.extractCards exclude isSalary
        (before ++ Extraction.browserCardOf Extraction.chefEntries :: after) []
      = Crawler.extractCards exclude isSalary (before ++ after) [].
Proof.
  apply (card_in_browser_yields_no_record
           (Extraction.browserCardOf Extraction.chefEntries)
           Extraction.emptySelectorError
           "Executive Chef" "Bistro 21").
  - reflexivity.
  - reflexivity.
  - intros sel Hsel. destruct sel as [|a sel]; [done|]. by eexists.
  - vm_compute. reflexivity.
  - reflexivity.
  - vm_compute. reflexivity.
  - reflexivity.
  - intros sel Hin.
    repeat (destruct Hin as [<-|Hin]; [vm_compute; reflexivity|]).
    destruct Hin.
Defined.

Example extract_chef_card :
  option_map (fun d => (Extraction.title d, Extraction.company d,
                        Extraction.location d, Extraction.salary d,
                        Extraction.jobId d, Extraction.jobLink d))
    (Extraction.extractIndeedJobData (Extraction.cardOf Extraction.chefEntries))
  = Some ("Executive Chef", "Bistro 21", "Boston, MA", EmptyString,
          EmptyString, EmptyString)%string.
Proof. vm_compute. reflexivity. Qed.

(** The same card in a browser gives nothing. *)
Example extract_chef_card_in_browser :
  Extraction.extractIndeedJobData
    (Extraction.browserCardOf Extraction.chefEntries) = None /\
  Crawler.extractCards Crawler.keepAll Crawler.neverSalary
    [Extraction.browserCardOf Extraction.chefEntries] [] = [].
Proof. vm_compute. split; reflexivity. Qed.

Lemma pagination_guard_witness :
  let out := Crawler.requestHandler Crawler.excludeAgencies Crawler.neverSalary
               (Crawler.mkRequest (Crawler.Search Crawler.thirdPageTask) 0
                  "https://www.indeed.com/search-task-2")
               (Crawler.listingPage "15 jobs") Crawler.start in
  out = (Ok Crawler.NotEnoughResults, Crawler.mkState 1 0 [] []) /\
  Crawler.actions (snd out) = [] /\
  Crawler.failedUrls (snd out) = 0 /\
  Crawler.allJobs (snd out) = [].
Proof.
  apply (pagination_guard Crawler.excludeAgencies Crawler.neverSalary
           (Crawler.mkRequest (Crawler.Search Crawler.thirdPageTask) 0
              "https://www.indeed.com/search-task-2")
           Crawler.thirdPageTask (Crawler.listingPage "15 jobs")
           Crawler.start (Some "15 jobs"%string)).
  - reflexivity.
  - reflexivity.
  - reflexivity.
  - reflexivity.
  - vm_compute. reflexivity.
Defined.

Example totalResults_samples :
  Crawler.totalResults (Some "15 jobs"%string) = 15%N /\
  Crawler.totalResults (Some "Page 2 of 340 jobs"%string) = 2%N /\
  Crawler.totalResults (Some "1,234 jobs"%string) = 1%N /\
  Crawler.totalResults (Some "no jobs"%string) = 0%N /\
  Crawler.totalResults None = 0%N.
Proof. vm_compute. repeat split. Qed.

(** With enough declared results the same page is paginated. *)
Example pagination_proceeds :
  Crawler.actions
    (snd (Crawler.requestHandler Crawler.keepAll Crawler.neverSalary
            (Crawler.mkRequest (Crawler.Search Crawler.thirdPageTask) 0
               "https://www.indeed.com/search-task-2")
            (Crawler.listingPage "42 jobs") Crawler.start))
  = [Crawler.ClickNext].
Proof. vm_compute. reflexivity. Qed.

(** C1, on the code. A task whose challenge times out on the first two
    pages it would be given and clears on the third is run once only: the
    handler closes the page and throws, its own [catch] takes the error and
    counts the task as failed, the promise resolves, and the crawler, which
    retries on rejection only, never replaces the session. The third page
    would have been extracted. *)
Theorem challenge_retry_is_swallowed :
  (forall exclude isSalary budget pages request runs st,
     Crawler.handlerRuns
       (Crawler.runRequest exclude isSalary budget pages request runs st)
     = S runs) /\
  (forall exclude isSalary,
     Crawler.crawlRequest exclude isSalary Crawler.twoTimeouts
       Crawler.chefTask Crawler.start
     = Crawler.mkSummary
         (Some (Crawler.ErrorCaught Crawler.retryMessage)) 1 false
         (Crawler.mkState 1 1 [] [Crawler.ClosePage])) /\
  fst (Crawler.requestHandler Crawler.keepAll Crawler.neverSalary
         (Crawler.mkRequest (Crawler.Search Crawler.chefTask) 2
            "https://www.indeed.com/search-task-0")
         (Crawler.twoTimeouts 2) Crawler.start)
  = Ok Crawler.Extracted.
Proof.
  split; [|split].
  - intros. apply runRequest_single_run.
  - intros. vm_compute. reflexivity.
  - vm_compute. reflexivity.
Qed.

(** ** Strings *)

Lemma isSpace_lowerChar c : Str.isSpace (Str.lowerChar c) = Str.isSpace c.
Proof. destruct c as [[] [] [] [] [] [] [] []]; vm_compute; reflexivity. Qed.

Lemma trimStart_toLowerCase s :
  Str.trimStart (Str.toLowerCase s) = Str.toLowerCase (Str.trimStart s).
Proof.
  induction s as [|c s IH]; simpl; [done|].
  rewrite isSpace_lowerChar. by destruct (Str.isSpace c).
Qed.

Lemma trimEnd_toLowerCase s :
  Str.trimEnd (Str.toLowerCase s) = Str.toLowerCase (Str.trimEnd s).
Proof.
  induction s as [|c s IH]; simpl; [done|].
  rewrite IH, isSpace_lowerChar.
  destruct (Str.trimEnd s); simpl; [|done]. by destruct (Str.isSpace c).
Qed.

(** Lower-casing and trimming commute. *)
Lemma trim_toLowerCase s :
  Str.trim (Str.toLowerCase s) = Str.toLowerCase (Str.trim s).
Proof. unfold Str.trim. by rewrite trimStart_toLowerCase, trimEnd_toLowerCase. Qed.

(** ** Aggregation helpers *)

Section AggregationFacts.
Import Aggregation.

Lemma setAdd_NoDup set x : NoDup set -> NoDup (setAdd set x).
Proof.
  intros Hnd. unfold setAdd. case_decide; [done|].
  apply NoDup_app. split_and!; [done| |apply NoDup_singleton].
  intros y Hy Hx. apply list_elem_of_singleton in Hx. by subst.
Qed.

Lemma setAdd_elem set x y : y ∈ setAdd set x <-> y ∈ set \/ y = x.
Proof.
  unfold setAdd. case_decide.
  - split; [by left|]. intros [?| ->]; done.
  - rewrite elem_of_app, list_elem_of_singleton. done.
Qed.

Lemma fold_setAdd values set :
  NoDup set ->
  NoDup (fold_left setAdd values set) /\
  forall y, y ∈ fold_left setAdd values set <-> y ∈ set \/ y ∈ values.
Proof.
  revert set. induction values as [|x values IH]; intros set Hnd; simpl.
  - split; [done|]. intros y. rewrite elem_of_nil. tauto.
  - destruct (IH (setAdd set x) (setAdd_NoDup set x Hnd)) as [Hnd' Hin].
    split; [done|]. intros y. rewrite Hin, setAdd_elem, elem_of_cons. tauto.
Qed.

Lemma isContact_words email :
  isContact email = true ->
  Forall (fun word => Str.includes (Str.toLowerCase email) word = false)
    nonContactWords.
Proof.
  unfold isContact. intros H.
  repeat (apply andb_true_iff in H; destruct H as [H ?]).
  repeat match goal with
         | Hn : negb _ = true |- _ => apply negb_true_iff in Hn
         end.
  repeat constructor; done.
Qed.

(** C10. Whatever the text, absent and empty texts included (for which the
    result is empty), [extractEmailsFromText] returns a list without
    duplicates, no element of which contains, once in lower case, one of
    [noreply], [no-reply], [donotreply], [support], [help]. *)
Theorem extractEmailsFromText_clean (text : JsText) :
  NoDup (extractEmailsFromText text) /\
  Forall (fun email =>
            Forall (fun word =>
                      Str.includes (Str.toLowerCase email) word = false)
              nonContactWords)
    (extractEmailsFromText text) /\
  extractEmailsFromText JsNull = [] /\
  extractEmailsFromText JsUndefined = [] /\
  extractEmailsFromText (JsString EmptyString) = [].
Proof.
  split; [|split; [|done]].
  - destruct text as [| |s]; simpl; try apply NoDup_nil_2.
    destruct (Str.truthy s); [|apply NoDup_nil_2].
    apply fold_setAdd, NoDup_nil_2.
  - destruct text as [| |s]; simpl; try apply Forall_nil_2.
    destruct (Str.truthy s); [|apply Forall_nil_2].
    apply Forall_forall. intros email Hin.
    apply (fold_setAdd _ []) in Hin; [|apply NoDup_nil_2].
    destruct Hin as [Hin|Hin]; [by apply elem_of_nil in Hin|].
    apply list_elem_of_In, filter_In in Hin. destruct Hin as [_ Hc].
    by apply isContact_words.
Qed.

Example extractEmailsFromText_sample :
  extractEmailsFromText
    (JsString "Send your CV to chef.jobs@bistro21.com or Chef@Bistro21.com, not to noreply@indeed.com. Questions: HELP@bistro21.com, chef.jobs@bistro21.com")
  = [ "chef.jobs@bistro21.com"; "Chef@Bistro21.com" ]%string.
Proof. vm_compute. reflexivity. Qed.

Example matchAll_sample :
  matchAll emailRegex "a@b.c x@y.co|m, _hr@grill.example.com. me@host.x1"
  = [ "x@y.co|m"; "_hr@grill.example.com" ]%string.
Proof. vm_compute. reflexivity. Qed.

(** *** Duplicate suppression *)

Lemma filter_all {A : Type} (P : A -> Prop) `{!forall x, Decision (P x)}
    (l : list A) :
  (forall x, P x) -> filter P l = l.
Proof.
  intros HP. induction l as [|x l IH]; [done|].
  rewrite filter_cons_True by apply HP. by rewrite IH.
Qed.

Lemma fold_dedupStep_seen jobs st :
  seenJobs (fold_left dedupStep jobs st) =
  list_to_set (keysOf jobs) ∪ seenJobs st.
Proof.
  revert st. induction jobs as [|job jobs IH]; intros st; simpl.
  - set_solver.
  - rewrite IH. unfold dedupStep. case_decide; simpl; set_solver.
Qed.

Lemma fold_dedupStep_unique jobs st :
  uniqueJobs (fold_left dedupStep jobs st) =
  uniqueJobs st ++
  filter (fun job => jobKey job ∉ seenJobs st) (firstOfEachKey jobs).
Proof.
  revert st. induction jobs as [|job jobs IH]; intros st; simpl.
  - by rewrite app_nil_r.
  - rewrite IH. unfold dedupStep. case_decide as Hseen; simpl.
    + rewrite filter_cons_False by (intros Hn; by apply Hn).
      rewrite list_filter_filter. f_equal.
      apply list_filter_iff. intros other. split; [|tauto].
      intros Hn. split; [done|]. intros Heq. apply Hn. by rewrite Heq.
    + rewrite filter_cons_True by done.
      rewrite list_filter_filter, <- app_assoc. simpl. do 2 f_equal.
      apply list_filter_iff. intros other. set_solver.
Qed.

Lemma scrape_snoc before job :
  scrapeJobsWithIndeedScraper (before ++ [job]) =
  scrapeJobsWithIndeedScraper before ++
  (if decide (jobKey job ∈ keysOf before) then [] else [job]).
Proof.
  unfold scrapeJobsWithIndeedScraper, removeDuplicates.
  rewrite fold_left_app. simpl. unfold dedupStep at 1.
  rewrite fold_dedupStep_seen. simpl.
  case_decide as Hseen; case_decide as Hkeys; simpl.
  - by rewrite app_nil_r.
  - exfalso. apply Hkeys. set_solver.
  - exfalso. apply Hseen. set_solver.
  - done.
Qed.

Lemma scrape_keys jobs :
  NoDup (keysOf (scrapeJobsWithIndeedScraper jobs)) /\
  forall k, k ∈ keysOf (scrapeJobsWithIndeedScraper jobs) <-> k ∈ keysOf jobs.
Proof.
  induction jobs as [|job before IH] using rev_ind.
  - split; [apply NoDup_nil_2|done].
  - destruct IH as [Hnd Hin]. rewrite scrape_snoc. unfold keysOf in *.
    case_decide as Hk.
    + rewrite app_nil_r. split; [done|]. intros k.
      rewrite Hin, fmap_app, elem_of_app. simpl.
      rewrite list_elem_of_singleton. split; [tauto|].
      intros [?| ->]; done.
    + rewrite !fmap_app. simpl. split.
      * apply NoDup_app. split_and!; [done| |apply NoDup_singleton].
        intros k Hk1 Hk2. apply list_elem_of_singleton in Hk2. subst k.
        apply Hk. by apply Hin.
      * intros k. rewrite !elem_of_app, Hin. done.
Qed.

Lemma keyPart_code v :
  Str.trim (Str.toLowerCase (orUnknown v)) = keyPart v.
Proof.
  destruct v as [[|c r]|]; [vm_compute; reflexivity| |vm_compute; reflexivity].
  cbn [orUnknown keyPart Str.orElse Str.truthy]. apply trim_toLowerCase.
Qed.

(** C9. The jobs [scrapeJobsWithIndeedScraper] returns have pairwise
    distinct keys, the key being lower-cased trimmed company, a bar, and
    lower-cased trimmed title, with [unknown] for a missing or empty one; a
    job is kept exactly when no job accumulated before it has its key, so
    of the jobs that share a key the first is kept and the later ones are
    dropped. *)
Theorem scrape_keeps_first_of_each_key (allJobs : list Job) :
  NoDup (jobKey <$> scrapeJobsWithIndeedScraper allJobs) /\
  (forall job,
     jobKey job =
     String.append (keyPart (company job))
       (String.append "|" (keyPart (title job)))) /\
  (forall t c id city,
     Str.truthy t = true -> Str.truthy c = true ->
     jobKey (mkJob (Some t) (Some c) id city) =
     String.append (Str.toLowerCase (Str.trim c))
       (String.append "|" (Str.toLowerCase (Str.trim t)))) /\
  (forall id city,
     jobKey (mkJob None None id city) = "unknown|unknown"%string /\
     jobKey (mkJob (Some EmptyString) (Some EmptyString) id city)
       = "unknown|unknown"%string) /\
  (forall job,
     jobKey job =
     String.append (keyOf (company job))
       (String.append "|" (keyOf (title job)))) /\
  scrapeJobsWithIndeedScraper [] = [] /\
  (forall before job,
     scrapeJobsWithIndeedScraper (before ++ [job]) =
     scrapeJobsWithIndeedScraper before ++
     (if decide (jobKey job ∈ jobKey <$> before) then [] else [job])) /\
  scrapeJobsWithIndeedScraper allJobs = firstOfEachKey allJobs.
Proof.
  split_and!.
  - apply scrape_keys.
  - intros job. unfold jobKey. by rewrite !keyPart_code.
  - intros t c id city Ht Hc. unfold jobKey.
    cbn [company title]. rewrite !keyPart_code.
    destruct t as [|a t]; [done|]. destruct c as [|b c]; [done|]. done.
  - intros id city. split; vm_compute; reflexivity.
  - intros job. unfold jobKey, keyOf. by rewrite !trim_toLowerCase.
  - reflexivity.
  - apply scrape_snoc.
  - unfold scrapeJobsWithIndeedScraper, removeDuplicates.
    rewrite fold_dedupStep_unique. simpl.
    apply filter_all. intros job. set_solver.
Qed.

Example scrape_sample :
  job_id <$> scrapeJobsWithIndeedScraper
    [ mkJob (Some "Chef") (Some "Bistro") "1" "Boston, MA";
      mkJob (Some "chef ") (Some " BISTRO") "2" "Chicago, IL";
      mkJob (Some "Cook") (Some "Bistro") "3" "Chicago, IL";
      mkJob None (Some "Bistro") "4" "Boston, MA";
      mkJob (Some "Unknown") (Some "Bistro") "5" "Boston, MA" ]%string
  = [ "1"; "3"; "4" ]%string.
Proof. vm_compute. reflexivity. Qed.

End AggregationFacts.

(** ** Session pool *)

Section SessionPoolFacts.
Import SessionPool.

Lemma wellFormed_empty : wellFormed SessionPool.empty.
Proof.
  unfold wellFormed, SessionPool.empty. simpl. split_and!.
  - rewrite map_size_empty. unfold maxPoolSize. lia.
  - intros id s H. by rewrite lookup_empty in H.
  - intros id s H. by rewrite lookup_empty in H.
  - intros id H. by apply not_elem_of_empty in H.
Qed.

Lemma spent_false s :
  spent s = false ->
  usageCount s < maxUsageCount /\ errorScore s < maxErrorScore.
Proof.
  unfold spent. intros H. apply orb_false_iff in H. destruct H as [Hu He].
  apply Nat.leb_gt in Hu, He. done.
Qed.

Lemma spent_true s :
  spent s = true <->
  maxUsageCount <= usageCount s \/ maxErrorScore <= errorScore s.
Proof. unfold spent. rewrite orb_true_iff, !Nat.leb_le. done. Qed.

Lemma step_wellFormed p p' : wellFormed p -> step p p' -> wellFormed p'.
Proof.
  intros (Hsize & Hcaps & Hids & Hret) Hstep.
  destruct Hstep as [p id s Hs Hidle | p Hidle Hfree | p id s o Hs Huse].
  - unfold wellFormed, checkout. simpl. split_and!.
    + by rewrite map_size_insert_Some.
    + intros id' s' H. apply lookup_insert_Some in H.
      destruct H as [[<- <-]|[_ H]]; [by apply (Hcaps id s)|by apply (Hcaps id' s')].
    + intros id' s' H. apply lookup_insert_Some in H.
      destruct H as [[<- <-]|[_ H]]; [by apply (Hids id s)|by apply (Hids id' s')].
    + intros id' H. destruct (Hret id' H) as [Hlt Hnone]. split; [done|].
      apply lookup_insert_None. split; [done|]. intros ->. congruence.
  - assert (Hfresh : active p !! nextId p = None).
    { destruct (active p !! nextId p) as [s|] eqn:E; [|done].
      apply Hids in E. lia. }
    unfold wellFormed, create. simpl. split_and!.
    + rewrite map_size_insert_None by done. lia.
    + intros id' s' H. apply lookup_insert_Some in H.
      destruct H as [[<- <-]|[_ H]]; [|by apply (Hcaps id' s')].
      simpl. unfold maxUsageCount, maxErrorScore. lia.
    + intros id' s' H. apply lookup_insert_Some in H.
      destruct H as [[<- <-]|[_ H]]; [lia|]. apply Hids in H. lia.
    + intros id' H. destruct (Hret id' H) as [Hlt Hnone]. split; [lia|].
      apply lookup_insert_None. split; [done|lia].
  - unfold release. rewrite Hs. destruct (spent (used o s)) eqn:Hspent.
    + unfold wellFormed. simpl. split_and!.
      * rewrite map_size_delete_Some by done. lia.
      * intros id' s' H. apply lookup_delete_Some in H.
        destruct H as [_ H]. by apply (Hcaps id' s').
      * intros id' s' H. apply lookup_delete_Some in H.
        destruct H as [_ H]. by apply (Hids id' s').
      * intros id' H. apply elem_of_union in H. destruct H as [H|H].
        -- apply elem_of_singleton in H. subst id'.
           split; [by apply (Hids id s)|apply lookup_delete_eq].
        -- destruct (Hret id' H) as [Hlt Hnone]. split; [done|].
           apply lookup_delete_None. by right.
    + apply spent_false in Hspent.
      unfold wellFormed. simpl. split_and!.
      * by rewrite map_size_insert_Some.
      * intros id' s' H. apply lookup_insert_Some in H.
        destruct H as [[<- <-]|[_ H]]; [done|by apply (Hcaps id' s')].
      * intros id' s' H. apply lookup_insert_Some in H.
        destruct H as [[<- <-]|[_ H]]; [by apply (Hids id s)|by apply (Hids id' s')].
      * intros id' H. destruct (Hret id' H) as [Hlt Hnone]. split; [done|].
        apply lookup_insert_None. split; [done|]. intros ->. congruence.
Qed.

Lemma reachable_wellFormed p : reachable p -> wellFormed p.
Proof.
  induction 1 as [|p p' _ IH Hstep]; [apply wellFormed_empty|].
  by apply (step_wellFormed p).
Qed.

(** One operation never lowers a counter, never forgets a retired id, and
    an active session it removes is retired. *)
Lemma step_monotone p p' :
  wellFormed p ->
  step p p' ->
  retired p ⊆ retired p' /\
  forall id s, active p !! id = Some s ->
    id ∈ retired p' \/
    exists s', active p' !! id = Some s' /\
               usageCount s <= usageCount s' /\ errorScore s <= errorScore s'.
Proof.
  intros (_ & _ & Hids & _) Hstep.
  destruct Hstep as [p id0 s0 Hs Hidle | p Hidle Hfree | p id0 s0 o Hs Huse].
  - split; [done|]. intros id s H. right. unfold checkout. simpl.
    destruct (decide (id0 = id)) as [->|Hne].
    + rewrite lookup_insert_eq. eexists. split; [done|].
      rewrite Hs in H. injection H as <-. simpl. lia.
    + rewrite lookup_insert_ne by done. exists s. split; [done|lia].
  - split; [done|]. intros id s H. right. unfold create. simpl.
    destruct (decide (nextId p = id)) as [<-|Hne].
    + apply Hids in H. lia.
    + rewrite lookup_insert_ne by done. exists s. split; [done|lia].
  - unfold release. rewrite Hs. destruct (spent (used o s0)); simpl.
    + split; [set_solver|]. intros id s H.
      destruct (decide (id0 = id)) as [->|Hne]; [left; set_solver|].
      right. rewrite lookup_delete_ne by done. exists s. split; [done|lia].
    + split; [done|]. intros id s H. right.
      destruct (decide (id0 = id)) as [->|Hne].
      * rewrite lookup_insert_eq. eexists. split; [done|].
        rewrite Hs in H. injection H as <-. destruct o; simpl; lia.
      * rewrite lookup_insert_ne by done. exists s. split; [done|lia].
Qed.

Lemma steps_monotone p p' :
  wellFormed p ->
  steps p p' ->
  wellFormed p' /\
  retired p ⊆ retired p' /\
  forall id s, active p !! id = Some s ->
    id ∈ retired p' \/
    exists s', active p' !! id = Some s' /\
               usageCount s <= usageCount s' /\ errorScore s <= errorScore s'.
Proof.
  intros Hwf Hsteps. induction Hsteps as [p|p p' p'' _ IH Hstep].
  - split_and!; [done|done|]. intros id s H. right. exists s. split; [done|lia].
  - destruct (IH Hwf) as (Hwf' & Hret & Hact).
    destruct (step_monotone p' p'' Hwf' Hstep) as (Hret' & Hact').
    split_and!.
    + by apply (step_wellFormed p').
    + set_solver.
    + intros id s H. destruct (Hact id s H) as [Hr|(s' & Hs' & Hu & He)].
      * left. set_solver.
      * destruct (Hact' id s' Hs') as [Hr|(s'' & Hs'' & Hu' & He')];
          [by left|].
        right. exists s''. split; [done|lia].
Qed.

(** C7. In every pool the operations can produce: at most 10 sessions are
    active; every active session has been used fewer than 5 times and has
    an error score below 3, a release retiring the session exactly when one
    of the counters reaches its cap and keeping it with the counters
    incremented otherwise; and from then on a retired session is never
    active again and the counters of a session that stays active never
    decrease. *)
Theorem session_pool_invariants (p : Pool) :
  reachable p ->
  size (active p) <= 10 /\
  (forall id s, active p !! id = Some s ->
     usageCount s < 5 /\ errorScore s < 3) /\
  (forall id s o, active p !! id = Some s ->
     let s' := used o s in
     usageCount s' = S (usageCount s) /\
     errorScore s' = (match o with
                      | error => S (errorScore s)
                      | success => errorScore s
                      end) /\
     if decide (5 <= usageCount s' \/ 3 <= errorScore s')
     then active (release id o p) !! id = None /\
          id ∈ retired (release id o p)
     else active (release id o p) !! id = Some s') /\
  (forall p', steps p p' ->
     (forall id, id ∈ retired p -> active p' !! id = None) /\
     (forall id s s', active p !! id = Some s -> active p' !! id = Some s' ->
        usageCount s <= usageCount s' /\ errorScore s <= errorScore s')).
Proof.
  intros Hreach. pose proof (reachable_wellFormed p Hreach) as Hwf.
  destruct Hwf as (Hsize & Hcaps & Hids & Hret). split_and!.
  - exact Hsize.
  - exact Hcaps.
  - intros id s o Hs s'. split_and!; [done|by destruct o|].
    unfold release. rewrite Hs. fold s'.
    case_decide as Hcap.
    + apply spent_true in Hcap. rewrite Hcap. simpl.
      split; [apply lookup_delete_eq|set_solver].
    + destruct (spent s') eqn:Hspent.
      * exfalso. apply Hcap. by apply spent_true.
      * simpl. apply lookup_insert_eq.
  - intros p' Hsteps.
    destruct (steps_monotone p p' (reachable_wellFormed p Hreach) Hsteps)
      as ((_ & _ & _ & Hret') & Hsub & Hact).
    split.
    + intros id Hid. apply Hret'. set_solver.
    + intros id s s' Hs Hs'.
      destruct (Hact id s Hs) as [Hr|(s'' & Hs'' & Hu & He)].
      * apply Hret' in Hr. destruct Hr as [_ Hnone]. congruence.
      * rewrite Hs' in Hs''. injection Hs'' as <-. done.
Qed.

Lemma session_pool_invariants_witness :
  let p := create SessionPool.empty in
  size (active p) <= 10 /\
  (forall id s, active p !! id = Some s ->
     usageCount s < 5 /\ errorScore s < 3) /\
  (forall id s o, active p !! id = Some s ->
     let s' := used o s in
     usageCount s' = S (usageCount s) /\
     errorScore s' = (match o with
                      | error => S (errorScore s)
                      | success => errorScore s
                      end) /\
     if decide (5 <= usageCount s' \/ 3 <= errorScore s')
     then active (release id o p) !! id = None /\
          id ∈ retired (release id o p)
     else active (release id o p) !! id = Some s') /\
  (forall p', steps p p' ->
     (forall id, id ∈ retired p -> active p' !! id = None) /\
     (forall id s s', active p !! id = Some s -> active p' !! id = Some s' ->
        usageCount s <= usageCount s' /\ errorScore s <= errorScore s')).
Proof.
  apply (session_pool_invariants (create SessionPool.empty)).
  apply (reachable_step SessionPool.empty); [apply reachable_empty|].
  apply step_acquire_new; [reflexivity|].
  vm_compute. lia.
Defined.

(** A session is retired by its fifth use, or by its third error, and not
    before. *)
Example cycle_samples :
  map_to_list (active (cycle 4 success SessionPool.empty))
    = [(0, mkSession 4 0 false)] /\
  map_to_list (active (cycle 5 success SessionPool.empty)) = [] /\
  elements (retired (cycle 5 success SessionPool.empty)) = [0] /\
  map_to_list (active (cycle 2 error SessionPool.empty))
    = [(0, mkSession 2 2 false)] /\
  map_to_list (active (cycle 3 error SessionPool.empty)) = [] /\
  map_to_list (active (cycle 7 error SessionPool.empty))
    = [(2, mkSession 1 1 false)].
Proof. vm_compute. repeat split. Qed.

(** What [acquire] does is one of the operations. *)
Lemma acquire_step p id p' : acquire p = Some (id, p') -> step p p'.
Proof.
  unfold acquire. destruct (idle p) as [|id0 ids] eqn:Hidle.
  - case_decide; [|done]. intros [= <- <-]. by apply step_acquire_new.
  - destruct (active p !! id0) as [s|] eqn:Hs; [|done]. intros [= <- <-].
    apply step_acquire_idle; [done|].
    assert (Hin : id0 ∈ idle p) by (rewrite Hidle; left).
    unfold idle in Hin. apply list_elem_of_fmap in Hin.
    destruct Hin as ([id1 s1] & -> & Hin). simpl in Hs.
    apply list_elem_of_filter in Hin. destruct Hin as [Hfree Hin].
    apply elem_of_map_to_list in Hin. simpl in *. congruence.
Qed.

End SessionPoolFacts.

(** ** Challenge resolver: bounds and exits *)

Section ChallengeBounds.
Import Challenge.

Lemma pollLoop_bounds p :
  forall remaining attempts now lastUrl,
    let v := pollLoop p remaining attempts now lastUrl in
    rounds v <= attempts + remaining /\
    (finishedAt v <= now + 15000 * N.of_nat remaining)%N.
Proof.
  induction remaining as [|remaining IH]; intros attempts now lastUrl.
  - rewrite pollLoop_done. simpl. split; lia.
  - rewrite pollLoop_round.
    assert (Hstep : forall (now' : N) lastUrl', (now' <= now + 15000)%N ->
      let v := pollLoop p remaining (S attempts) now' lastUrl' in
      rounds v <= attempts + S remaining /\
      (finishedAt v <= now + 15000 * N.of_nat (S remaining))%N).
    { intros now' lastUrl' Hle.
      destruct (IH (S attempts) now' lastUrl') as (Hr & Hf). split; lia. }
    destruct (roundChecks p (now + 5000)%N lastUrl) as [[e| |currentUrl]|msg].
    + simpl. split; lia.
    + apply Hstep; lia.
    + apply Hstep; lia.
    + destruct (Str.includes msg "detached" || Str.includes msg "destroyed");
        [|apply Hstep; lia].
      destruct (title p (now + 5000 + 3000)%N) as [s|msg'];
        [|apply Hstep; lia].
      destruct (queryOrNull p (now + 5000 + 3000)%N recheckSelectors
                || negb (hasIndicator s)); [|apply Hstep; lia].
      simpl. split; lia.
Qed.

Lemma trace_cases p :
  (exists msg, url p 0%N = Err msg /\ trace p = mkVerdict HandlerError 0 0%N) \/
  (exists u, url p 0%N = Ok u /\
     (trace p = mkVerdict AlreadyOnResults 0 0%N \/
      trace p = mkVerdict NoChallenge 0 0%N \/
      trace p = pollLoop p maxAttempts 0 0%N u)).
Proof.
  unfold trace, detectAndPoll.
  destruct (url p 0%N) as [u|msg]; [right; exists u|left; exists msg]; [|done].
  split; [done|]. rewrite result_bind_ok.
  destruct (negb _ && negb _ && queryOrNull p 0%N resultsSelectors);
    [by left|].
  destruct (hasIndicator _ || hasIndicator _); [by right; right|by right; left].
Qed.

(** With a CAPTCHA frame in every round, each round waits its five seconds
    and ten more. *)
Lemma pollLoop_captcha p u :
  (forall t, url p t = Ok u) ->
  (forall t, exists s, title p t = Ok s /\ hasIndicator s = true) ->
  (forall t, queryOrNull p t pollSelectors = false) ->
  (forall t, queryOrNull p t captchaSelectors = true) ->
  forall remaining attempts now,
    pollLoop p remaining attempts now u =
    mkVerdict TimedOut (attempts + remaining)
      (now + 15000 * N.of_nat remaining)%N.
Proof.
  intros Hurl Htitle Hpoll Hcaptcha.
  induction remaining as [|remaining IH]; intros attempts now.
  - rewrite pollLoop_done. f_equal; lia.
  - rewrite pollLoop_round. unfold roundChecks.
    rewrite Hurl, result_bind_ok.
    destruct (Htitle (now + 5000)%N) as (s & -> & Hs).
    rewrite result_bind_ok, String.eqb_refl, Hpoll, Hs, Hcaptcha.
    cbn [negb andb]. rewrite IH. f_equal; lia.
Qed.

(** X1. Whatever the page does, the call goes through at most 12 poll
    rounds and returns within 180 seconds of being entered. The bound is
    reached: on a page whose URL never changes, whose title can always be
    read and always carries an indicator phrase, on which no selector of
    the poll loop ever finds an element and the CAPTCHA frame is found in
    every round, the call takes the 12 rounds and the 180 seconds and
    returns [false]. *)
Theorem challenge_bounded :
  (forall p, rounds (trace p) <= 12 /\ (finishedAt (trace p) <= 180000)%N) /\
  (forall p u,
     (forall t, url p t = Ok u) ->
     (forall t, exists s, title p t = Ok s /\ hasIndicator s = true) ->
     (forall t, queryOrNull p t pollSelectors = false) ->
     (forall t, queryOrNull p t captchaSelectors = true) ->
     trace p = mkVerdict TimedOut 12 180000%N /\
     handleCloudflareChallenge p = Ok false).
Proof.
  split.
  - intros p.
    destruct (trace_cases p) as [(msg & _ & ->)|(u & _ & [->|[->| ->]])];
      simpl; try (split; lia).
    destruct (pollLoop_bounds p maxAttempts 0 0%N u) as (Hr & Hf).
    unfold maxAttempts in *. split; lia.
  - intros p u Hurl Htitle Hpoll Hcaptcha.
    assert (Htr : trace p = mkVerdict TimedOut 12 180000%N).
    { unfold trace, detectAndPoll. rewrite Hurl, result_bind_ok.
      destruct (Htitle 0%N) as (s & -> & Hs). cbn [catch]. rewrite Hs.
      cbn [negb andb orb catch].
      by rewrite (pollLoop_captcha p u Hurl Htitle Hpoll Hcaptcha). }
    split; [done|]. rewrite handleCloudflareChallenge_trace, Htr. reflexivity.
Qed.

Lemma challenge_bounded_witness :
  trace captchaPage = mkVerdict TimedOut 12 180000%N /\
  handleCloudflareChallenge captchaPage = Ok false.
Proof.
  apply (proj2 challenge_bounded captchaPage searchUrl).
  - intros t. reflexivity.
  - intros t. eexists. split; reflexivity.
  - intros t. reflexivity.
  - intros t. reflexivity.
Defined.

Lemma pollLoop_false p :
  forall remaining attempts now lastUrl,
    let v := pollLoop p remaining attempts now lastUrl in
    returned (exit v) = false ->
    exit v = TimedOut /\ rounds v = attempts + remaining /\
    (now + 5000 * N.of_nat remaining <= finishedAt v)%N.
Proof.
  induction remaining as [|remaining IH]; intros attempts now lastUrl.
  - rewrite pollLoop_done. simpl. intros _. repeat split; lia.
  - rewrite pollLoop_round.
    assert (Hstep : forall (now' : N) lastUrl', (now + 5000 <= now')%N ->
      let v := pollLoop p remaining (S attempts) now' lastUrl' in
      returned (exit v) = false ->
      exit v = TimedOut /\ rounds v = attempts + S remaining /\
      (now + 5000 * N.of_nat (S remaining) <= finishedAt v)%N).
    { intros now' lastUrl' Hle v Hv. subst v.
      destruct (IH (S attempts) now' lastUrl' Hv) as (He & Hr & Hf).
      repeat split; [done|lia|lia]. }
    unfold roundChecks.
    destruct (url p (now + 5000)%N) as [u|msg];
      [rewrite result_bind_ok|rewrite result_bind_err].
    + destruct (title p (now + 5000)%N) as [t|msg];
        [rewrite result_bind_ok|rewrite result_bind_err].
      * destruct (negb (u =? lastUrl)%string && negb (Str.includes u "challenge"));
          [simpl; discriminate|].
        destruct (queryOrNull p (now + 5000)%N pollSelectors);
          [simpl; discriminate|].
        destruct (negb (hasIndicator t)
                  && (Str.includes t "Indeed" || Str.includes t "jobs"));
          [simpl; discriminate|].
        destruct (queryOrNull p (now + 5000)%N captchaSelectors);
          apply Hstep; lia.
      * destruct (Str.includes msg "detached" || Str.includes msg "destroyed");
          [|apply Hstep; lia].
        destruct (title p (now + 5000 + 3000)%N) as [s|msg'];
          [|apply Hstep; lia].
        destruct (queryOrNull p (now + 5000 + 3000)%N recheckSelectors
                  || negb (hasIndicator s)); [simpl; discriminate|].
        apply Hstep; lia.
    + destruct (Str.includes msg "detached" || Str.includes msg "destroyed");
        [|apply Hstep; lia].
      destruct (title p (now + 5000 + 3000)%N) as [s|msg'];
        [|apply Hstep; lia].
      destruct (queryOrNull p (now + 5000 + 3000)%N recheckSelectors
                || negb (hasIndicator s)); [simpl; discriminate|].
      apply Hstep; lia.
Qed.

(** X2. The call answers [false] only at the end of the twelfth poll round,
    a minute or more after it was entered, unless [page.url()] threw when
    it was entered: a negative answer is never quick. *)
Theorem challenge_false_is_slow (p : Page) :
  handleCloudflareChallenge p = Ok false ->
  (exists msg, url p 0%N = Err msg) \/
  (exit (trace p) = TimedOut /\ rounds (trace p) = 12 /\
   (60000 <= finishedAt (trace p))%N).
Proof.
  rewrite handleCloudflareChallenge_trace. intros H. injection H as H.
  destruct (trace_cases p) as [(msg & Hu & _)|(u & _ & [Ht|[Ht|Ht]])];
    [left; by exists msg|rewrite Ht in H; discriminate..|].
  right. rewrite Ht in *.
  destruct (pollLoop_false p maxAttempts 0 0%N u H) as (He & Hr & Hf).
  unfold maxAttempts in *. repeat split; [done|lia|lia].
Qed.

Lemma challenge_false_is_slow_witness :
  (exists msg, url stuckPage 0%N = Err msg) \/
  (exit (trace stuckPage) = TimedOut /\ rounds (trace stuckPage) = 12 /\
   (60000 <= finishedAt (trace stuckPage))%N).
Proof. apply (challenge_false_is_slow stuckPage). reflexivity. Defined.

(** X3. When neither the title nor the body text carries an indicator
    phrase (an unreadable one counts as empty), the call answers [true] at
    once, without a poll round, whether or not the page shows any job
    result: an error page and a page whose browser is gone pass as
    challenge-free. *)
Theorem challenge_free_without_indicator (p : Page) (u : string) :
  url p 0%N = Ok u ->
  hasIndicator (catch (title p 0%N) (fun _ => EmptyString)) = false ->
  hasIndicator (catch (bodyText p 0%N) (fun _ => EmptyString)) = false ->
  handleCloudflareChallenge p = Ok true /\
  rounds (trace p) = 0 /\ finishedAt (trace p) = 0%N /\
  exit (trace p) =
    (if queryOrNull p 0%N resultsSelectors then AlreadyOnResults
     else NoChallenge).
Proof.
  intros Hu Ht Hb. rewrite handleCloudflareChallenge_trace.
  unfold trace, detectAndPoll. rewrite Hu, result_bind_ok, Ht, Hb.
  simpl. by destruct (queryOrNull p 0%N resultsSelectors).
Qed.

Lemma challenge_free_without_indicator_witness :
  handleCloudflareChallenge errorPage = Ok true /\
  rounds (trace errorPage) = 0 /\ finishedAt (trace errorPage) = 0%N /\
  exit (trace errorPage) =
    (if queryOrNull errorPage 0%N resultsSelectors then AlreadyOnResults
     else NoChallenge).
Proof.
  apply (challenge_free_without_indicator errorPage
           "https://www.indeed.com/oops"); reflexivity.
Defined.

(** X4. Once in the poll loop, a URL that differs after the first wait from
    the one the page had on entry, and does not contain [challenge], ends
    the call with [true] at the end of the first round, seven seconds after
    entry, whatever the new page shows, provided its title can be read. *)
Theorem challenge_url_change_resolves (p : Page) (u u' t' : string) :
  url p 0%N = Ok u ->
  hasIndicator (catch (title p 0%N) (fun _ => EmptyString))
  || hasIndicator (catch (bodyText p 0%N) (fun _ => EmptyString)) = true ->
  url p 5000%N = Ok u' ->
  title p 5000%N = Ok t' ->
  u' <> u ->
  Str.includes u' "challenge" = false ->
  handleCloudflareChallenge p = Ok true /\
  trace p = mkVerdict UrlChanged 1 7000%N.
Proof.
  intros Hu Hind Hu' Ht' Hne Hch.
  assert (Htr : trace p = mkVerdict UrlChanged 1 7000%N).
  { unfold trace, detectAndPoll. rewrite Hu, result_bind_ok.
    apply orb_true_iff in Hind.
    assert (Hguard :
      negb (hasIndicator (catch (title p 0%N) (fun _ => EmptyString)))
      && negb (hasIndicator (catch (bodyText p 0%N) (fun _ => EmptyString)))
      && queryOrNull p 0%N resultsSelectors = false).
    { destruct Hind as [-> | ->]; simpl; [done|].
      by rewrite andb_false_r. }
    rewrite Hguard.
    assert (Hor :
      hasIndicator (catch (title p 0%N) (fun _ => EmptyString))
      || hasIndicator (catch (bodyText p 0%N) (fun _ => EmptyString)) = true)
      by (by apply orb_true_iff).
    rewrite Hor. simpl. unfold maxAttempts. rewrite pollLoop_round.
    unfold roundChecks. change (0 + 5000)%N with 5000%N.
    rewrite Hu', result_bind_ok, Ht', result_bind_ok, Hch.
    apply String.eqb_neq in Hne. rewrite Hne. reflexivity. }
  rewrite handleCloudflareChallenge_trace, Htr. done.
Qed.

Lemma challenge_url_change_resolves_witness :
  handleCloudflareChallenge redirectPage = Ok true /\
  trace redirectPage = mkVerdict UrlChanged 1 7000%N.
Proof.
  apply (challenge_url_change_resolves redirectPage
           "https://www.indeed.com/cdn-cgi/l/chk_jschl" searchUrl "Loading");
    try reflexivity.
  discriminate.
Defined.

End ChallengeBounds.

(** ** Indicator phrases *)

Lemma toLowerCase_append a b :
  Str.toLowerCase (String.append a b) =
  String.append (Str.toLowerCase a) (Str.toLowerCase b).
Proof. induction a as [|c a IH]; simpl; [done|]. by rewrite IH. Qed.

Lemma startsWith_append p rest : Str.startsWith p (String.append p rest) = true.
Proof.
  induction p as [|c p IH]; simpl; [done|]. by rewrite Ascii.eqb_refl.
Qed.

Lemma includes_startsWith hay needle :
  Str.startsWith needle hay = true -> Str.includes hay needle = true.
Proof. intros H. destruct hay; simpl; by rewrite H. Qed.

Lemma includes_append before s after :
  Str.includes (String.append before (String.append s after)) s = true.
Proof.
  induction before as [|c before IH].
  - change (String.append EmptyString (String.append s after))
      with (String.append s after).
    apply includes_startsWith, startsWith_append.
  - change (String.append (String c before) (String.append s after))
      with (String c (String.append before (String.append s after))).
    simpl. rewrite IH. apply orb_true_r.
Qed.

(** X5. A text counts as a challenge as soon as an indicator phrase occurs
    anywhere in it, in any mix of upper and lower case: a results page
    whose title happens to contain the word "challenge" is treated as a
    challenge page. *)
Theorem hasIndicator_anywhere (before s after indicator : string) :
  In indicator Challenge.cloudflareIndicators ->
  Str.toLowerCase s = indicator ->
  Challenge.hasIndicator (String.append before (String.append s after)) = true.
Proof.
  intros Hin Hs. unfold Challenge.hasIndicator.
  apply existsb_exists. exists indicator. split; [done|].
  rewrite !toLowerCase_append, Hs. apply includes_append.
Qed.

Lemma hasIndicator_anywhere_witness :
  Challenge.hasIndicator
    (String.append "Culinary "
       (String.append "Challenge" " Coach Jobs, Employment | Indeed")) = true.
Proof.
  apply (hasIndicator_anywhere "Culinary " "Challenge"
           " Coach Jobs, Employment | Indeed" "challenge").
  - simpl. tauto.
  - reflexivity.
Defined.

(** ** Extraction engine: shape of a record *)

Section ExtractionShape.
Import Extraction.

Lemma orElse_truthy a b : Str.truthy b = true -> Str.truthy (Str.orElse a b) = true.
Proof. unfold Str.orElse. by destruct (Str.truthy a) eqn:E. Qed.

Lemma substring_length n s : String.length (String.substring 0 n s) <= n.
Proof.
  revert s. induction n as [|n IH]; intros s; destruct s as [|c s]; simpl;
    try lia.
  specialize (IH s). lia.
Qed.

(** X6. Every record [extractIndeedJobData] returns has a non-empty title,
    company and location (the placeholder standing in for a missing one),
    [Indeed Direct] as source, at most 200 characters of debug markup, and
    a link that is either empty or starts with the site's address. *)
Theorem extracted_record_shape (card : Card) (jobData : JobData) :
  extractIndeedJobData card = Some jobData ->
  Str.truthy (title jobData) = true /\
  Str.truthy (company jobData) = true /\
  Str.truthy (location jobData) = true /\
  source jobData = "Indeed Direct"%string /\
  String.length (elementHTML jobData) <= 200 /\
  (jobLink jobData = EmptyString \/
   Str.startsWith "https://www.indeed.com" (jobLink jobData) = true).
Proof.
  intros He. apply extract_inPage in He. unfold inPage in He.
  repeat step_bind He. injection He as <-.
  cbn [title company location source elementHTML jobLink].
  split_and!; try (by apply orElse_truthy); try done.
  - apply substring_length.
  - destruct (truthyAttr _); [right|by left].
    apply startsWith_append.
Qed.

Lemma extracted_record_shape_witness :
  exists jobData,
    extractIndeedJobData (cardOf chefEntries) = Some jobData /\
    Str.truthy (title jobData) = true /\
    Str.truthy (company jobData) = true /\
    Str.truthy (location jobData) = true /\
    source jobData = "Indeed Direct"%string /\
    String.length (elementHTML jobData) <= 200 /\
    (jobLink jobData = EmptyString \/
     Str.startsWith "https://www.indeed.com" (jobLink jobData) = true).
Proof.
  destruct (extractIndeedJobData (cardOf chefEntries)) as [jobData|] eqn:He;
    [|vm_compute in He; discriminate].
  exists jobData. split; [reflexivity|].
  apply (extracted_record_shape (cardOf chefEntries) jobData He).
Defined.

Lemma extract_empty_selector_rejected_witness :
  extractIndeedJobData (browserCardOf chefEntries) = None.
Proof.
  apply (extract_empty_selector_rejected (browserCardOf chefEntries)
           emptySelectorError).
  reflexivity.
Defined.


End ExtractionShape.


(** ** Crawl orchestrator: accounting *)

Section CrawlerAccounting.
Import Crawler.

Variable shouldExcludeCompany : string -> bool.
Variable isSalaryCompanyName : string -> bool.

Abbreviation requestHandler' :=
  (Crawler.requestHandler shouldExcludeCompany isSalaryCompanyName).
Abbreviation accepted' :=
  (Run.accepted shouldExcludeCompany isSalaryCompanyName).

Lemma acceptCard_accepted card jobData :
  Crawler.acceptCard shouldExcludeCompany isSalaryCompanyName card = Some jobData ->
  accepted' jobData.
Proof.
  unfold Crawler.acceptCard, Run.accepted.
  destruct (Extraction.extractIndeedJobData card) as [d|]; [|done].
  destruct (negb (Extraction.title d =? "No title found")%string
            && negb (Extraction.company d =? "No company found")%string)
    eqn:Hgate; [|done].
  destruct (shouldExcludeCompany (Extraction.company d)) eqn:Hex; [done|].
  destruct (isSalaryCompanyName (Extraction.company d)) eqn:Hsal; [done|].
  intros [= <-]. apply andb_true_iff in Hgate. destruct Hgate as [Ht Hc].
  apply negb_true_iff, String.eqb_neq in Ht, Hc. done.
Qed.

Lemma extractCards_accepted cards :
  Forall accepted'
    (Crawler.extractCards shouldExcludeCompany isSalaryCompanyName cards []) /\
  length (Crawler.extractCards shouldExcludeCompany isSalaryCompanyName cards [])
  <= length cards.
Proof.
  rewrite extractCards_omap. simpl. unfold omap.
  induction cards as [|card cards [IH1 IH2]].
  - split; [constructor|done].
  - simpl. destruct (Crawler.acceptCard _ _ card) as [d|] eqn:Hd; simpl.
    + split; [|lia]. constructor; [by eapply acceptCard_accepted|done].
    + split; [done|lia].
Qed.

(** X9. One call of the request handler counts the request as processed
    once and as failed at most once, never loses a job collected before,
    adds jobs only when it does not count the request as failed, and adds
    only jobs that passed the placeholder comparison and the two company
    filters. *)
Theorem handler_accounting (request : Request) (page : Page) (st : State) :
  let st' := snd (requestHandler' request page st) in
  processedUrls st' = S (processedUrls st) /\
  failedUrls st <= failedUrls st' <= S (failedUrls st) /\
  exists new,
    allJobs st' = allJobs st ++ new /\
    (failedUrls st' = S (failedUrls st) -> new = []) /\
    Forall accepted' new.
Proof.
  unfold Crawler.requestHandler, Crawler.handlerBody, interact.
  repeat case_match; simplify_eq; simpl;
    (split; [done|]); (split; [lia|]);
    try (exists []; rewrite app_nil_r; by split_and!).
  all: match goal with
       | H : findJobElements _ _ = ?cards |- _ =>
           exists (Crawler.extractCards shouldExcludeCompany
                     isSalaryCompanyName cards [])
       end.
  all: split; [reflexivity|]; split; [lia|]; apply extractCards_accepted.
Qed.

Lemma handler_warmup request page st :
  userData request = Warmup ->
  requestHandler' request page st = (Ok WarmedUp, countProcessed st).
Proof. intros H. unfold Crawler.requestHandler. by rewrite H. Qed.

Lemma runRequest_final budget pages request runs st :
  final (Crawler.runRequest shouldExcludeCompany isSalaryCompanyName
           budget pages request runs st)
  = snd (requestHandler' request (pages (retryCount request)) st).
Proof.
  destruct (requestHandler_resolves shouldExcludeCompany isSalaryCompanyName
              request (pages (retryCount request)) st) as [e He].
  destruct budget; simpl;
    destruct (requestHandler' request (pages (retryCount request)) st)
      as [[e'|msg] st']; simpl in He; try discriminate; done.
Qed.

Lemma crawl_accounting pages queue :
  forall index st,
    let st' := Run.crawl shouldExcludeCompany isSalaryCompanyName
                 pages index queue st in
    processedUrls st' = processedUrls st + length queue /\
    failedUrls st' <= failedUrls st + Run.searches queue /\
    (Forall accepted' (allJobs st) -> Forall accepted' (allJobs st')).
Proof.
  induction queue as [|request queue IH]; intros index st;
    cbn [Run.crawl length].
  - unfold Run.searches. simpl. split_and!; [lia|lia|done].
  - rewrite runRequest_final.
    set (page := pages index (retryCount request)).
    destruct (IH (S index) (snd (requestHandler' request page st)))
      as (Hp & Hf & Ha).
    destruct (handler_accounting request page st)
      as (Hp1 & Hf1 & new & Hnew & _ & Hacc).
    unfold Run.searches in *. simpl. unfold Run.isSearch at 1. split_and!.
    + lia.
    + destruct (userData request) eqn:Hu.
      * rewrite (handler_warmup request page st Hu) in Hf |- *.
        simpl in *. lia.
      * simpl. lia.
    + intros Hall. apply Ha. rewrite Hnew. apply Forall_app. done.
Qed.

(** X10. At the end of a run [processedUrls] is the number of search tasks
    plus one, the warm-up being counted as processed (and so as a
    successful URL in the closing log), and [failedUrls] is at most the
    number of search tasks. *)
Theorem run_accounting (pages : nat -> nat -> Page)
    (searchTasks : list SearchTask) :
  let st := Run.finish shouldExcludeCompany isSalaryCompanyName
              pages searchTasks in
  processedUrls st = S (length searchTasks) /\
  failedUrls st <= length searchTasks /\
  1 <= processedUrls st - failedUrls st.
Proof.
  unfold Run.finish.
  destruct (crawl_accounting pages (Run.requests searchTasks) 0 start)
    as (Hp & Hf & _).
  assert (Hlen : length (Run.requests searchTasks) = S (length searchTasks)).
  { unfold Run.requests. simpl. by rewrite length_imap. }
  assert (Hs : Run.searches (Run.requests searchTasks) <= length searchTasks).
  { unfold Run.searches, Run.requests. simpl.
    etrans; [apply List.filter_length_le|]. by rewrite length_imap. }
  simpl in *. lia.
Qed.

(** X11. Every job [scrapeIndeedJobs] returns has a title and a company
    other than the placeholders and a company that neither filter
    rejects. *)
Theorem run_jobs_accepted (pages : nat -> nat -> Page)
    (searchTasks : list SearchTask) :
  Forall accepted'
    (Run.scrapeIndeedJobs shouldExcludeCompany isSalaryCompanyName
       pages searchTasks).
Proof.
  unfold Run.scrapeIndeedJobs, Run.finish.
  apply (crawl_accounting pages (Run.requests searchTasks) 0 start).
  constructor.
Qed.

Lemma performIndeedSearch_missing_control form :
  whatInput form = Ok false \/ whereInput form = Ok false \/
  searchButton form = Ok false ->
  performIndeedSearch form = false.
Proof.
  unfold performIndeedSearch. intros H.
  destruct (goto form) as [[]|]; [|done]. rewrite result_bind_ok.
  destruct (whatInput form) as [what|]; [|done]. rewrite result_bind_ok.
  destruct (whereInput form) as [where_|]; [|done]. rewrite result_bind_ok.
  destruct what, where_; simpl; try done.
  destruct (fillWhat form) as [[]|]; [|done]. rewrite result_bind_ok.
  destruct (fillWhere form) as [[]|]; [|done]. rewrite result_bind_ok.
  destruct (searchButton form) as [button|]; [|done]. rewrite result_bind_ok.
  destruct button; [|done]. naive_solver.
Qed.

(** X12. A first-page task whose landing page lacks one of the two search
    inputs or the search button is given up at once: the handler counts it
    as failed, and neither checks for a challenge nor touches the page
    further nor adds a job. *)
Theorem missing_search_control_fails_task (request : Request)
    (task : SearchTask) (page : Page) (st : State) :
  userData request = Search task ->
  isFirstPage task = true ->
  setup page = Ok tt ->
  whatInput (searchForm page) = Ok false \/
  whereInput (searchForm page) = Ok false \/
  searchButton (searchForm page) = Ok false ->
  requestHandler' request page st =
  (Ok SearchFailed,
   mkState (S (processedUrls st)) (S (failedUrls st)) (allJobs st) (actions st)).
Proof.
  intros Hu Hf Hs Hc.
  unfold Crawler.requestHandler, Crawler.handlerBody, interact.
  by rewrite Hu, Hs, Hf, (performIndeedSearch_missing_control _ Hc).
Qed.

Lemma findNext_none page selectors :
  (forall sel, In sel selectors -> nextControl page sel = Ok false) ->
  findNext page selectors = Ok false.
Proof.
  induction selectors as [|sel selectors IH]; intros H; simpl; [done|].
  rewrite (H sel) by (by left). rewrite result_bind_ok.
  apply IH. intros sel' Hin. apply H. by right.
Qed.

(** X13. For a task that is not a first page, when the page declares enough
    results and none of the four next-page selectors finds a control, the
    handler returns through the no-more-pages exit: nothing is clicked, the
    task is not counted as failed and no job is added. *)
Theorem no_next_control_is_not_a_failure (request : Request)
    (task : SearchTask) (page : Page) (st : State) (count : option string) :
  userData request = Search task ->
  isFirstPage task = false ->
  setup page = Ok tt ->
  countText page = Ok count ->
  (expectedMinResults task <= totalResults count)%N ->
  (forall sel, In sel nextSelectors -> nextControl page sel = Ok false) ->
  requestHandler' request page st = (Ok NoMorePages, countProcessed st).
Proof.
  intros Hu Hf Hs Hc Hle Hnone.
  unfold Crawler.requestHandler, Crawler.handlerBody, interact.
  rewrite Hu, Hs, Hf, Hc.
  destruct (N.ltb_spec (totalResults count) (expectedMinResults task)); [lia|].
  by rewrite (findNext_none page nextSelectors Hnone).
Qed.

End CrawlerAccounting.

Lemma missing_search_control_fails_task_witness :
  Crawler.requestHandler Crawler.keepAll Crawler.neverSalary
    (Crawler.mkRequest (Crawler.Search Crawler.chefTask) 0
       "https://www.indeed.com/search-task-0")
    landingWithoutWhat Crawler.start
  = (Ok Crawler.SearchFailed, Crawler.mkState 1 1 [] []).
Proof.
  apply (missing_search_control_fails_task Crawler.keepAll Crawler.neverSalary
           (Crawler.mkRequest (Crawler.Search Crawler.chefTask) 0
              "https://www.indeed.com/search-task-0")
           Crawler.chefTask landingWithoutWhat Crawler.start);
    try reflexivity.
  left. reflexivity.
Defined.

Lemma no_next_control_is_not_a_failure_witness :
  Crawler.requestHandler Crawler.keepAll Crawler.neverSalary
    (Crawler.mkRequest (Crawler.Search Crawler.thirdPageTask) 0
       "https://www.indeed.com/search-task-2")
    (lastListingPage "31 jobs") Crawler.start
  = (Ok Crawler.NoMorePages, Crawler.countProcessed Crawler.start).
Proof.
  apply (no_next_control_is_not_a_failure Crawler.keepAll Crawler.neverSalary
           (Crawler.mkRequest (Crawler.Search Crawler.thirdPageTask) 0
              "https://www.indeed.com/search-task-2")
           Crawler.thirdPageTask (lastListingPage "31 jobs") Crawler.start
           (Some "31 jobs"%string));
    try reflexivity.
  vm_compute. discriminate.
Defined.

(** ** Reading a results count *)

Lemma digitChar_isDigit d : d < 10 -> Crawler.isDigit (digitChar d) = true.
Proof.
  intros H. do 10 (destruct d as [|d]; [vm_compute; reflexivity|]). lia.
Qed.

Lemma digitChar_value d : d < 10 -> Str.code (digitChar d) - 48 = d.
Proof.
  intros H. do 10 (destruct d as [|d]; [vm_compute; reflexivity|]). lia.
Qed.

Lemma append_cons c a b :
  String.append (String c a) b = String c (String.append a b).
Proof. reflexivity. Qed.

Lemma append_empty b : String.append EmptyString b = b.
Proof. reflexivity. Qed.

Lemma leadingNumber_cons c r acc :
  Crawler.leadingNumber (String c r) acc =
  if Crawler.isDigit c
  then Crawler.leadingNumber r (acc * 10 + N.of_nat (Str.code c - 48))%N
  else acc.
Proof. reflexivity. Qed.

Lemma leadingNumber_digits digits after acc :
  Forall (fun d => d < 10) digits ->
  startsWithDigit after = false ->
  Crawler.leadingNumber (String.append (digitString digits) after) acc =
  fold_left (fun acc d => (acc * 10 + N.of_nat d)%N) digits acc.
Proof.
  intros Hd Hafter. revert acc.
  induction Hd as [|d digits Hlt _ IH]; intros acc.
  - change (digitString []) with EmptyString. rewrite append_empty.
    destruct after as [|c r]; [done|].
    rewrite leadingNumber_cons. cbn [startsWithDigit] in Hafter.
    by rewrite Hafter.
  - change (digitString (d :: digits))
      with (String (digitChar d) (digitString digits)).
    rewrite append_cons, leadingNumber_cons.
    rewrite digitChar_isDigit, digitChar_value by done.
    cbn [fold_left]. apply IH.
Qed.

Lemma firstNumber_skip before rest :
  noDigit before = true ->
  Crawler.firstNumber (String.append before rest) = Crawler.firstNumber rest.
Proof.
  induction before as [|c before IH]; cbn [noDigit]; intros H.
  - by rewrite append_empty.
  - apply andb_true_iff in H. destruct H as [Hc Hb].
    rewrite append_cons. cbn [Crawler.firstNumber].
    apply negb_true_iff in Hc. rewrite Hc. by apply IH.
Qed.

Lemma toDouble_exact n : (n < 9007199254740992)%N -> Crawler.toDouble n = n.
Proof.
  intros H. unfold Crawler.toDouble.
  destruct (N.ltb_spec n 9007199254740992); [done|lia].
Qed.

Lemma firstNumber_digits before after digits :
  noDigit before = true ->
  digits <> [] ->
  Forall (fun d => d < 10) digits ->
  startsWithDigit after = false ->
  Crawler.firstNumber
    (String.append before (String.append (digitString digits) after))
  = Some (Crawler.toDouble (digitsValue digits)).
Proof.
  intros Hb Hne Hd Hafter.
  rewrite firstNumber_skip by done.
  destruct digits as [|d digits]; [done|].
  assert (Hlt : d < 10) by (by inversion Hd).
  assert (Hfirst : forall r,
    Crawler.firstNumber (String (digitChar d) r) =
    Some (Crawler.toDouble
            (Crawler.leadingNumber (String (digitChar d) r) 0%N))).
  { intros r. cbn [Crawler.firstNumber]. by rewrite digitChar_isDigit. }
  change (digitString (d :: digits))
    with (String (digitChar d) (digitString digits)) at 1.
  rewrite append_cons, Hfirst, <- append_cons.
  change (String (digitChar d) (digitString digits))
    with (digitString (d :: digits)).
  by rewrite leadingNumber_digits.
Qed.

(** X14. The declared total is the number written by the first run of
    decimal digits in the count text, as long as that number is below
    2^53: what comes before it without digits is skipped and the run ends
    at the first character that is not a digit, so that a thousands
    separator cuts the number short. (From 2^53 on [parseInt] rounds.) *)
Theorem totalResults_first_run (before after : string) (digits : list nat) :
  noDigit before = true ->
  digits <> [] ->
  Forall (fun d => d < 10) digits ->
  startsWithDigit after = false ->
  (digitsValue digits < 2 ^ 53)%N ->
  Crawler.totalResults
    (Some (String.append before (String.append (digitString digits) after)))
  = digitsValue digits.
Proof.
  intros Hb Hne Hd Hafter Hlt. unfold Crawler.totalResults.
  rewrite firstNumber_digits by done. cbn [default].
  apply toDouble_exact.
  change (2 ^ 53)%N with 9007199254740992%N in Hlt. done.
Qed.

Lemma totalResults_first_run_witness :
  Crawler.totalResults
    (Some (String.append "About "
             (String.append (digitString [1]) ",234 jobs")))
  = 1%N.
Proof.
  apply (totalResults_first_run "About " ",234 jobs" [1]).
  - reflexivity.
  - discriminate.
  - repeat constructor.
  - reflexivity.
  - vm_compute. reflexivity.
Defined.

(** Beyond 2^53 the count is rounded, a tie going to the even
    significand. *)
Example totalResults_rounded :
  Crawler.totalResults (Some "9007199254740993 jobs"%string)
    = 9007199254740992%N /\
  Crawler.totalResults (Some "9007199254740995 jobs"%string)
    = 9007199254740996%N /\
  Crawler.totalResults (Some "9007199254740991 jobs"%string)
    = 9007199254740991%N /\
  Crawler.totalResults (Some "18014398509481987 jobs"%string)
    = 18014398509481988%N.
Proof. vm_compute. repeat split. Qed.

(** ** Task generation: defaults and first pages *)

(** X15. Whatever the parameters, the tasks are the term-major list for the
    given terms and page count, with the eight hospitality terms and five
    pages standing in for omitted ones; every task carries the given
    location and salary floor, or [United States] and 55000. *)
Theorem createIndeedSearchTasks_defaults (params : TaskParams) :
  let loc := default "United States"%string (p_location params) in
  let sal := default 55000%N (p_salaryMin params) in
  let terms := default defaultJobTypes (p_jobTypes params) in
  let n := default 5 (p_maxPages params) in
  createIndeedSearchTasks params = generateTasks loc sal terms n /\
  length (createIndeedSearchTasks params) = length terms * n /\
  Forall (fun t => location t = loc /\ salaryMin t = sal /\
                   In (jobType t) terms /\ pageNumber t < n)
    (createIndeedSearchTasks params).
Proof.
  intros loc sal terms n.
  assert (Heq : createIndeedSearchTasks params = generateTasks loc sal terms n).
  { unfold createIndeedSearchTasks. fold loc sal terms n.
    by rewrite fold_pushPages. }
  rewrite Heq. split_and!; [done|apply generateTasks_length|].
  apply Forall_forall. intros t Ht. unfold generateTasks in Ht.
  apply list_elem_of_In, in_flat_map in Ht. destruct Ht as (jt & Hjt & Ht).
  apply in_map_iff in Ht. destruct Ht as (p & <- & Hp).
  apply in_seq in Hp. simpl. split_and!; [done|done|done|lia].
Qed.

Lemma later_pages_not_first jt loc sal start n :
  0 < start ->
  List.filter isFirstPage
    (map (fun p => mkTask jt loc sal p (p =? 0)) (seq start n)) = [].
Proof.
  revert start. induction n as [|n IH]; intros start Hs; simpl; [done|].
  destruct start as [|start]; [lia|]. simpl. apply IH. lia.
Qed.

(** X16. When at least one page is asked for, the first-page tasks are
    exactly one per search term, in the order of the terms, each at page
    0. *)
Theorem one_first_page_per_term (loc : option string) (sal : option N)
    (terms : list string) (n : nat) :
  0 < n ->
  List.filter isFirstPage
    (createIndeedSearchTasks (mkParams loc sal (Some n) (Some terms)))
  = map (fun jt => mkTask jt (default "United States"%string loc)
                     (default 55000%N sal) 0 true) terms.
Proof.
  intros Hn. unfold createIndeedSearchTasks. simpl.
  rewrite fold_pushPages. simpl. unfold generateTasks.
  induction terms as [|jt terms IH]; simpl; [done|].
  rewrite List.filter_app, IH. destruct n as [|n]; [lia|]. simpl.
  by rewrite later_pages_not_first by lia.
Qed.

Lemma one_first_page_per_term_witness :
  List.filter isFirstPage
    (createIndeedSearchTasks
       (mkParams None None (Some 3) (Some ["chef"; "cook"]%string)))
  = [ mkTask "chef" "United States" 55000%N 0 true;
      mkTask "cook" "United States" 55000%N 0 true ].
Proof.
  apply (one_first_page_per_term None None ["chef"; "cook"]%string 3). lia.
Defined.

(** ** Page load handling *)

Lemma clicked_app a b : clicked (a ++ b) = clicked a ++ clicked b.
Proof. unfold clicked. apply omap_app. Qed.

Lemma clicked_dismiss page selectors :
  clicked (flat_map (PageLoad.dismiss page) selectors) =
  List.filter (popupFound page) selectors.
Proof.
  induction selectors as [|sel selectors IH]; simpl; [done|].
  rewrite clicked_app, IH. unfold PageLoad.dismiss, popupFound.
  destruct (PageLoad.popup page sel) as [[]|]; simpl; [|done|done].
  by destruct (PageLoad.clickPopup page sel).
Qed.

(** X17. Once a job card has become visible, [handleIndeedPageLoad] clicks
    every close button it finds, in the order of its selector list, and
    then scrolls: a button that is missing, a lookup that fails or a click
    that fails does not keep it from the buttons after it nor from the
    scroll. *)
Theorem page_load_tries_every_popup (page : PageLoad.Page) :
  PageLoad.resultsVisible page = Ok tt ->
  clicked (PageLoad.handleIndeedPageLoad page) =
    List.filter (popupFound page) PageLoad.popupSelectors /\
  In PageLoad.Scroll (PageLoad.handleIndeedPageLoad page).
Proof.
  intros Hv. unfold PageLoad.handleIndeedPageLoad. rewrite Hv. split.
  - rewrite clicked_app, clicked_dismiss.
    destruct (PageLoad.scroll page); simpl; by rewrite app_nil_r.
  - apply in_or_app. right. destruct (PageLoad.scroll page); by left.
Qed.

Lemma page_load_tries_every_popup_witness :
  clicked (PageLoad.handleIndeedPageLoad popupPage) =
    List.filter (popupFound popupPage) PageLoad.popupSelectors /\
  In PageLoad.Scroll (PageLoad.handleIndeedPageLoad popupPage).
Proof. apply (page_load_tries_every_popup popupPage). reflexivity. Defined.

Example page_load_sample :
  PageLoad.handleIndeedPageLoad popupPage =
  [ PageLoad.Click ".pn-CloseButton"; PageLoad.Click ".icl-CloseButton";
    PageLoad.Pause 1000%N; PageLoad.Scroll; PageLoad.Pause 2000%N ].
Proof. vm_compute. reflexivity. Qed.

(** ** E-mail harvesting: what is returned *)

Section EmailFacts.
Import Aggregation.

Lemma matchItems_rep least class rest prev s :
  matchItems (Rep least class :: rest) prev s =
  let stop := match least with
              | 0 => matchItems rest prev s
              | S _ => None
              end in
  match s with
  | c :: s' =>
      if class c
      then match matchItems (Rep (pred least) class :: rest) (Some c) s' with
           | Some m => Some (c :: m)
           | None => stop
           end
      else stop
  | [] => stop
  end.
Proof. destruct s; reflexivity. Qed.

Lemma Matches_rep_zero class rest m :
  Collection.Matches rest m -> Collection.Matches (Rep 0 class :: rest) m.
Proof.
  intros H. apply (Collection.Matches_rep 0 class [] rest m); [simpl; lia|constructor|done].
Qed.

Lemma Matches_rep_cons least class rest c m :
  class c = true ->
  Collection.Matches (Rep (pred least) class :: rest) m ->
  Collection.Matches (Rep least class :: rest) (c :: m).
Proof.
  intros Hc H. inversion H as [| | |least' class' run items m' Hle Hrun Hm]; subst.
  apply (Collection.Matches_rep least class (c :: run) rest m');
    [simpl; lia|by constructor|done].
Qed.

(** What the matcher returns is a prefix of the text read, and a word of
    the pattern. *)
Lemma matchItems_sound items :
  forall prev s m,
    matchItems items prev s = Some m ->
    Collection.Matches items m /\ exists rest, s = m ++ rest.
Proof.
  induction items as [|item items IH]; intros prev s m H.
  - simpl in H. injection H as <-. split; [constructor|by exists s].
  - destruct item as [|c|least class].
    + simpl in H. destruct (xorb _ _); [|done].
      destruct (IH _ _ _ H) as [Hm Hp]. split; [by constructor|done].
    + simpl in H. destruct s as [|c' s']; [done|].
      destruct (Ascii.eqb_spec c c') as [<-|]; [|done].
      destruct (matchItems items (Some c) s') as [m'|] eqn:Hm'; [|done].
      injection H as <-. destruct (IH _ _ _ Hm') as [Hm [rest ->]].
      split; [by constructor|by exists rest].
    + revert least prev m H.
      induction s as [|c s' IHs]; intros least prev m H;
        rewrite matchItems_rep in H; cbv zeta in H.
      * destruct least; [|done]. destruct (IH _ _ _ H) as [Hm Hp].
        split; [by apply Matches_rep_zero|done].
      * assert (Hstop :
          match least with
          | 0 => matchItems items prev (c :: s')
          | S _ => None
          end = Some m ->
          Collection.Matches (Rep least class :: items) m /\
          exists rest, c :: s' = m ++ rest).
        { destruct least; [|done]. intros Hs.
          destruct (IH _ _ _ Hs) as [Hm Hp].
          split; [by apply Matches_rep_zero|done]. }
        destruct (class c) eqn:Hc; [|by apply Hstop].
        destruct (matchItems (Rep (pred least) class :: items) (Some c) s')
          as [m'|] eqn:Hm'; [|by apply Hstop].
        injection H as <-. destruct (IHs _ _ _ Hm') as [Hm [rest ->]].
        split; [by apply Matches_rep_cons|by exists rest].
Qed.

(** Every match of a scan is a word of the pattern cut out of the text. *)
Lemma scan_sound items :
  forall s skip prev e,
    In e (scan items skip prev s) ->
    exists before m after,
      s = before ++ m ++ after /\ e = string_of_list_ascii m /\
      Collection.Matches items m.
Proof.
  induction s as [|c s' IH]; intros skip prev e Hin; simpl in Hin; [done|].
  assert (Hrest : forall skip', In e (scan items skip' (Some c) s') ->
    exists before m after,
      c :: s' = before ++ m ++ after /\ e = string_of_list_ascii m /\
      Collection.Matches items m).
  { intros skip' H. destruct (IH _ _ _ H) as (before & m & after & -> & He & Hm).
    by exists (c :: before), m, after. }
  destruct skip as [|skip]; [|by apply (Hrest skip)].
  destruct (matchItems items prev (c :: s')) as [[|c' m]|] eqn:Hm;
    [by apply (Hrest 0)| |by apply (Hrest 0)].
  destruct (matchItems_sound _ _ _ _ Hm) as [HM [rest Hs]].
  injection Hs as <- ->.
  destruct Hin as [<-|Hin]; [|by apply (Hrest (length m))].
  by exists [], (c :: m), rest.
Qed.

Lemma string_of_list_ascii_app a b :
  string_of_list_ascii (a ++ b) =
  String.append (string_of_list_ascii a) (string_of_list_ascii b).
Proof. induction a as [|c a IH]; simpl; [done|]. by rewrite IH. Qed.

Lemma extracted_iff (s e : string) :
  In e (extractEmailsFromText (JsString s)) <->
  In e (matchAll emailRegex s) /\ isContact e = true.
Proof.
  simpl. destruct (Str.truthy s) eqn:Hs.
  - destruct (fold_setAdd (List.filter isContact (matchAll emailRegex s)) []
                NoDup_nil_2) as [_ Hin].
    rewrite <- !list_elem_of_In, Hin, elem_of_nil, !list_elem_of_In, filter_In.
    tauto.
  - destruct s; [|done]. simpl. tauto.
Qed.

(** X18. Every address [extractEmailsFromText] returns is a piece of the
    text, unchanged, made of a local part, an at sign, a domain, a dot and
    an ending of two characters or more, each over its own alphabet (the
    ending over letters and the bar). *)
Theorem extracted_email_shape (s e : string) :
  In e (extractEmailsFromText (JsString s)) ->
  Str.includes s e = true /\
  exists localPart domain ending,
    list_ascii_of_string e =
      localPart ++ "@"%char :: domain ++ "."%char :: ending /\
    1 <= length localPart /\ 1 <= length domain /\ 2 <= length ending /\
    Forall (fun c => isAlnum c || oneOf "._%+-" c = true) localPart /\
    Forall (fun c => isAlnum c || oneOf ".-" c = true) domain /\
    Forall (fun c => isLetter c || oneOf "|" c = true) ending.
Proof.
  intros Hin. apply extracted_iff in Hin. destruct Hin as [Hin _].
  unfold matchAll in Hin. apply scan_sound in Hin.
  destruct Hin as (before & m & after & Hs & -> & HM). split.
  - rewrite <- (string_of_list_ascii_of_string s), Hs.
    rewrite !string_of_list_ascii_app. apply includes_append.
  - rewrite list_ascii_of_string_of_list_ascii. unfold emailRegex in HM.
    inversion HM as [|? m1 H1| |]; subst; clear HM.
    inversion H1 as [| | |? ? localPart ? m2 Hl1 Hl2 H2]; subst; clear H1.
    inversion H2 as [| |? ? m3 H3|]; subst; clear H2.
    inversion H3 as [| | |? ? domain ? m4 Hd1 Hd2 H4]; subst; clear H3.
    inversion H4 as [| |? ? m5 H5|]; subst; clear H4.
    inversion H5 as [| | |? ? ending ? m6 He1 He2 H6]; subst; clear H5.
    inversion H6 as [|? m7 H7| |]; subst; clear H6.
    inversion H7; subst; clear H7.
    exists localPart, domain, ending. rewrite app_nil_r. done.
Qed.

Lemma extracted_email_shape_witness :
  Str.includes "Write to chef@bistro21.com today" "chef@bistro21.com" = true /\
  exists localPart domain ending,
    list_ascii_of_string "chef@bistro21.com" =
      localPart ++ "@"%char :: domain ++ "."%char :: ending /\
    1 <= length localPart /\ 1 <= length domain /\ 2 <= length ending /\
    Forall (fun c => isAlnum c || oneOf "._%+-" c = true) localPart /\
    Forall (fun c => isAlnum c || oneOf ".-" c = true) domain /\
    Forall (fun c => isLetter c || oneOf "|" c = true) ending.
Proof.
  apply (extracted_email_shape "Write to chef@bistro21.com today"
           "chef@bistro21.com").
  vm_compute. left. reflexivity.
Defined.

(** X19. The result holds exactly the matches of the pattern that pass the
    filter: removing the duplicates loses no address, and two spellings
    that differ in case are two addresses. *)
Theorem extracted_exactly_contact_matches (s e : string) :
  (In e (extractEmailsFromText (JsString s)) <->
   In e (matchAll emailRegex s) /\ isContact e = true) /\
  extractEmailsFromText (JsString "Chef@Bistro21.com chef@bistro21.com")
  = ["Chef@Bistro21.com"; "chef@bistro21.com"]%string.
Proof. split; [apply extracted_iff|vm_compute; reflexivity]. Qed.

End EmailFacts.

(** ** Duplicate suppression: counts, order, idempotence *)

Section DedupFacts.
Import Aggregation.

Lemma fold_dedupStep_counts jobs :
  forall st,
    length (uniqueJobs st) = size (seenJobs st) ->
    let st' := fold_left dedupStep jobs st in
    length (uniqueJobs st') + duplicateCount st' =
      length (uniqueJobs st) + duplicateCount st + length jobs /\
    length (uniqueJobs st') = size (seenJobs st').
Proof.
  induction jobs as [|job jobs IH]; intros st Hsize; simpl.
  - split; [lia|done].
  - assert (Hstep :
      length (uniqueJobs (dedupStep st job))
      + duplicateCount (dedupStep st job)
      = S (length (uniqueJobs st) + duplicateCount st) /\
      length (uniqueJobs (dedupStep st job)) = size (seenJobs (dedupStep st job))).
    { unfold dedupStep. case_decide as Hseen; simpl.
      - split; [lia|done].
      - rewrite length_app, size_union, size_singleton by set_solver.
        simpl. split; lia. }
    destruct Hstep as [Hc Hs]. destruct (IH _ Hs) as [Hc' Hs'].
    split; [lia|done].
Qed.

(** X20. The figures of the closing summary add up: the jobs kept and the
    duplicates counted are together the jobs found, and the set of keys
    seen has one key per job kept. *)
Theorem dedup_counts_add_up (allJobs : list Job) :
  let st := removeDuplicates allJobs in
  length (uniqueJobs st) + duplicateCount st = length allJobs /\
  size (seenJobs st) = length (uniqueJobs st) /\
  length (scrapeJobsWithIndeedScraper allJobs) <= length allJobs.
Proof.
  unfold scrapeJobsWithIndeedScraper, removeDuplicates.
  destruct (fold_dedupStep_counts allJobs (mkDedup [] ∅ 0)) as [Hc Hs];
    [done|].
  simpl in *. split_and!; [lia|done|lia].
Qed.

Lemma scrape_NoDup_id jobs :
  NoDup (keysOf jobs) -> scrapeJobsWithIndeedScraper jobs = jobs.
Proof.
  induction jobs as [|job before IH] using rev_ind; intros Hnd; [done|].
  unfold keysOf in *. rewrite fmap_app in Hnd. apply NoDup_app in Hnd.
  destruct Hnd as (Hb & Hdisj & _).
  rewrite scrape_snoc, IH by done. unfold keysOf.
  case_decide as Hk; [|done].
  exfalso. apply (Hdisj _ Hk). simpl. left.
Qed.

Lemma scrape_sublist jobs : sublist (scrapeJobsWithIndeedScraper jobs) jobs.
Proof.
  induction jobs as [|job before IH] using rev_ind; [done|].
  rewrite scrape_snoc. case_decide.
  - rewrite app_nil_r. by apply sublist_inserts_r.
  - by apply sublist_app.
Qed.

(** X21. Duplicate suppression keeps the jobs in the order they were
    collected, keeps for every collected job one job with its key, and
    changes nothing when applied to its own result. *)
Theorem dedup_order_and_idempotence (allJobs : list Job) :
  sublist (scrapeJobsWithIndeedScraper allJobs) allJobs /\
  (forall job, In job allJobs ->
     exists kept, In kept (scrapeJobsWithIndeedScraper allJobs) /\
                  jobKey kept = jobKey job) /\
  scrapeJobsWithIndeedScraper (scrapeJobsWithIndeedScraper allJobs) =
  scrapeJobsWithIndeedScraper allJobs.
Proof.
  split_and!.
  - apply scrape_sublist.
  - intros job Hin. destruct (scrape_keys allJobs) as [_ Hkeys].
    assert (Hk : jobKey job ∈ keysOf allJobs).
    { unfold keysOf. apply list_elem_of_fmap. exists job.
      split; [done|by apply list_elem_of_In]. }
    apply Hkeys in Hk. unfold keysOf in Hk. apply list_elem_of_fmap in Hk.
    destruct Hk as (kept & Hkey & Hkept). exists kept.
    split; [by apply list_elem_of_In|done].
  - apply scrape_NoDup_id, scrape_keys.
Qed.

End DedupFacts.

(** ** Normalization and the collection loop *)

Section CollectionFacts.
Import Aggregation Collection.

Lemma orString_truthy v fallback :
  Str.truthy fallback = true -> Str.truthy (orString v fallback) = true.
Proof. intros H. destruct v; simpl; [by apply orElse_truthy|done]. Qed.

Lemma orUnknown_truthy s : Str.truthy s = true -> orUnknown (Some s) = s.
Proof. intros H. simpl. unfold Str.orElse. by rewrite H. Qed.

Lemma orString_blank v fallback :
  orString v EmptyString = EmptyString -> orString v fallback = fallback.
Proof.
  destruct v as [s|]; simpl; [|done]. unfold Str.orElse.
  destruct (Str.truthy s) eqn:Hs; [|done]. intros ->. done.
Qed.

(** X22. Normalization never leaves the title or the company empty, so the
    [unknown] of the duplicate key is never used on a normalized job; and
    all the jobs the API returns with neither a title nor a company name
    get one and the same key, so that only the first of them is kept. *)
Theorem normalized_jobs_and_keys (job : RawJob) (searchTerm city : string) :
  let normalized := normalizeIndeedScraperJob job searchTerm city in
  (exists t c,
     title normalized = Some t /\ company normalized = Some c /\
     Str.truthy t = true /\ Str.truthy c = true /\
     jobKey normalized =
       String.append (Str.trim (Str.toLowerCase c))
         (String.append "|" (Str.trim (Str.toLowerCase t)))) /\
  (nameless job ->
   jobKey normalized = "company not specified|no title"%string /\
   forall before other term' city',
     nameless other ->
     In (normalizeIndeedScraperJob other term' city') before ->
     Aggregation.scrapeJobsWithIndeedScraper (before ++ [normalized]) =
     Aggregation.scrapeJobsWithIndeedScraper before).
Proof.
  intros normalized.
  assert (Hkey : forall raw term' city', nameless raw ->
    jobKey (normalizeIndeedScraperJob raw term' city')
    = "company not specified|no title"%string).
  { intros raw term' city' (Ht & Hc1 & Hc2). unfold jobKey. simpl.
    rewrite (orString_blank _ _ Ht), (orString_blank _ _ Hc1),
      (orString_blank _ _ Hc2). reflexivity. }
  split.
  - eexists _, _. split_and!; [reflexivity|reflexivity| | |].
    + by apply orString_truthy.
    + by apply orString_truthy, orString_truthy.
    + unfold jobKey. cbn [company title normalized normalizeIndeedScraperJob].
      rewrite !orUnknown_truthy;
        [done|by apply orString_truthy|by apply orString_truthy, orString_truthy].
  - intros Hn. split; [by apply Hkey|].
    intros before other term' city' Ho Hin. rewrite scrape_snoc.
    case_decide as Hk; [by rewrite app_nil_r|].
    exfalso. apply Hk. unfold keysOf. apply list_elem_of_fmap.
    exists (normalizeIndeedScraperJob other term' city').
    split; [|by apply list_elem_of_In].
    subst normalized. by rewrite !Hkey.
Qed.

End CollectionFacts.

Section CollectionLoop.
Import Aggregation Collection.

Variable api : Api.
Variable fromDays : Z.

Lemma search_spec city term st :
  events (search api fromDays city term st) =
    events st ++ [Requested city term fromDays] /\
  collected (search api fromDays city term st) =
    collected st ++ harvest api fromDays city term.
Proof.
  unfold search, harvest.
  destruct (api city term fromDays) as [result|msg]; simpl;
    [|by rewrite app_nil_r].
  destruct (returned result) as [jobs|]; simpl; [|by rewrite app_nil_r].
  destruct (status result =? 201); simpl; [done|by rewrite app_nil_r].
Qed.

Lemma forTerms_spec city lastCity terms :
  forall st,
    let requests := map (fun term => Requested city term fromDays) terms in
    events (forTerms api fromDays city lastCity terms st) =
      events st ++ (if lastCity then spaced requests else paced requests) /\
    collected (forTerms api fromDays city lastCity terms st) =
      collected st ++ flat_map (harvest api fromDays city) terms.
Proof.
  induction terms as [|term rest IH]; intros st; cbn [forTerms map flat_map].
  - destruct lastCity; simpl; by rewrite !app_nil_r.
  - destruct (search_spec city term st) as [He Hc].
    set (st1 := search api fromDays city term st) in *.
    destruct rest as [|term' rest].
    + cbn [forTerms map flat_map]. destruct lastCity; simpl.
      * rewrite He, Hc. by rewrite !app_nil_r.
      * rewrite He, Hc. rewrite <- app_assoc. by rewrite !app_nil_r.
    + cbn [negb orb].
      destruct (IH (wait st1)) as [He' Hc']. rewrite He', Hc'.
      cbn [wait events collected]. rewrite He, Hc, <- !app_assoc.
      split; [|done]. f_equal. by destruct lastCity.
Qed.

Lemma spaced_app a b : b <> [] -> spaced (a ++ b) = paced a ++ spaced b.
Proof.
  intros Hb. destruct b as [|y b]; [done|]. clear Hb.
  destruct a as [|x a]; [done|]. simpl. f_equal.
  induction a as [|z a IH]; simpl; [done|]. by rewrite IH.
Qed.

Lemma forCities_spec terms cities :
  forall st,
    events (forCities api fromDays terms cities st) =
      events st ++
      spaced (flat_map (fun city =>
                          map (fun term => Requested city term fromDays) terms)
                cities) /\
    collected (forCities api fromDays terms cities st) =
      collected st ++
      flat_map (fun city => flat_map (harvest api fromDays city) terms) cities.
Proof.
  induction cities as [|city rest IH]; intros st; cbn [forCities flat_map].
  - by rewrite !app_nil_r.
  - destruct (IH (forTerms api fromDays city
                    (match rest with [] => true | _ => false end) terms st))
      as [He Hc].
    destruct (forTerms_spec city (match rest with [] => true | _ => false end)
                terms st) as [He1 Hc1].
    rewrite He, Hc, He1, Hc1, <- !app_assoc. split; [|done]. f_equal.
    destruct rest as [|city' rest]; [by rewrite !app_nil_r|].
    destruct terms as [|term terms']; [|by rewrite spaced_app].
    simpl. clear. induction rest; simpl; [done|]. done.
Qed.


End CollectionLoop.

Section CollectionRun.
Import Aggregation Collection.


(** On answers of the expected shape the jobs collected are, city by city
    and term by term, the normalized jobs of the answers with status 201
    and data, and what the function returns is this list with the
    duplicates removed. *)
Lemma typed_collection_harvest (api : Api) (options : Options) :
  let fromDays := validatedJobAgeDays (default 1%Z (jobAgeDays options)) in
  let terms := default JOB_SEARCH_TERMS (searchTerms options) in
  let cities := citiesToSearch options in
  let result := fst (Collection.scrapeJobsWithIndeedScraper api options) in
  result =
    Aggregation.scrapeJobsWithIndeedScraper
      (flat_map (fun city => flat_map (harvest api fromDays city) terms) cities) /\
  NoDup (jobKey <$> result) /\
  (forall city term,
     (forall result, api city term fromDays = Ok result ->
        status result <> 201 \/ returned result = None) ->
     harvest api fromDays city term = []).
Proof.
  intros fromDays terms cities result.
  assert (Hr : result =
    Aggregation.scrapeJobsWithIndeedScraper
      (flat_map (fun city => flat_map (harvest api fromDays city) terms) cities)).
  { subst result. unfold Collection.scrapeJobsWithIndeedScraper, collect.
    simpl. fold fromDays terms cities.
    destruct (forCities_spec api fromDays terms cities (mkProgress [] []))
      as [_ ->]. reflexivity. }
  split_and!.
  - exact Hr.
  - rewrite Hr. apply scrape_keys.
  - intros city term Hbad. unfold harvest.
    destruct (api city term fromDays) as [r|msg]; [|done].
    destruct (Hbad r eq_refl) as [Hs| ->]; [|done].
    destruct (returned r); [|done].
    apply Nat.eqb_neq in Hs. by rewrite Hs.
Qed.

Example collection_sample :
  Collection.scrapeJobsWithIndeedScraper patchyApi
    (mkOptions (Some true) None (Some ["chef"]%string) (Some 2%Z))
  = ([ mkJob (Some "chef") (Some "New York, NY") EmptyString "New York, NY" ],
     [ Requested "New York, NY" "chef" 7%Z; Waited 3000%N;
       Requested "Boston, MA" "chef" 7%Z ])%string.
Proof. vm_compute. reflexivity. Qed.

Example slice0_samples :
  slice0 (-1)%Z [1; 2; 3] = [1; 2] /\ slice0 5%Z [1; 2; 3] = [1; 2; 3] /\
  slice0 0%Z [1; 2; 3] = [] /\ slice0 (-7)%Z [1; 2; 3] = [].
Proof. vm_compute. repeat split. Qed.

End CollectionRun.

Lemma normalized_jobs_and_keys_witness :
  Aggregation.jobKey
    (Collection.normalizeIndeedScraperJob
       (Collection.mkRawJob None (Some EmptyString) None None)
       "hotel" "Boston, MA")
  = "company not specified|no title"%string.
Proof.
  apply (proj2 (normalized_jobs_and_keys
                  (Collection.mkRawJob None (Some EmptyString) None None)
                  "hotel" "Boston, MA")).
  repeat split.
Defined.

(** ** The collection run on answers of any shape *)

Section WireLoop.
Import Wire.

Variable api : Api.
Variable fromDays : Z.

Lemma wire_search_spec city term st :
  events (search api fromDays city term st) =
    events st ++ [Collection.Requested city term fromDays] /\
  collected (search api fromDays city term st) =
    collected st ++ harvest api fromDays city term.
Proof.
  unfold search, harvest.
  destruct (api city term fromDays) as [result|msg];
    [rewrite result_bind_ok|rewrite result_bind_err];
    cbn [catch events collected]; [|by rewrite app_nil_r].
  destruct (status result =? 201); cbn [catch events collected];
    [|by rewrite app_nil_r].
  destruct (data result) as [|jobs|msg]; cbn [catch events collected];
    [by rewrite app_nil_r| |by rewrite app_nil_r].
  destruct (mapJobs jobs term city) as [normalized|msg];
    [rewrite result_bind_ok|rewrite result_bind_err];
    cbn [catch events collected]; [done|by rewrite app_nil_r].
Qed.

Lemma wire_forTerms_spec city lastCity terms :
  forall st,
    let requests :=
      map (fun term => Collection.Requested city term fromDays) terms in
    events (forTerms api fromDays city lastCity terms st) =
      events st ++ (if lastCity then spaced requests else paced requests) /\
    collected (forTerms api fromDays city lastCity terms st) =
      collected st ++ flat_map (harvest api fromDays city) terms.
Proof.
  induction terms as [|term rest IH]; intros st; cbn [forTerms map flat_map].
  - destruct lastCity; simpl; by rewrite !app_nil_r.
  - destruct (wire_search_spec city term st) as [He Hc].
    set (st1 := search api fromDays city term st) in *.
    destruct rest as [|term' rest].
    + cbn [forTerms map flat_map]. destruct lastCity; simpl.
      * rewrite He, Hc. by rewrite !app_nil_r.
      * rewrite He, Hc. rewrite <- app_assoc. by rewrite !app_nil_r.
    + cbn [negb orb].
      destruct (IH (wait st1)) as [He' Hc']. rewrite He', Hc'.
      cbn [wait events collected]. rewrite He, Hc, <- !app_assoc.
      split; [|done]. f_equal. by destruct lastCity.
Qed.

Lemma wire_forCities_spec terms cities :
  forall st,
    events (forCities api fromDays terms cities st) =
      events st ++
      spaced (flat_map
                (fun city =>
                   map (fun term => Collection.Requested city term fromDays)
                     terms)
                cities) /\
    collected (forCities api fromDays terms cities st) =
      collected st ++
      flat_map (fun city => flat_map (harvest api fromDays city) terms) cities.
Proof.
  induction cities as [|city rest IH]; intros st; cbn [forCities flat_map].
  - by rewrite !app_nil_r.
  - destruct (IH (forTerms api fromDays city
                    (match rest with [] => true | _ => false end) terms st))
      as [He Hc].
    destruct (wire_forTerms_spec city
                (match rest with [] => true | _ => false end) terms st)
      as [He1 Hc1].
    rewrite He, Hc, He1, Hc1, <- !app_assoc. split; [|done]. f_equal.
    destruct rest as [|city' rest]; [by rewrite !app_nil_r|].
    destruct terms as [|term terms']; [|by rewrite spaced_app].
    simpl. clear. induction rest; simpl; [done|]. done.
Qed.

(** A whole answer is kept or dropped. *)
Lemma mapJobs_ok jobs term city normalized :
  mapJobs jobs term city = Ok normalized ->
  Forall (fun job => throws job = None) jobs /\
  length normalized = length jobs /\
  Forall (fun job => truthy (title job) = true /\ truthy (company job) = true)
    normalized.
Proof.
  revert normalized.
  induction jobs as [|job jobs IH]; intros normalized; cbn [mapJobs].
  - intros [= <-]. repeat split; constructor.
  - unfold normalizeIndeedScraperJob.
    destruct (throws job) as [msg|] eqn:Hthrows;
      [rewrite result_bind_err; discriminate|rewrite result_bind_ok].
    destruct (mapJobs jobs term city) as [others|msg];
      [rewrite result_bind_ok|rewrite result_bind_err; discriminate].
    intros [= <-]. destruct (IH others eq_refl) as (Hj & Hl & Ht).
    split_and!; [by constructor|simpl; by rewrite Hl|].
    constructor; [|done]. cbn [title company]. unfold or.
    split; repeat case_match; done.
Qed.

Lemma mapJobs_throws jobs term city job msg :
  In job jobs -> throws job = Some msg ->
  exists msg', mapJobs jobs term city = Err msg'.
Proof.
  intros Hin Hthrows.
  destruct (mapJobs jobs term city) as [normalized|msg'] eqn:Hmap;
    [|by eexists].
  apply mapJobs_ok in Hmap. destruct Hmap as (Hall & _).
  rewrite Forall_forall in Hall. rewrite Hall in Hthrows; [done|].
  by apply list_elem_of_In.
Qed.

End WireLoop.

Section WireDedup.
Import Wire.

Lemma keyPart_text v :
  truthyNonString v = false -> exists k, keyPart v = Ok k.
Proof.
  unfold keyPart, or. destruct v as [|s|[]]; cbn [truthy truthyNonString];
    try discriminate; intros _; try (by eexists).
  destruct (Str.truthy s); by eexists.
Qed.

Lemma keyPart_not_text v :
  truthyNonString v = true -> keyPart v = Err notAFunction.
Proof. destruct v as [|s|[]]; cbn; done. Qed.

Lemma jobKey_keyable job :
  keyable job = true -> jobKey job = Ok (keyText job).
Proof.
  unfold keyable, keyText, jobKey. intros H.
  apply andb_true_iff in H. destruct H as [Hc Ht].
  apply negb_true_iff in Hc, Ht.
  destruct (keyPart_text _ Hc) as [c ->]. destruct (keyPart_text _ Ht) as [t ->].
  reflexivity.
Qed.

Lemma jobKey_not_keyable job :
  keyable job = false -> jobKey job = Err notAFunction.
Proof.
  unfold keyable, jobKey. intros H.
  destruct (truthyNonString (company job)) eqn:Hc.
  - rewrite (keyPart_not_text _ Hc). reflexivity.
  - destruct (keyPart_text _ Hc) as [c ->]. rewrite result_bind_ok.
    destruct (truthyNonString (title job)) eqn:Ht; [|done].
    rewrite (keyPart_not_text _ Ht). reflexivity.
Qed.

(** One job whose key cannot be built ends the loop, wherever it stands. *)
Lemma dedupLoop_rejects allJobs :
  Exists (fun job => keyable job = false) allJobs ->
  forall st, dedupLoop allJobs st = Err notAFunction.
Proof.
  induction allJobs as [|job rest IH]; intros Hex st.
  - by apply Exists_nil in Hex.
  - cbn [dedupLoop]. unfold dedupStep.
    destruct (keyable job) eqn:Hk.
    + rewrite (jobKey_keyable _ Hk), !result_bind_ok. apply IH.
      apply Exists_cons in Hex. destruct Hex as [Hex|Hex]; [congruence|done].
    + by rewrite (jobKey_not_keyable _ Hk).
Qed.

Lemma dedupLoop_keeps allJobs :
  Forall (fun job => keyable job = true) allJobs ->
  forall st,
    exists st',
      dedupLoop allJobs st = Ok st' /\
      seenJobs st' = list_to_set (keyText <$> allJobs) ∪ seenJobs st /\
      exists added,
        uniqueJobs st' = uniqueJobs st ++ added /\
        sublist added allJobs /\
        NoDup (keyText <$> added) /\
        (forall job, job ∈ added -> keyText job ∉ seenJobs st) /\
        (forall key, key ∈ keyText <$> allJobs ->
           key ∈ seenJobs st \/ key ∈ keyText <$> added) /\
        duplicateCount st' + length added =
          duplicateCount st + length allJobs.
Proof.
  induction 1 as [|job rest Hk _ IH]; intros st.
  - exists st. split; [done|]. split; [set_solver|].
    exists []. rewrite app_nil_r. split_and!; try done.
    + apply NoDup_nil_2.
    + set_solver.
    + set_solver.
  - cbn [dedupLoop]. unfold dedupStep.
    rewrite (jobKey_keyable _ Hk), !result_bind_ok.
    case_decide as Hseen.
    + destruct (IH (mkDedup (uniqueJobs st) (seenJobs st)
                      (S (duplicateCount st))))
        as (st' & -> & Hs & added & Hu & Hsub & Hnd & Hfresh & Hcover & Hcount).
      exists st'. split; [done|]. cbn [seenJobs uniqueJobs duplicateCount] in *.
      split; [rewrite Hs; set_solver|].
      exists added. split_and!; try done.
      * by apply sublist_cons.
      * intros key Hkey. rewrite fmap_cons in Hkey.
        apply elem_of_cons in Hkey. destruct Hkey as [->|Hkey]; [by left|].
        by apply Hcover.
      * simpl. lia.
    + destruct (IH (mkDedup (uniqueJobs st ++ [job])
                      ({[keyText job]} ∪ seenJobs st) (duplicateCount st)))
        as (st' & -> & Hs & added & Hu & Hsub & Hnd & Hfresh & Hcover & Hcount).
      exists st'. split; [done|]. cbn [seenJobs uniqueJobs duplicateCount] in *.
      split; [rewrite Hs; set_solver|].
      exists (job :: added). split_and!.
      * by rewrite Hu, <- app_assoc.
      * by apply sublist_skip.
      * rewrite fmap_cons. apply NoDup_cons. split; [|done].
        intros Hin. apply list_elem_of_fmap in Hin.
        destruct Hin as (other & Heq & Hin).
        apply (Hfresh other Hin). rewrite <- Heq. set_solver.
      * intros other Hin. apply elem_of_cons in Hin.
        destruct Hin as [->|Hin]; [done|].
        intros Hs'. apply (Hfresh other Hin). set_solver.
      * intros key Hkey. rewrite fmap_cons in Hkey. rewrite fmap_cons.
        apply elem_of_cons in Hkey. destruct Hkey as [->|Hkey].
        -- right. by left.
        -- destruct (Hcover key Hkey) as [Hin|Hin]; [|right; by right].
           apply elem_of_union in Hin. destruct Hin as [Hin|Hin]; [|by left].
           apply elem_of_singleton in Hin. subst key. right. by left.
      * simpl. lia.
Qed.

End WireDedup.

Section WireRun.
Import Wire.

(** X24. Whatever the API answers, the jobs accumulated are, city by city
    and term by term, what each request adds: the normalized jobs of an
    answer with status 201 whose data is an array of jobs that can all be
    normalized, each with a title and a company that are not empty, and
    nothing for a request that fails or is answered otherwise; one job
    whose normalization throws drops its whole answer. The duplicate loop
    is outside every [try]: when a title or company accumulated is a truthy
    value that is no string the function rejects; when there is none it
    returns jobs taken from the accumulated list in its order, with
    pairwise distinct keys and with every key accumulated among them. *)
Theorem collection_harvest (api : Api) (options : Collection.Options) :
  let fromDays :=
    Collection.validatedJobAgeDays
      (default 1%Z (Collection.jobAgeDays options)) in
  let terms :=
    default Collection.JOB_SEARCH_TERMS (Collection.searchTerms options) in
  let cities := Collection.citiesToSearch options in
  let allJobs :=
    flat_map (fun city => flat_map (harvest api fromDays city) terms) cities in
  let result := fst (scrapeJobsWithIndeedScraper api options) in
  collected (collect api options) = allJobs /\
  snd (scrapeJobsWithIndeedScraper api options)
    = Collection.plan fromDays cities terms /\
  (forall city term,
     harvest api fromDays city term <> [] ->
     exists answer jobs,
       api city term fromDays = Ok answer /\
       status answer = 201 /\
       data answer = Jobs jobs /\
       Forall (fun job => throws job = None) jobs /\
       mapJobs jobs term city = Ok (harvest api fromDays city term) /\
       length (harvest api fromDays city term) = length jobs) /\
  (forall city term answer jobs job msg,
     api city term fromDays = Ok answer ->
     data answer = Jobs jobs ->
     In job jobs -> throws job = Some msg ->
     harvest api fromDays city term = []) /\
  Forall (fun job => truthy (title job) = true /\ truthy (company job) = true)
    allJobs /\
  (Exists (fun job => keyable job = false) allJobs ->
   result = Err notAFunction) /\
  (Forall (fun job => keyable job = true) allJobs ->
   exists unique,
     result = Ok unique /\
     sublist unique allJobs /\
     NoDup (keyText <$> unique) /\
     forall key, key ∈ keyText <$> allJobs -> key ∈ keyText <$> unique).
Proof.
  intros fromDays terms cities allJobs result.
  destruct (wire_forCities_spec api fromDays terms cities (mkProgress [] []))
    as [He Hc]. cbn [events collected app] in He, Hc.
  assert (Hcollected : collected (collect api options) = allJobs).
  { exact Hc. }
  assert (Hharvest : forall city term,
    harvest api fromDays city term <> [] ->
    exists answer jobs,
      api city term fromDays = Ok answer /\
      status answer = 201 /\
      data answer = Jobs jobs /\
      mapJobs jobs term city = Ok (harvest api fromDays city term)).
  { intros city term. unfold harvest.
    destruct (api city term fromDays) as [answer|msg]; [|done].
    destruct (Nat.eqb_spec (status answer) 201) as [Hs|Hs]; [|done].
    destruct (data answer) as [|jobs|msg] eqn:Hd; [done| |done].
    destruct (mapJobs jobs term city) as [normalized|msg] eqn:Hm; [|done].
    intros _. exists answer, jobs. by rewrite Hm. }
  split_and!.
  - exact Hcollected.
  - exact He.
  - intros city term Hne.
    destruct (Hharvest city term Hne) as (answer & jobs & Ha & Hs & Hd & Hm).
    exists answer, jobs. destruct (mapJobs_ok _ _ _ _ Hm) as (Hj & Hl & _).
    done.
  - intros city term answer jobs job msg Ha Hd Hin Hthrows.
    unfold harvest. rewrite Ha, Hd.
    destruct (mapJobs_throws jobs term city job msg Hin Hthrows) as [msg' ->].
    by destruct (status answer =? 201).
  - subst allJobs. apply Forall_forall. intros job Hin.
    apply list_elem_of_In, in_flat_map in Hin.
    destruct Hin as (city & _ & Hin). apply in_flat_map in Hin.
    destruct Hin as (term & _ & Hin).
    destruct (Hharvest city term) as (answer & jobs & _ & _ & _ & Hm).
    { intros Hnil. by rewrite Hnil in Hin. }
    destruct (mapJobs_ok _ _ _ _ Hm) as (_ & _ & Hall).
    rewrite Forall_forall in Hall. by apply Hall, list_elem_of_In.
  - intros Hex. subst result.
    unfold scrapeJobsWithIndeedScraper, removeDuplicates. cbn [fst].
    rewrite Hcollected. by rewrite (dedupLoop_rejects allJobs Hex).
  - intros Hall. subst result.
    unfold scrapeJobsWithIndeedScraper, removeDuplicates. cbn [fst].
    rewrite Hcollected.
    destruct (dedupLoop_keeps allJobs Hall (mkDedup [] ∅ 0))
      as (st' & -> & _ & added & Hu & Hsub & Hnd & _ & Hcover & _).
    cbn [uniqueJobs app] in Hu. rewrite result_bind_ok, Hu.
    exists added. split_and!; try done.
    intros key Hkey. destruct (Hcover key Hkey) as [Hin|Hin]; [|done].
    cbn [seenJobs] in Hin. set_solver.
Qed.

Lemma collection_harvest_witness :
  fst (scrapeJobsWithIndeedScraper numberTitleApi
         (Collection.mkOptions (Some true) None (Some ["chef"]%string) None))
  = Err notAFunction.
Proof.
  apply (collection_harvest numberTitleApi
           (Collection.mkOptions (Some true) None (Some ["chef"]%string) None)).
  vm_compute. apply Exists_cons_tl, Exists_cons_hd. reflexivity.
Defined.

(** A title that is a number makes the function reject; a description that
    is one drops the answer it came in, good jobs included. *)
Example ill_typed_answers :
  fst (scrapeJobsWithIndeedScraper numberTitleApi
         (Collection.mkOptions (Some true) None (Some ["chef"]%string) None))
    = Err notAFunction /\
  fst (scrapeJobsWithIndeedScraper numberDescriptionApi
         (Collection.mkOptions (Some true) None (Some ["chef"]%string) None))
    = Ok [].
Proof. vm_compute. split; reflexivity. Qed.

End WireRun.

(** ** Answers of the expected shape *)

Section TypedRun.
Import Wire.

Lemma or_ofOption v fallback :
  or (ofOption v) (Text fallback) = Text (Collection.orString v fallback).
Proof.
  destruct v as [s|]; [|reflexivity].
  unfold or, Collection.orString, Str.orElse. cbn [ofOption truthy].
  by destruct (Str.truthy s).
Qed.

Lemma normalize_typed job term city :
  normalizeIndeedScraperJob (typedJob job) term city =
  Ok (ofTyped (Collection.normalizeIndeedScraperJob job term city)).
Proof.
  unfold normalizeIndeedScraperJob, typedJob, ofTyped,
    Collection.normalizeIndeedScraperJob.
  cbn [throws a_title a_companyName a_company a_jobKey Aggregation.title
       Aggregation.company Aggregation.job_id Aggregation.search_city
       ofOption].
  by rewrite !or_ofOption.
Qed.

Lemma mapJobs_typed jobs term city :
  mapJobs (typedJob <$> jobs) term city =
  Ok (ofTyped <$>
      map (fun job => Collection.normalizeIndeedScraperJob job term city) jobs).
Proof.
  induction jobs as [|job jobs IH]; [reflexivity|].
  rewrite fmap_cons. cbn [mapJobs].
  rewrite normalize_typed, result_bind_ok, IH, result_bind_ok. reflexivity.
Qed.

Lemma search_typed api fromDays city term st :
  search (typedApi api) fromDays city term (ofProgress st) =
  ofProgress (Collection.search api fromDays city term st).
Proof.
  unfold search, Collection.search, typedApi, ofProgress.
  cbn [collected events Collection.collected Collection.events].
  destruct (api city term fromDays) as [result|msg];
    [rewrite result_bind_ok|reflexivity].
  cbn [status data].
  destruct (Collection.returned result) as [jobs|].
  - destruct (Collection.status result =? 201); [|reflexivity].
    rewrite mapJobs_typed, result_bind_ok.
    cbn [catch Collection.collected Collection.events].
    by rewrite fmap_app.
  - by destruct (Collection.status result =? 201).
Qed.

Lemma wait_typed st : wait (ofProgress st) = ofProgress (Collection.wait st).
Proof. reflexivity. Qed.

Lemma forTerms_typed api fromDays city lastCity terms :
  forall st,
    forTerms (typedApi api) fromDays city lastCity terms (ofProgress st) =
    ofProgress (Collection.forTerms api fromDays city lastCity terms st).
Proof.
  induction terms as [|term rest IH]; intros st; [reflexivity|].
  cbn [forTerms Collection.forTerms]. rewrite search_typed.
  destruct (negb _ || negb lastCity); [rewrite wait_typed|]; apply IH.
Qed.

Lemma forCities_typed api fromDays terms cities :
  forall st,
    forCities (typedApi api) fromDays terms cities (ofProgress st) =
    ofProgress (Collection.forCities api fromDays terms cities st).
Proof.
  induction cities as [|city rest IH]; intros st; [reflexivity|].
  cbn [forCities Collection.forCities]. rewrite forTerms_typed. apply IH.
Qed.

Lemma keyPart_typed v :
  keyPart (ofOption v) =
  Ok (Str.trim (Str.toLowerCase (Aggregation.orUnknown v))).
Proof.
  destruct v as [s|]; [|reflexivity].
  unfold keyPart, or, Aggregation.orUnknown, Str.orElse.
  cbn [ofOption truthy]. by destruct (Str.truthy s).
Qed.

Lemma jobKey_typed job : jobKey (ofTyped job) = Ok (Aggregation.jobKey job).
Proof.
  unfold jobKey, ofTyped. cbn [company title].
  by rewrite !keyPart_typed.
Qed.

Lemma dedupLoop_typed jobs :
  forall st,
    dedupLoop (ofTyped <$> jobs) (ofDedup st) =
    Ok (ofDedup (fold_left Aggregation.dedupStep jobs st)).
Proof.
  induction jobs as [|job jobs IH]; intros st; [reflexivity|].
  rewrite fmap_cons. cbn [dedupLoop fold_left]. unfold dedupStep.
  rewrite jobKey_typed, !result_bind_ok.
  rewrite <- IH. f_equal.
  unfold Aggregation.dedupStep, ofDedup.
  cbn [seenJobs uniqueJobs duplicateCount].
  case_decide; cbn [Aggregation.seenJobs Aggregation.uniqueJobs
                    Aggregation.duplicateCount]; [done|].
  by rewrite fmap_app.
Qed.

(** X25. On answers of the expected shape, where title, company name,
    company and key of every job are strings or missing and no job makes
    the normalization throw, the function resolves, and the typed reading
    of the run is exact: it returns the jobs and goes through the requests
    and waits that [Collection.scrapeJobsWithIndeedScraper] gives. *)
Theorem typed_run_agrees (api : Collection.Api) (options : Collection.Options) :
  scrapeJobsWithIndeedScraper (typedApi api) options =
  (Ok (ofTyped <$> fst (Collection.scrapeJobsWithIndeedScraper api options)),
   snd (Collection.scrapeJobsWithIndeedScraper api options)).
Proof.
  unfold scrapeJobsWithIndeedScraper, Collection.scrapeJobsWithIndeedScraper.
  cbn [fst snd].
  assert (Hc : collect (typedApi api) options =
               ofProgress (Collection.collect api options)).
  { unfold collect, Collection.collect.
    change (mkProgress [] []) with (ofProgress (Collection.mkProgress [] [])).
    apply forCities_typed. }
  rewrite Hc. unfold ofProgress at 1 2. cbn [collected events].
  f_equal. unfold removeDuplicates.
  change (mkDedup [] ∅ 0) with (ofDedup (Aggregation.mkDedup [] ∅ 0)).
  rewrite dedupLoop_typed, result_bind_ok. reflexivity.
Qed.

Example typed_run_sample :
  fst (scrapeJobsWithIndeedScraper (typedApi patchyApi)
         (Collection.mkOptions (Some true) None (Some ["chef"]%string)
            (Some 2%Z)))
  = Ok [ mkJob (Text "chef") (Text "New York, NY") (Text EmptyString)
           "New York, NY" ]%string.
Proof. vm_compute. reflexivity. Qed.

End TypedRun.

(** ** The run in a browser *)

Section BrowserRun.
Import Crawler.

Variable shouldExcludeCompany : string -> bool.
Variable isSalaryCompanyName : string -> bool.

Lemma extractCards_rejected cards :
  Forall rejectsEmptySelector cards ->
  Crawler.extractCards shouldExcludeCompany isSalaryCompanyName cards [] = [].
Proof.
  rewrite extractCards_omap. simpl. unfold omap.
  induction 1 as [|card cards [msg Hmsg] _ IH]; simpl; [done|].
  unfold Crawler.acceptCard at 1.
  by rewrite (extract_empty_selector_rejected card msg Hmsg).
Qed.

Lemma findJobElements_source page selectors :
  findJobElements page selectors = [] \/
  exists sel, cardsFor page sel = Ok (findJobElements page selectors).
Proof.
  induction selectors as [|sel selectors IH]; simpl; [by left|].
  destruct (cardsFor page sel) as [[|card cards]|msg] eqn:Hc; try done.
  right. by exists sel.
Qed.

Lemma handler_in_browser request page st :
  (forall sel cards, cardsFor page sel = Ok cards ->
     Forall rejectsEmptySelector cards) ->
  allJobs (snd (Crawler.requestHandler shouldExcludeCompany
                  isSalaryCompanyName request page st)) = allJobs st.
Proof.
  intros Hcards.
  assert (Hnone :
    Crawler.extractCards shouldExcludeCompany isSalaryCompanyName
      (findJobElements page jobSelectors) [] = []).
  { destruct (findJobElements_source page jobSelectors) as [->|[sel Hsel]];
      [done|].
    by apply extractCards_rejected, (Hcards sel). }
  unfold Crawler.requestHandler, Crawler.handlerBody, interact.
  repeat case_match; simplify_eq;
    cbn [snd allJobs countFailed countProcessed record pushJobs];
    try done.
  all: try match goal with
           | H : findJobElements _ _ = _ |- _ => rewrite H in Hnone
           end.
  all: rewrite Hnone; apply app_nil_r.
Qed.

(** X7. With cards whose [querySelector] rejects the empty selector, as in
    a browser, the lookup of the job id makes the extraction of every card
    fail, and the whole run returns no job, whatever the pages show. *)
Theorem run_in_browser_returns_nothing (pages : nat -> nat -> Page)
    (searchTasks : list SearchTask) :
  (forall i k sel cards, cardsFor (pages i k) sel = Ok cards ->
     Forall rejectsEmptySelector cards) ->
  Run.scrapeIndeedJobs shouldExcludeCompany isSalaryCompanyName
    pages searchTasks = [].
Proof.
  intros Hcards. unfold Run.scrapeIndeedJobs, Run.finish.
  assert (Hgen : forall queue index st,
    allJobs (Run.crawl shouldExcludeCompany isSalaryCompanyName
               pages index queue st) = allJobs st); [|by rewrite Hgen].
  induction queue as [|request queue IH]; intros index st;
    cbn [Run.crawl]; [done|].
  rewrite IH, runRequest_final. apply handler_in_browser.
  intros sel cards. apply Hcards.
Qed.

End BrowserRun.

Lemma run_in_browser_returns_nothing_witness :
  Run.scrapeIndeedJobs Crawler.keepAll Crawler.neverSalary
    (fun _ _ => browserPage) [Crawler.chefTask] = [].
Proof.
  apply (run_in_browser_returns_nothing Crawler.keepAll Crawler.neverSalary
           (fun _ _ => browserPage) [Crawler.chefTask]).
  intros _ _ sel cards. unfold browserPage. simpl.
  destruct (String.eqb sel "[data-jk]"); intros [= <-]; repeat constructor.
  exists Extraction.emptySelectorError. reflexivity.
Defined.

(** The same run with cards that answer the empty selector with no
    element. *)
Example run_sample :
  map Extraction.title
    (Run.scrapeIndeedJobs Crawler.keepAll Crawler.neverSalary
       (fun _ _ => Crawler.clearPage) [Crawler.chefTask])
  = ["Executive Chef"%string] /\
  Run.requests [Crawler.chefTask; Crawler.thirdPageTask]
  = [ Crawler.mkRequest Crawler.Warmup 0 "https://www.indeed.com";
      Crawler.mkRequest (Crawler.Search Crawler.chefTask) 0
        "https://www.indeed.com/search-task-0";
      Crawler.mkRequest (Crawler.Search Crawler.thirdPageTask) 0
        "https://www.indeed.com/search-task-1" ].
Proof. vm_compute. split; reflexivity. Qed.
